(** * FetchForceMergedPRs: a shallow embedding of [main.py]

    The script pages through the closed pull requests of a repository,
    keeps those merged inside a date window, fetches the comments of each
    kept pull request and reports every comment that carries the
    [FORCE_MERGE] marker, as text or as JSON.

    The embedding follows the source function by function:
    - [calculate_enddate_if_needed], over a model of [datetime] values and
      of the calendar arithmetic the standard library performs;
    - [get_merged_prs], the paginated fetch, as a fuelled loop over an
      abstract API that records which pages were requested;
    - [main], the comment scan and the two report modes.

    The two HTTP endpoints are functions from the request to a response;
    [raise_for_status] and the other exceptions the script can raise are
    results of an error type.  The [token] only decides the request
    headers and the [verbose] progress lines do not influence control
    flow; both are left out of [main] and [get_merged_prs], which are the
    program with [verbose] off; the module [Verbose] has the program with
    the flag and its progress lines.  A text holds a Python [str] as its
    UTF-8 encoding, a surrogate code point being encoded on three bytes
    like the other code points of its range; standard output is the text
    handed to [print]. *)

From Stdlib Require Import ZArith List String Ascii Bool Lia Arith.
From Stdlib Require DecimalString DecimalZ DecimalPos DecimalN DecimalFacts.
Import ListNotations.
Local Open Scope string_scope.
Local Open Scope Z_scope.
Local Open Scope list_scope.
Set Warnings "-register-all".

(** ** Exceptions and results *)

Inductive exn : Type :=
| HTTPError          (* response.raise_for_status() *)
| UnboundLocalError  (* a local variable read before assignment *)
| ValueError         (* datetime.strptime on text that does not match *)
| OverflowError      (* datetime arithmetic leaving year 1..9999 *)
| AttributeError.    (* a method looked up on None *)

Inductive result (A : Type) : Type :=
| Ok (a : A)
| Raise (e : exn).
Arguments Ok {A} a.
Arguments Raise {A} e.

Definition bind {A B : Type} (r : result A) (k : A -> result B) : result B :=
  match r with
  | Ok a => k a
  | Raise e => Raise e
  end.

Notation "x <- r ;; k" := (bind r (fun x => k))
  (at level 61, r at next level, right associativity).

(** ** [datetime.datetime] (naive) *)

Record datetime : Type := mkdatetime {
  year : Z; month : Z; day : Z;
  hour : Z; minute : Z; second : Z; microsecond : Z
}.

(** Comparison of naive datetimes is the lexicographic comparison of the
    seven fields. *)
Definition lex (c : comparison) (k : comparison) : comparison :=
  match c with Eq => k | _ => c end.

Definition datetime_cmp (a b : datetime) : comparison :=
  lex (year a ?= year b)
  (lex (month a ?= month b)
  (lex (day a ?= day b)
  (lex (hour a ?= hour b)
  (lex (minute a ?= minute b)
  (lex (second a ?= second b)
       (microsecond a ?= microsecond b)))))).

Definition datetime_leb (a b : datetime) : bool :=
  match datetime_cmp a b with Gt => false | _ => true end.

Definition datetime_ltb (a b : datetime) : bool :=
  match datetime_cmp a b with Lt => true | _ => false end.

(** ** The platform API *)

(** An item of the pull-request list, with the fields the script reads:
    [pr["number"]], [pr["title"]], [pr["user"]["login"]], [pr["merged_at"]]
    (JSON [null] is [None]) and [pr["html_url"]]. *)
Record PullRequest : Type := mkPullRequest {
  pr_number : Z;
  pr_title : string;
  pr_user_login : string;
  pr_merged_at : option string;
  pr_html_url : string
}.

(** An issue comment: [comment["user"]["login"]] and [comment["body"]]. *)
Record Comment : Type := mkComment {
  comment_user_login : string;
  comment_body : string
}.

(** What [requests.get] gives back: a status that [raise_for_status]
    accepts, with the decoded JSON, or one that it rejects. *)
Inductive response (A : Type) : Type :=
| Status_ok (data : A)
| Status_error.
Arguments Status_ok {A} data.
Arguments Status_error {A}.

Definition raise_for_status {A : Type} (r : response A) : result A :=
  match r with
  | Status_ok data => Ok data
  | Status_error => Raise HTTPError
  end.

(** Truth value of [pr.get("merged_at")]: [None] and the empty string are
    false. *)
Definition truthy (o : option string) : option string :=
  match o with
  | Some s => if String.eqb s EmptyString then None else Some s
  | None => None
  end.

(** ** [get_merged_prs] *)

(** The local variables of [get_merged_prs] that live across iterations.
    [merged_at] is [None] while the name is still unbound. *)
Record locals : Type := mklocals {
  prs : list PullRequest;
  merged_at : option datetime;
  shouldContinue : bool
}.

(** How a run of the page loop ends. *)
Inductive outcome : Type :=
| Returned (prs : list PullRequest)
| Raised (e : exn)
| OutOfFuel.

Section Fetcher.

(** [datetime.datetime.strptime(_, "%Y-%m-%dT%H:%M:%SZ")]; [None] is
    [ValueError]. *)
Variable strptime : string -> option datetime.
(** The closed-pull-requests endpoint, by page number. *)
Variable api : nat -> response (list PullRequest).
Variables start_date end_date : datetime.

(** [start_date <= merged_at <= end_date] *)
Definition within (m : datetime) : bool :=
  datetime_leb start_date m && datetime_leb m end_date.

(** The body of [for pr in data] (lines 38-51). *)
Definition for_body (st : locals) (pr : PullRequest) : result locals :=
  st1 <- match truthy (pr_merged_at pr) with
         | Some s =>
             match strptime s with
             | None => Raise ValueError
             | Some m =>
                 if within m
                 then Ok (mklocals (prs st ++ [pr]) (Some m) (shouldContinue st))
                 else Ok (mklocals (prs st) (Some m) (shouldContinue st))
             end
         | None => Ok st
         end ;;
  match merged_at st1 with
  | None => Raise UnboundLocalError
  | Some m =>
      if datetime_ltb m start_date
      then Ok (mklocals (prs st1) (merged_at st1) false)
      else Ok st1
  end.

Fixpoint for_loop (data : list PullRequest) (st : locals) : result locals :=
  match data with
  | [] => Ok st
  | pr :: data' => st' <- for_body st pr ;; for_loop data' st'
  end.

(** The [while shouldContinue] loop, from the iteration that is about to
    test the flag with [page] and [st].  The second component lists the
    pages requested from the API, in order. *)
Fixpoint while_loop (fuel : nat) (page : nat) (st : locals)
  : outcome * list nat :=
  if shouldContinue st then
    match fuel with
    | O => (OutOfFuel, [])
    | S fuel' =>
        let (o, pages) :=
          match raise_for_status (api page) with
          | Raise e => (Raised e, [])
          | Ok [] => (Returned (prs st), [])
          | Ok data =>
              match for_loop data st with
              | Raise e => (Raised e, [])
              | Ok st' => while_loop fuel' (page + 1) st'
              end
          end in
        (o, page :: pages)
    end
  else (Returned (prs st), []).

Definition get_merged_prs (fuel : nat) : outcome * list nat :=
  while_loop fuel 1%nat (mklocals [] None true).

(** States the loop body can be entered with. *)
Inductive reachable : locals -> Prop :=
| reachable_init : reachable (mklocals [] None true)
| reachable_step st pr st' :
    reachable st -> for_body st pr = Ok st' -> reachable st'.

(** An item the fetcher keeps: it has a merge timestamp, the timestamp
    parses, and it lies in the window. *)
Definition in_window (pr : PullRequest) : bool :=
  match truthy (pr_merged_at pr) with
  | Some s =>
      match strptime s with
      | Some m => within m
      | None => false
      end
  | None => false
  end.

(** The JSON list a page request yields, empty when the request fails. *)
Definition data_of (page : nat) : list PullRequest :=
  match api page with
  | Status_ok data => data
  | Status_error => []
  end.

(** Every merge timestamp of the list is one [strptime] accepts. *)
Definition well_formed (data : list PullRequest) : Prop :=
  forall pr s, In pr data -> truthy (pr_merged_at pr) = Some s ->
               strptime s <> None.

End Fetcher.

(** ** Calendar arithmetic of the standard library *)

(** [calendar.isleap] and [calendar.mdays]; [monthrange_days] is the second
    component of [calendar.monthrange(year, month)]. *)
Definition isleap (y : Z) : bool :=
  (y mod 4 =? 0) && (negb (y mod 100 =? 0) || (y mod 400 =? 0)).

Definition mdays : list Z := [0; 31; 28; 31; 30; 31; 30; 31; 31; 30; 31; 30; 31].

Definition monthrange_days (y m : Z) : Z :=
  nth (Z.to_nat m) mdays 0 + (if (m =? 2) && isleap y then 1 else 0).

(** The tables and helpers of the [datetime] module. *)
Definition MINYEAR : Z := 1.
Definition MAXYEAR : Z := 9999.
Definition MAXORDINAL : Z := 3652059.

Definition DAYS_IN_MONTH : list Z :=
  [-1; 31; 28; 31; 30; 31; 30; 31; 31; 30; 31; 30; 31].
Definition DAYS_BEFORE_MONTH : list Z :=
  [-1; 0; 31; 59; 90; 120; 151; 181; 212; 243; 273; 304; 334].

Definition is_leap (y : Z) : bool :=
  (y mod 4 =? 0) && (negb (y mod 100 =? 0) || (y mod 400 =? 0)).

Definition b2z (b : bool) : Z := if b then 1 else 0.

Definition days_before_year (y : Z) : Z :=
  let y := y - 1 in y * 365 + y / 4 - y / 100 + y / 400.

Definition days_in_month (y m : Z) : Z :=
  if (m =? 2) && is_leap y then 29 else nth (Z.to_nat m) DAYS_IN_MONTH 0.

Definition days_before_month (y m : Z) : Z :=
  nth (Z.to_nat m) DAYS_BEFORE_MONTH 0 + b2z ((2 <? m) && is_leap y).

Definition ymd2ord (y m d : Z) : Z :=
  days_before_year y + days_before_month y m + d.

Definition DI400Y : Z := 146097.
Definition DI100Y : Z := 36524.
Definition DI4Y : Z := 1461.

(** The end of [_ord2ymd]: month and day from the day of the year [n],
    counted from 0. *)
Definition month_day (leapyear : bool) (n : Z) : Z * Z :=
  let month := Z.shiftr (n + 50) 5 in
  let preceding :=
    nth (Z.to_nat month) DAYS_BEFORE_MONTH 0 + b2z ((2 <? month) && leapyear) in
  let (month, preceding) :=
    if n <? preceding
    then (month - 1,
          preceding - (nth (Z.to_nat (month - 1)) DAYS_IN_MONTH 0
                       + b2z ((month - 1 =? 2) && leapyear)))
    else (month, preceding) in
  (month, n - preceding + 1).

Definition ord2ymd (n : Z) : Z * Z * Z :=
  let n := n - 1 in
  let n400 := n / DI400Y in
  let n := n mod DI400Y in
  let year := n400 * 400 + 1 in
  let n100 := n / DI100Y in
  let n := n mod DI100Y in
  let n4 := n / DI4Y in
  let n := n mod DI4Y in
  let n1 := n / 365 in
  let n := n mod 365 in
  let year := year + n100 * 100 + n4 * 4 + n1 in
  if (n1 =? 4) || (n100 =? 4) then (year - 1, 12, 31)
  else
    let leapyear := (n1 =? 3) && (negb (n4 =? 24) || (n100 =? 3)) in
    let (month, day) := month_day leapyear n in
    (year, month, day).

(** The field checks of the [datetime] constructor. *)
Definition check_date_fields (y m d : Z) : bool :=
  (MINYEAR <=? y) && (y <=? MAXYEAR) && (1 <=? m) && (m <=? 12)
  && (1 <=? d) && (d <=? days_in_month y m).

Definition check_time_fields (h mi s us : Z) : bool :=
  (0 <=? h) && (h <=? 23) && (0 <=? mi) && (mi <=? 59)
  && (0 <=? s) && (s <=? 59) && (0 <=? us) && (us <=? 999999).

Definition valid_datetime (dt : datetime) : bool :=
  check_date_fields (year dt) (month dt) (day dt)
  && check_time_fields (hour dt) (minute dt) (second dt) (microsecond dt).

Definition toordinal (dt : datetime) : Z :=
  ymd2ord (year dt) (month dt) (day dt).

(** [dt + datetime.timedelta(days=n)] *)
Definition add_days (dt : datetime) (n : Z) : result datetime :=
  let days := toordinal dt + n in
  if (0 <? days) && (days <=? MAXORDINAL)
  then let '(y, m, d) := ord2ymd days in
       Ok (mkdatetime y m d (hour dt) (minute dt) (second dt) (microsecond dt))
  else Raise OverflowError.

(** [dt.replace(day=d, hour=23, minute=59, second=59, microsecond=999999)] *)
Definition replace_day_end (dt : datetime) (d : Z) : result datetime :=
  let r := mkdatetime (year dt) (month dt) d 23 59 59 999999 in
  if valid_datetime r then Ok r else Raise ValueError.

(** [dt.replace(hour=23, minute=59, second=59, microsecond=999999)] *)
Definition replace_end (dt : datetime) : result datetime :=
  replace_day_end dt (day dt).

(** ** [calculate_enddate_if_needed] *)

Definition calculate_enddate_if_needed
  (start_date : datetime) (end_date : option datetime) : result datetime :=
  match end_date with
  | None =>
      if day start_date =? 1 then
        let last_day := monthrange_days (year start_date) (month start_date) in
        replace_day_end start_date last_day
      else
        (shifted <- add_days start_date 30 ;; replace_end shifted)
  | Some e => Ok e
  end.

(** The calendar as the specification speaks of it: the length of a
    month, the day after a date, and the date [n] days after a date. *)
Definition month_length (y m : Z) : Z :=
  if (m =? 4) || (m =? 6) || (m =? 9) || (m =? 11) then 30
  else if m =? 2 then
    if (y mod 4 =? 0) && (negb (y mod 100 =? 0) || (y mod 400 =? 0))
    then 29 else 28
  else 31.

Definition calendar_date (ymd : Z * Z * Z) : Prop :=
  let '(y, m, d) := ymd in
  1 <= y /\ 1 <= m <= 12 /\ 1 <= d <= month_length y m.

Definition next_day (ymd : Z * Z * Z) : Z * Z * Z :=
  let '(y, m, d) := ymd in
  if d <? month_length y m then (y, m, d + 1)
  else if m <? 12 then (y, m + 1, 1)
  else (y + 1, 1, 1).

Fixpoint days_later (n : nat) (ymd : Z * Z * Z) : Z * Z * Z :=
  match n with
  | O => ymd
  | S n' => next_day (days_later n' ymd)
  end.

Definition date_of (dt : datetime) : Z * Z * Z := (year dt, month dt, day dt).

(** The integers [lo], [lo + 1], ..., [n] of them. *)
Definition zrange (lo n : nat) : list Z := map Z.of_nat (seq lo n).

(** The facts about months that only depend on whether the year is a leap
    year, checked month by month and day by day on one year of each kind. *)
Definition month_facts (y m : Z) : bool :=
  (monthrange_days y m =? month_length y m)
  && (days_in_month y m =? month_length y m)
  && (days_before_month y m + month_length y m
      =? (if m =? 12 then 365 + b2z (is_leap y)
          else days_before_month y (m + 1)))
  && forallb (fun d =>
       if d <=? month_length y m then
         let (m', d') := month_day (is_leap y) (days_before_month y m + d - 1) in
         (m' =? m) && (d' =? d)
       else true) (zrange 1 31).

(** ** Text *)

Local Open Scope string_scope.

Definition nl : string := String "010" EmptyString.

(** [str(n)] for an [int]. *)
Definition str_int (z : Z) : string :=
  DecimalString.NilZero.string_of_int (Z.to_int z).

(** [marker in body]: some suffix of [body] starts with [marker]. *)
Fixpoint contains (marker body : string) : bool :=
  String.prefix marker body
  || match body with
     | EmptyString => false
     | String _ body' => contains marker body'
     end.

(** [s.split("T")[0]]: the text before the first [T], all of [s] when it
    has none. *)
Fixpoint split_T_head (s : string) : string :=
  match s with
  | EmptyString => EmptyString
  | String c s' =>
      if Ascii.eqb c "T" then EmptyString else String c (split_T_head s')
  end.

(** ** JSON values and [json.dumps(_, indent=4)] *)

Inductive json : Type :=
| JNull
| JBool (b : bool)
| JInt (z : Z)
| JString (s : string)
| JList (items : list json)
| JDict (members : list (string * json)).

Definition quote : ascii := "034".
Definition backslash : ascii := "092".

Definition hex_digit (n : N) : ascii :=
  if (n <? 10)%N then ascii_of_N (48 + n) else ascii_of_N (87 + n).

(** *** Code points of a text *)

(** What [code_points] gives for bytes that encode no code point; no
    [str] has such a text. *)
Definition REPLACEMENT : N := 65533.

Definition continuation (c : ascii) : option N :=
  let n := N_of_ascii c in
  if ((128 <=? n) && (n <? 192))%N then Some (n - 128)%N else None.

Definition in_range (n : N) : N :=
  if (n <? 1114112)%N then n else REPLACEMENT.

(** The code points a text encodes, from one to four bytes each. *)
Fixpoint code_points (s : string) : list N :=
  match s with
  | EmptyString => []
  | String c r =>
      let n := N_of_ascii c in
      if (n <? 128)%N then n :: code_points r
      else if (n <? 192)%N then REPLACEMENT :: code_points r
      else if (n <? 224)%N then
        match r with
        | String c1 r1 =>
            match continuation c1 with
            | Some x1 => ((n - 192) * 64 + x1)%N :: code_points r1
            | None => REPLACEMENT :: code_points r
            end
        | EmptyString => REPLACEMENT :: code_points r
        end
      else if (n <? 240)%N then
        match r with
        | String c1 (String c2 r2) =>
            match continuation c1, continuation c2 with
            | Some x1, Some x2 =>
                (((n - 224) * 64 + x1) * 64 + x2)%N :: code_points r2
            | _, _ => REPLACEMENT :: code_points r
            end
        | _ => REPLACEMENT :: code_points r
        end
      else if (n <? 248)%N then
        match r with
        | String c1 (String c2 (String c3 r3)) =>
            match continuation c1, continuation c2, continuation c3 with
            | Some x1, Some x2, Some x3 =>
                in_range ((((n - 240) * 64 + x1) * 64 + x2) * 64 + x3)%N
                :: code_points r3
            | _, _, _ => REPLACEMENT :: code_points r
            end
        | _ => REPLACEMENT :: code_points r
        end
      else REPLACEMENT :: code_points r
  end.

(** The bytes that encode a code point. *)
Definition utf8_code (n : N) : string :=
  if (n <? 128)%N then String (ascii_of_N n) EmptyString
  else if (n <? 2048)%N then
    String (ascii_of_N (192 + n / 64))
      (String (ascii_of_N (128 + n mod 64)) EmptyString)
  else if (n <? 65536)%N then
    String (ascii_of_N (224 + n / 4096))
      (String (ascii_of_N (128 + (n / 64) mod 64))
         (String (ascii_of_N (128 + n mod 64)) EmptyString))
  else
    String (ascii_of_N (240 + n / 262144))
      (String (ascii_of_N (128 + (n / 4096) mod 64))
         (String (ascii_of_N (128 + (n / 64) mod 64))
            (String (ascii_of_N (128 + n mod 64)) EmptyString))).

Fixpoint utf8 (l : list N) : string :=
  match l with
  | [] => EmptyString
  | n :: l' => utf8_code n ++ utf8 l'
  end.

Definition is_high (n : N) : bool := ((55296 <=? n) && (n <? 56320))%N.
Definition is_low (n : N) : bool := ((56320 <=? n) && (n <? 57344))%N.

(** The code point a surrogate pair stands for. *)
Definition combine (hi lo : N) : N :=
  (65536 + (hi - 55296) * 1024 + (lo - 56320))%N.

(** *** [py_encode_basestring_ascii] *)

Definition hex4_text (n : N) : string :=
  String (hex_digit (n / 4096))
    (String (hex_digit ((n / 256) mod 16))
       (String (hex_digit ((n / 16) mod 16))
          (String (hex_digit (n mod 16)) EmptyString))).

Definition u_escape (n : N) : string :=
  String backslash (String "u" (hex4_text n)).

(** One code point: the seven short escapes, the character itself from
    [' '] to ['~'], [\uxxxx] for the rest of the first 65536 code points
    and a surrogate pair of two such escapes above them. *)
Definition escape_code (n : N) : string :=
  if (n =? 34)%N then String backslash (String quote EmptyString)
  else if (n =? 92)%N then String backslash (String backslash EmptyString)
  else if (n =? 8)%N then String backslash "b"
  else if (n =? 12)%N then String backslash "f"
  else if (n =? 10)%N then String backslash "n"
  else if (n =? 13)%N then String backslash "r"
  else if (n =? 9)%N then String backslash "t"
  else if ((32 <=? n) && (n <=? 126))%N then String (ascii_of_N n) EmptyString
  else if (n <? 65536)%N then u_escape n
  else
    let v := (n - 65536)%N in
    u_escape (55296 + v / 1024) ++ u_escape (56320 + v mod 1024).

Fixpoint escape_codes (l : list N) : string :=
  match l with
  | [] => EmptyString
  | n :: l' => escape_code n ++ escape_codes l'
  end.

Definition escape (s : string) : string := escape_codes (code_points s).

Definition encode_string (s : string) : string :=
  String quote (escape s ++ String quote EmptyString).

Fixpoint spaces (n : nat) : string :=
  match n with
  | O => EmptyString
  | S n' => String " " (spaces n')
  end.

(** The line break and indentation written before an item at nesting
    depth [level]. *)
Definition newline_indent (level : nat) : string :=
  nl ++ spaces (4 * level).

Fixpoint dumps_at (level : nat) (j : json) : string :=
  match j with
  | JNull => "null"
  | JBool true => "true"
  | JBool false => "false"
  | JInt z => str_int z
  | JString s => encode_string s
  | JList [] => "[]"
  | JList (x :: xs) =>
      "[" ++ newline_indent (S level) ++ dumps_at (S level) x
      ++ (fix more (l : list json) : string :=
            match l with
            | [] => EmptyString
            | y :: l' =>
                "," ++ newline_indent (S level) ++ dumps_at (S level) y
                ++ more l'
            end) xs
      ++ newline_indent level ++ "]"
  | JDict [] => "{}"
  | JDict ((k, v) :: kvs) =>
      "{" ++ newline_indent (S level) ++ encode_string k ++ ": "
      ++ dumps_at (S level) v
      ++ (fix more (l : list (string * json)) : string :=
            match l with
            | [] => EmptyString
            | (k', v') :: l' =>
                "," ++ newline_indent (S level) ++ encode_string k' ++ ": "
                ++ dumps_at (S level) v' ++ more l'
            end) kvs
      ++ newline_indent level ++ "}"
  end.

(** [json.dumps(j, indent=4)] *)
Definition dumps (j : json) : string := dumps_at 0 j.

(** ** Reading JSON text back

    A reader for JSON text (RFC 8259) restricted to integer numbers and to
    ASCII text, which is what [dumps] writes.  It is the yardstick for
    "valid JSON": a text is valid when [loads] accepts it.  As
    [json.loads] does, it reads a surrogate pair of escapes as one code
    point. *)

Definition is_ws (c : ascii) : bool :=
  let n := N_of_ascii c in
  ((n =? 32) || (n =? 10) || (n =? 13) || (n =? 9))%N.

Fixpoint skip_ws (s : string) : string :=
  match s with
  | EmptyString => EmptyString
  | String c s' => if is_ws c then skip_ws s' else s
  end.

Definition hex_value (c : ascii) : option N :=
  let n := N_of_ascii c in
  if ((48 <=? n) && (n <=? 57))%N then Some (n - 48)%N
  else if ((97 <=? n) && (n <=? 102))%N then Some (n - 87)%N
  else if ((65 <=? n) && (n <=? 70))%N then Some (n - 55)%N
  else None.

Definition hex4 (a b c d : ascii) : option N :=
  match hex_value a, hex_value b, hex_value c, hex_value d with
  | Some x, Some y, Some z, Some w => Some (((x * 16 + y) * 16 + z) * 16 + w)%N
  | _, _, _, _ => None
  end.

Definition unescape (e : ascii) : option ascii :=
  let n := N_of_ascii e in
  if (n =? 34)%N then Some quote
  else if (n =? 92)%N then Some backslash
  else if (n =? 47)%N then Some "/"%char
  else if (n =? 98)%N then Some "008"%char
  else if (n =? 102)%N then Some "012"%char
  else if (n =? 110)%N then Some "010"%char
  else if (n =? 114)%N then Some "013"%char
  else if (n =? 116)%N then Some "009"%char
  else None.

Definition consc (c : ascii) (r : option (string * string))
  : option (string * string) :=
  match r with
  | Some (s, rest) => Some (String c s, rest)
  | None => None
  end.

Definition conss (p : string) (r : option (string * string))
  : option (string * string) :=
  match r with
  | Some (s, rest) => Some (p ++ s, rest)
  | None => None
  end.

(** The low surrogate escape a text starts with, and what follows it. *)
Definition low_escape (s : string) : option (N * string) :=
  match s with
  | String b (String u s') =>
      if Ascii.eqb b backslash && Ascii.eqb u "u" then
        match s' with
        | String l1 (String l2 (String l3 (String l4 r))) =>
            match hex4 l1 l2 l3 l4 with
            | Some lo => if is_low lo then Some (lo, r) else None
            | None => None
            end
        | _ => None
        end
      else None
  | _ => None
  end.

(** The characters of a string literal after its opening quote, up to the
    closing quote. *)
Fixpoint parse_chars (s : string) : option (string * string) :=
  match s with
  | EmptyString => None
  | String c r =>
      if Ascii.eqb c quote then Some (EmptyString, r)
      else if Ascii.eqb c backslash then
        match r with
        | EmptyString => None
        | String e r' =>
            if Ascii.eqb e "u" then
              match r' with
              | String h1 (String h2 (String h3 (String h4 r''))) =>
                  match hex4 h1 h2 h3 h4 with
                  | Some code =>
                      if is_high code then
                        match r'' with
                        | String b (String u (String l1 (String l2
                            (String l3 (String l4 r3))))) =>
                            match low_escape r'' with
                            | Some (lo, _) =>
                                conss (utf8_code (combine code lo))
                                  (parse_chars r3)
                            | None =>
                                conss (utf8_code code) (parse_chars r'')
                            end
                        | _ => conss (utf8_code code) (parse_chars r'')
                        end
                      else conss (utf8_code code) (parse_chars r'')
                  | None => None
                  end
              | _ => None
              end
            else
              match unescape e with
              | Some c' => consc c' (parse_chars r')
              | None => None
              end
        end
      else if (N_of_ascii c <? 32)%N || (127 <? N_of_ascii c)%N then None
      else consc c (parse_chars r)
  end.

(** What the reader makes of the escaped form of a list of code points:
    the list itself, but for a high surrogate directly followed by a low
    one, which come back as the one code point of the pair. *)
Fixpoint pair_up (l : list N) : list N :=
  match l with
  | [] => []
  | c :: l' =>
      match l' with
      | lo :: l'' =>
          if is_high c && is_low lo then combine c lo :: pair_up l''
          else c :: pair_up l'
      | [] => [c]
      end
  end.

Definition reread (s : string) : string := utf8 (pair_up (code_points s)).

(** A JSON value as the reader gives it back. *)
Fixpoint reread_json (j : json) : json :=
  match j with
  | JString s => JString (reread s)
  | JList items => JList (map reread_json items)
  | JDict members =>
      JDict (map (fun kv => (reread (fst kv), reread_json (snd kv))) members)
  | _ => j
  end.

(** A text that comes back as it is. *)
Definition faithful (s : string) : bool := String.eqb (reread s) s.

Definition is_digit (c : ascii) : bool :=
  let n := N_of_ascii c in ((48 <=? n) && (n <=? 57))%N.

Fixpoint span_digits (s : string) : string * string :=
  match s with
  | EmptyString => (EmptyString, EmptyString)
  | String c s' =>
      if is_digit c
      then let (ds, rest) := span_digits s' in (String c ds, rest)
      else (EmptyString, s)
  end.

(** The character after a number may not continue it as a fraction or an
    exponent. *)
Definition ends_integer (rest : string) : bool :=
  match rest with
  | EmptyString => true
  | String c _ =>
      negb (Ascii.eqb c "." || Ascii.eqb c "e" || Ascii.eqb c "E")
  end.

(** No leading zero: the digits are [0] alone or start with [1]..[9]. *)
Definition no_leading_zero (ds : string) : bool :=
  match ds with
  | String c (String _ _) => negb (Ascii.eqb c "0")
  | _ => true
  end.

Definition parse_int (s : string) : option (Z * string) :=
  let (sign, s1) :=
    match s with
    | String c r => if Ascii.eqb c "-" then ("-", r) else (EmptyString, s)
    | EmptyString => (EmptyString, s)
    end in
  let (ds, rest) := span_digits s1 in
  if no_leading_zero ds && ends_integer rest then
    match DecimalString.NilZero.int_of_string (sign ++ ds) with
    | Some d => Some (Z.of_int d, rest)
    | None => None
    end
  else None.

Fixpoint strip_prefix (p s : string) : option string :=
  match p with
  | EmptyString => Some s
  | String c p' =>
      match s with
      | String c' s' => if Ascii.eqb c c' then strip_prefix p' s' else None
      | EmptyString => None
      end
  end.

Definition tagged {A B : Type} (f : A -> B) (r : option (A * string))
  : option (B * string) :=
  match r with
  | Some (a, rest) => Some (f a, rest)
  | None => None
  end.

Section Composite.

(** The reader of one value, for the items of arrays and objects. *)
Variable parse_item : string -> option (json * string).

(** The items of a non-empty array, after its opening bracket. *)
Fixpoint parse_elements (n : nat) (s : string)
  : option (list json * string) :=
  match n with
  | O => None
  | S n' =>
      match parse_item s with
      | None => None
      | Some (v, r) =>
          match skip_ws r with
          | EmptyString => None
          | String c r' =>
              if Ascii.eqb c "," then tagged (cons v) (parse_elements n' r')
              else if Ascii.eqb c "]" then Some ([v], r')
              else None
          end
      end
  end.

(** The members of a non-empty object, after its opening brace. *)
Fixpoint parse_members (n : nat) (s : string)
  : option (list (string * json) * string) :=
  match n with
  | O => None
  | S n' =>
      match skip_ws s with
      | EmptyString => None
      | String q r =>
          if Ascii.eqb q quote then
            match parse_chars r with
            | None => None
            | Some (k, r1) =>
                match skip_ws r1 with
                | EmptyString => None
                | String c r2 =>
                    if Ascii.eqb c ":" then
                      match parse_item r2 with
                      | None => None
                      | Some (v, r3) =>
                          match skip_ws r3 with
                          | EmptyString => None
                          | String d r4 =>
                              if Ascii.eqb d ","
                              then tagged (cons (k, v)) (parse_members n' r4)
                              else if Ascii.eqb d "}" then Some ([(k, v)], r4)
                              else None
                          end
                      end
                    else None
                end
            end
          else None
      end
  end.

End Composite.

Definition literal (p : string) (v : json) (s : string)
  : option (json * string) :=
  match strip_prefix p s with
  | Some rest => Some (v, rest)
  | None => None
  end.

Definition starts_with (c : ascii) (s : string) : bool :=
  match s with
  | String c' _ => Ascii.eqb c c'
  | EmptyString => false
  end.

Fixpoint parse_value (fuel : nat) (s : string) : option (json * string) :=
  match fuel with
  | O => None
  | S fuel' =>
      match skip_ws s with
      | EmptyString => None
      | String c r =>
          if Ascii.eqb c quote then tagged JString (parse_chars r)
          else if Ascii.eqb c "[" then
            if starts_with "]" (skip_ws r)
            then literal "]" (JList []) (skip_ws r)
            else tagged JList
                   (parse_elements (parse_value fuel') (String.length r) r)
          else if Ascii.eqb c "{" then
            if starts_with "}" (skip_ws r)
            then literal "}" (JDict []) (skip_ws r)
            else tagged JDict
                   (parse_members (parse_value fuel') (String.length r) r)
          else if Ascii.eqb c "n" then
            literal "ull" JNull r
          else if Ascii.eqb c "t" then
            literal "rue" (JBool true) r
          else if Ascii.eqb c "f" then
            literal "alse" (JBool false) r
          else tagged JInt (parse_int (String c r))
      end
  end.

(** [json.loads]: one value, then nothing but white space. *)
Definition loads (s : string) : option json :=
  match parse_value (String.length s) s with
  | Some (v, rest) =>
      match skip_ws rest with
      | EmptyString => Some v
      | String _ _ => None
      end
  | None => None
  end.

(** The keys of a JSON object, in order. *)
Definition keys (j : json) : option (list string) :=
  match j with
  | JDict members => Some (map fst members)
  | _ => None
  end.

Definition documented_fields : list string :=
  [ "repo"; "pr_number"; "title"; "author"; "commenter"; "comment_body";
    "merged_at"; "url" ]%list.

(** A text that cannot continue a run of digits. *)
Definition stops_digits (t : string) : Prop := span_digits t = (EmptyString, t).

(** The text [dumps_at] writes after the first item of an array and after
    the first member of an object. *)
Fixpoint more_items (level : nat) (l : list json) : string :=
  match l with
  | [] => EmptyString
  | y :: l' =>
      "," ++ newline_indent level ++ dumps_at level y ++ more_items level l'
  end.

Fixpoint more_members (level : nat) (l : list (string * json)) : string :=
  match l with
  | [] => EmptyString
  | (k, v) :: l' =>
      "," ++ newline_indent level ++ encode_string k ++ ": "
      ++ dumps_at level v ++ more_members level l'
  end.

Definition scalar (j : json) : Prop :=
  match j with
  | JNull | JInt _ | JString _ => True
  | _ => False
  end.

Definition delimited (t : string) : Prop :=
  stops_digits t /\ ends_integer t = true.

(** ** The comment scan and the report of [main] *)

(** The dictionaries appended to [force_merged_prs] (lines 104-113). *)
Record ForceMergeRecord : Type := mkForceMergeRecord {
  fm_repo : string;
  fm_pr_number : Z;
  fm_title : string;
  fm_author : string;
  fm_commenter : string;
  fm_comment_body : string;
  fm_merged_at : option string;
  fm_url : string
}.

Definition json_of_optional (o : option string) : json :=
  match o with
  | Some s => JString s
  | None => JNull
  end.

(** A record as the JSON encoder sees it: the eight keys in insertion
    order. *)
Definition json_of_record (r : ForceMergeRecord) : json :=
  JDict [ ("repo", JString (fm_repo r));
          ("pr_number", JInt (fm_pr_number r));
          ("title", JString (fm_title r));
          ("author", JString (fm_author r));
          ("commenter", JString (fm_commenter r));
          ("comment_body", JString (fm_comment_body r));
          ("merged_at", json_of_optional (fm_merged_at r));
          ("url", JString (fm_url r)) ].

(** The locals of [main] that the scan changes, and the pull request
    numbers whose comments were requested.  [pr_merged_at_var] is [None]
    while the name is unbound. *)
Record scan_state : Type := mkscan_state {
  force_merged_prs : list ForceMergeRecord;
  pr_merged_at_var : option (option string);
  comments_requested : list Z
}.

Section Scan.

Variable repo : string.
(** The issue-comments endpoint, by pull request number. *)
Variable comments_api : Z -> response (list Comment).

Definition record_of (pr : PullRequest) (comment : Comment)
  : ForceMergeRecord :=
  mkForceMergeRecord repo (pr_number pr) (pr_title pr) (pr_user_login pr)
    (comment_user_login comment) (comment_body comment)
    (pr_merged_at pr) (pr_html_url pr).

(** The test of line 103. *)
Definition marked (comment : Comment) : bool :=
  contains "FORCE_MERGE" (comment_body comment).

(** What [get_comments] returns for a pull request, nothing when the
    request fails. *)
Definition comments_of (pr : PullRequest) : list Comment :=
  match comments_api (pr_number pr) with
  | Status_ok comments => comments
  | Status_error => []%list
  end.

(** [for comment in comments] (lines 102-113) *)
Fixpoint scan_comments (pr : PullRequest) (comments : list Comment)
  (acc : list ForceMergeRecord) : list ForceMergeRecord :=
  match comments with
  | [] => acc
  | comment :: comments' =>
      if contains "FORCE_MERGE" (comment_body comment)
      then scan_comments pr comments' (acc ++ [record_of pr comment])%list
      else scan_comments pr comments' acc
  end.

(** [for pr in merged_prs] (lines 96-113).  The state is handed back
    also when [get_comments] raises. *)
Fixpoint scan_prs (merged_prs : list PullRequest) (st : scan_state)
  : scan_state * option exn :=
  match merged_prs with
  | [] => (st, None)
  | pr :: merged_prs' =>
      let requested := (comments_requested st ++ [pr_number pr])%list in
      match raise_for_status (comments_api (pr_number pr)) with
      | Raise e =>
          (mkscan_state (force_merged_prs st) (Some (pr_merged_at pr))
             requested, Some e)
      | Ok comments =>
          scan_prs merged_prs'
            (mkscan_state
               (scan_comments pr comments (force_merged_prs st))
               (Some (pr_merged_at pr)) requested)
      end
  end.

Definition scan (merged_prs : list PullRequest) : scan_state * option exn :=
  scan_prs merged_prs (mkscan_state [] None []).

End Scan.

(** The three [print] calls of the text loop for one record, given the
    date text computed on line 120. *)
Definition text_block (date : string) (pr : ForceMergeRecord) : string :=
  (fm_repo pr ++ "#" ++ str_int (fm_pr_number pr) ++ ": " ++ fm_author pr
     ++ " - " ++ fm_title pr ++ " @ " ++ date ++ nl)
  ++ ("Comment by " ++ fm_commenter pr ++ ": " ++ fm_comment_body pr ++ nl)
  ++ ("URL: " ++ fm_url pr ++ nl ++ nl).

(** Lines 118-123: the text written, and the exception that ended the
    loop if one did.  The date is taken from the local [pr_merged_at] of
    the scan. *)
Fixpoint text_loop (pr_merged_at : option (option string))
  (records : list ForceMergeRecord) : string * option exn :=
  match records with
  | [] => (EmptyString, None)
  | pr :: records' =>
      match pr_merged_at with
      | None => (EmptyString, Some UnboundLocalError)
      | Some None => (EmptyString, Some AttributeError)
      | Some (Some s) =>
          let formatted_pr_merged_date := split_T_head s in
          let (out, e) := text_loop pr_merged_at records' in
          (text_block formatted_pr_merged_date pr ++ out, e)
      end
  end.

Definition report_text (st : scan_state) : string * option exn :=
  let (out, e) := text_loop (pr_merged_at_var st) (force_merged_prs st) in
  (nl ++ "Force-Merged PRs:" ++ nl ++ out, e).

Definition report_json (st : scan_state) : string :=
  dumps (JList (map json_of_record (force_merged_prs st))) ++ nl.

(** A record whose texts the JSON reader gives back as they are. *)
Definition faithful_record (r : ForceMergeRecord) : bool :=
  faithful (fm_repo r) && faithful (fm_title r) && faithful (fm_author r)
  && faithful (fm_commenter r) && faithful (fm_comment_body r)
  && match fm_merged_at r with
     | Some s => faithful s
     | None => true
     end
  && faithful (fm_url r).

(** How [main] ends, what it wrote to standard output, and the requests
    it made. *)
Inductive status : Type :=
| Finished
| Failed (e : exn)
| Unfinished.

Record main_run : Type := mkmain_run {
  run_status : status;
  stdout : string;
  pages_requested : list nat;
  run_scan : scan_state
}.

Section Main.

Variable strptime : string -> option datetime.
Variable api : nat -> response (list PullRequest).
Variable comments_api : Z -> response (list Comment).

Definition main (fuel : nat) (repo : string) (start_date : datetime)
  (end_date : option datetime) (output_json : bool) : main_run :=
  let nothing := mkscan_state [] None [] in
  match calculate_enddate_if_needed start_date end_date with
  | Raise e => mkmain_run (Failed e) EmptyString [] nothing
  | Ok end_date =>
      match get_merged_prs strptime api start_date end_date fuel with
      | (Raised e, pages) => mkmain_run (Failed e) EmptyString pages nothing
      | (OutOfFuel, pages) => mkmain_run Unfinished EmptyString pages nothing
      | (Returned merged_prs, pages) =>
          match scan repo comments_api merged_prs with
          | (st, Some e) => mkmain_run (Failed e) EmptyString pages st
          | (st, None) =>
              if output_json
              then mkmain_run Finished (report_json st) pages st
              else
                let (out, e) := report_text st in
                mkmain_run
                  (match e with Some e => Failed e | None => Finished end)
                  out pages st
          end
      end
  end.

End Main.

Local Open Scope Z_scope.
Local Open Scope list_scope.

(** ** The program with its [verbose] flag

    [get_merged_prs] and [main] above are the program with [verbose] off.
    Here is the program with the flag: the same statements, and the
    progress lines of lines 42-43, 47-48, 90-91 and 94-95, which [print]
    writes to standard output like the report. *)

(** [str(n)] on the given width, as [%02d] and [%04d] write a number that
    is not negative. *)
Fixpoint zeros (n : nat) : string :=
  match n with
  | O => EmptyString
  | S n' => String "0" (zeros n')
  end.

Definition zero_pad (width : nat) (z : Z) : string :=
  (zeros (width - String.length (str_int z)) ++ str_int z)%string.

(** [str(d)] for a naive [datetime]: [isoformat(sep=' ')], the
    microseconds written only when they are not zero. *)
Definition str_datetime (d : datetime) : string :=
  (zero_pad 4 (year d) ++ "-" ++ zero_pad 2 (month d) ++ "-"
   ++ zero_pad 2 (day d) ++ " " ++ zero_pad 2 (hour d) ++ ":"
   ++ zero_pad 2 (minute d) ++ ":" ++ zero_pad 2 (second d)
   ++ (if (microsecond d =? 0)%Z then EmptyString
       else "." ++ zero_pad 6 (microsecond d)))%string.

Module Verbose.

Local Open Scope string_scope.

(** A computation that may raise and that writes to standard output: its
    result and the text written, which stays written when it raises. *)
Definition printing (A : Type) : Type := (result A * string)%type.

Definition ret {A : Type} (a : A) : printing A := (Ok a, EmptyString).

Definition raise {A : Type} (e : exn) : printing A := (Raise e, EmptyString).

Definition bind_printing {A B : Type} (m : printing A) (k : A -> printing B)
  : printing B :=
  match m with
  | (Ok a, out) => let (r, out') := k a in (r, out ++ out')
  | (Raise e, out) => (Raise e, out)
  end.

Local Notation "x <~ r ;; k" := (bind_printing r (fun x => k))
  (at level 61, r at next level, right associativity).
Local Notation "r ;;; k" := (bind_printing r (fun _ => k))
  (at level 61, right associativity).

Section Program.

Variable strptime : string -> option datetime.
Variable api : nat -> response (list PullRequest).
Variable comments_api : Z -> response (list Comment).
Variable verbose : bool.

(** What [if verbose: print(s)] writes. *)
Definition line (s : string) : string :=
  if verbose then s ++ nl else EmptyString.

Definition say (s : string) : printing unit := (Ok tt, line s).

Section Fetch.

Variables start_date end_date : datetime.

(** The text of lines 43 and 48. *)
Definition decision (word : string) (pr : PullRequest) (merged_at : datetime)
  : string :=
  word ++ " PR " ++ str_int (pr_number pr) ++ " for "
  ++ str_datetime start_date ++ " <= " ++ str_datetime merged_at ++ " <= "
  ++ str_datetime end_date.

(** The body of [for pr in data] (lines 38-51). *)
Definition for_body (st : locals) (pr : PullRequest) : printing locals :=
  st1 <~ match truthy (pr_merged_at pr) with
         | Some s =>
             match strptime s with
             | None => raise ValueError
             | Some m =>
                 if within start_date end_date m
                 then say (decision "Adding" pr m) ;;;
                      ret (mklocals (prs st ++ [pr]) (Some m)
                             (shouldContinue st))
                 else say (decision "Skipping" pr m) ;;;
                      ret (mklocals (prs st) (Some m) (shouldContinue st))
             end
         | None => ret st
         end ;;
  match merged_at st1 with
  | None => raise UnboundLocalError
  | Some m =>
      if datetime_ltb m start_date
      then ret (mklocals (prs st1) (merged_at st1) false)
      else ret st1
  end.

Fixpoint for_loop (data : list PullRequest) (st : locals) : printing locals :=
  match data with
  | [] => ret st
  | pr :: data' => st' <~ for_body st pr ;; for_loop data' st'
  end.

(** The [while shouldContinue] loop: how it ends, the pages requested and
    the text written. *)
Fixpoint while_loop (fuel : nat) (page : nat) (st : locals)
  : outcome * list nat * string :=
  if shouldContinue st then
    match fuel with
    | O => (OutOfFuel, [], EmptyString)
    | S fuel' =>
        match raise_for_status (api page) with
        | Raise e => (Raised e, [page], EmptyString)
        | Ok [] => (Returned (prs st), [page], EmptyString)
        | Ok data =>
            match for_loop data st with
            | (Raise e, out) => (Raised e, [page], out)
            | (Ok st', out) =>
                let '(o, pages, out') := while_loop fuel' (page + 1) st' in
                (o, page :: pages, out ++ out')
            end
        end
    end
  else (Returned (prs st), [], EmptyString).

Definition get_merged_prs (fuel : nat) : outcome * list nat * string :=
  while_loop fuel 1%nat (mklocals [] None true).

End Fetch.

(** The text of line 91. *)
Definition fetching (repo : string) (start_date end_date : datetime)
  : string :=
  "Fetching merged PRs for repository " ++ repo ++ " from "
  ++ str_datetime start_date ++ " to " ++ str_datetime end_date ++ "...".

(** The text of line 95. *)
Definition scanning (merged_prs : list PullRequest) : string :=
  "Scanning " ++ str_int (Z.of_nat (List.length merged_prs))
  ++ " merged PRs for FORCE_MERGE comments...".

Definition main (fuel : nat) (repo : string) (start_date : datetime)
  (end_date : option datetime) (output_json : bool) : main_run :=
  let nothing := mkscan_state [] None [] in
  match calculate_enddate_if_needed start_date end_date with
  | Raise e => mkmain_run (Failed e) EmptyString [] nothing
  | Ok end_date =>
      let out1 := line (fetching repo start_date end_date) in
      match get_merged_prs start_date end_date fuel with
      | (Raised e, pages, out2) =>
          mkmain_run (Failed e) (out1 ++ out2) pages nothing
      | (OutOfFuel, pages, out2) =>
          mkmain_run Unfinished (out1 ++ out2) pages nothing
      | (Returned merged_prs, pages, out2) =>
          let out3 := line (scanning merged_prs) in
          match scan repo comments_api merged_prs with
          | (st, Some e) =>
              mkmain_run (Failed e) (out1 ++ out2 ++ out3) pages st
          | (st, None) =>
              if output_json
              then mkmain_run Finished
                     (out1 ++ out2 ++ out3 ++ report_json st) pages st
              else
                let (out, e) := report_text st in
                mkmain_run
                  (match e with Some e => Failed e | None => Finished end)
                  (out1 ++ out2 ++ out3 ++ out) pages st
          end
      end
  end.

(** The progress lines of a run: what it writes before the report. *)
Definition progress (fuel : nat) (repo : string) (start_date : datetime)
  (end_date : option datetime) : string :=
  match calculate_enddate_if_needed start_date end_date with
  | Raise _ => EmptyString
  | Ok end_date =>
      let '(o, _, out2) := get_merged_prs start_date end_date fuel in
      line (fetching repo start_date end_date) ++ out2
      ++ match o with
         | Returned merged_prs => line (scanning merged_prs)
         | _ => EmptyString
         end
  end.

End Program.

End Verbose.

(** A pull request whose merge timestamp parses and lies in the window. *)
Definition merged_within (strptime : string -> option datetime)
  (start_date end_date : datetime) (pr : PullRequest) : Prop :=
  exists s m, pr_merged_at pr = Some s /\ strptime s = Some m
              /\ datetime_leb start_date m = true
              /\ datetime_leb m end_date = true.

(** ** Data for the worked examples *)

(** A parser for the one timestamp form the platform emits,
    [YYYY-MM-DDTHH:MM:SSZ] with fixed-width fields; it stands for
    [strptime] in the examples. *)
Definition digit (c : ascii) : option Z :=
  let n := Z.of_N (N_of_ascii c) in
  if (48 <=? n) && (n <=? 57) then Some (n - 48) else None.

Fixpoint digits (k : nat) (acc : Z) (s : string) : option (Z * string) :=
  match k with
  | O => Some (acc, s)
  | S k' =>
      match s with
      | String c s' =>
          match digit c with
          | Some d => digits k' (10 * acc + d) s'
          | None => None
          end
      | EmptyString => None
      end
  end.

Definition expect (c : ascii) (s : string) : option string :=
  match s with
  | String c' s' => if Ascii.eqb c c' then Some s' else None
  | EmptyString => None
  end.

Definition field (k : nat) (sep : ascii) (s : string) : option (Z * string) :=
  match digits k 0 s with
  | Some (v, s') =>
      match expect sep s' with
      | Some s'' => Some (v, s'')
      | None => None
      end
  | None => None
  end.

Definition strptime_fixed (s : string) : option datetime :=
  match field 4 "-" s with None => None | Some (y, s) =>
  match field 2 "-" s with None => None | Some (m, s) =>
  match field 2 "T" s with None => None | Some (d, s) =>
  match field 2 ":" s with None => None | Some (h, s) =>
  match field 2 ":" s with None => None | Some (mi, s) =>
  match field 2 "Z" s with None => None | Some (sec, s) =>
    let dt := mkdatetime y m d h mi sec 0 in
    if String.eqb s EmptyString && valid_datetime dt then Some dt else None
  end end end end end end.

Definition march_1 : datetime := mkdatetime 2024 3 1 0 0 0 0.
Definition march_31 : datetime := mkdatetime 2024 3 31 23 59 59 999999.

Definition pr_march (n : Z) : PullRequest :=
  mkPullRequest n "Fix widget" "alice" (Some "2024-03-15T12:00:00Z")
    "https://github.com/acme/widgets/pull".
Definition pr_february : PullRequest :=
  mkPullRequest 7 "Old change" "carol" (Some "2024-02-10T08:30:00Z")
    "https://github.com/acme/widgets/pull/7".
Definition pr_unmerged : PullRequest :=
  mkPullRequest 9 "Abandoned" "dave" None
    "https://github.com/acme/widgets/pull/9".

Definition pr_march_20 : PullRequest :=
  mkPullRequest 43 "Add gadget" "erin" (Some "2024-03-20T09:00:00Z")
    "https://github.com/acme/widgets/pull/43".
Definition pr_april : PullRequest :=
  mkPullRequest 50 "Later change" "frank" (Some "2024-04-02T10:00:00Z")
    "https://github.com/acme/widgets/pull/50".

Definition hundred : list PullRequest :=
  map (fun i => pr_march (Z.of_nat i)) (seq 1 100).

(** The comments of the repository of the examples: one marked comment and
    one in lower case on pull request 42, none elsewhere. *)
Definition widgets_comments (n : Z) : response (list Comment) :=
  if n =? 42
  then Status_ok [ mkComment "bob" "FORCE_MERGE: ci flaky";
                   mkComment "eve" "force_merge" ]
  else Status_ok [].

(** An API whose second page request fails, and comments whose request
    fails for pull request 43. *)
Definition api_failing (page : nat) : response (list PullRequest) :=
  match page with
  | 1%nat => Status_ok [pr_march 1]
  | _ => Status_error
  end.

Definition comments_failing (n : Z) : response (list Comment) :=
  if n =? 43 then Status_error else widgets_comments n.

(** A parser for dates written [YYYY-MM-DD] with fixed-width fields; it
    stands for [strptime] with the format of the command line. *)
Definition strptime_date_fixed (s : string) : option datetime :=
  match field 4 "-" s with None => None | Some (y, s) =>
  match field 2 "-" s with None => None | Some (m, s) =>
  match digits 2 0 s with None => None | Some (d, s) =>
    let dt := mkdatetime y m d 0 0 0 0 in
    if String.eqb s EmptyString && valid_datetime dt then Some dt else None
  end end end.

(** An API with the given pages, numbered from 1, and empty pages after. *)
Definition api_of (pages : list (list PullRequest)) (page : nat)
  : response (list PullRequest) :=
  match page with
  | O => Status_ok []
  | S k => Status_ok (nth k pages [])
  end.

(** Text beyond ASCII: a euro sign (U+20AC) in a title, a face (U+1F600)
    in a comment. *)
Definition euro : string := utf8 [8364%N].
Definition grinning : string := utf8 [128512%N].

Definition pr_euro : PullRequest :=
  mkPullRequest 44 ("Price in " ++ euro)%string "alice"
    (Some "2024-03-15T12:00:00Z") "https://github.com/acme/widgets/pull/44".

Definition euro_comments (n : Z) : response (list Comment) :=
  Status_ok [ mkComment "bob" ("FORCE_MERGE " ++ grinning)%string ].

(** ** The command line (lines 125-139) *)

(** [dt.replace(hour=0, minute=0, second=0, microsecond=0)] *)
Definition replace_midnight (dt : datetime) : result datetime :=
  let r := mkdatetime (year dt) (month dt) (day dt) 0 0 0 0 in
  if valid_datetime r then Ok r else Raise ValueError.

Section CommandLine.

(** [datetime.datetime.strptime(_, "%Y-%m-%d")]; [None] is the
    [ValueError] that argparse reports as a usage error. *)
Variable strptime_date : string -> option datetime.

(** The [type] of [--startdate] (line 128). *)
Definition startdate_type (d : string) : result datetime :=
  match strptime_date d with
  | None => Raise ValueError
  | Some dt => replace_midnight dt
  end.

(** The [type] of [--enddate] (line 131). *)
Definition enddate_type (d : string) : result datetime :=
  match strptime_date d with
  | None => Raise ValueError
  | Some dt => replace_end dt
  end.

End CommandLine.

(** The [default] of [--startdate] (line 129), with [now] for
    [datetime.datetime.now()]. *)
Definition startdate_default (now : datetime) : result datetime :=
  shifted <- add_days now (-30) ;; replace_midnight shifted.

(** One calendar date strictly before another. *)
Definition date_before (a b : Z * Z * Z) : Prop :=
  let '(ya, ma, da) := a in
  let '(yb, mb, db) := b in
  ya < yb \/ (ya = yb /\ (ma < mb \/ (ma = mb /\ da < db))).

(** * Properties *)

(** ** Order on datetimes *)

Lemma lex_opp (c k : comparison) : CompOpp (lex c k) = lex (CompOpp c) (CompOpp k).
Proof. destruct c; reflexivity. Qed.

Lemma datetime_cmp_antisym (a b : datetime) :
  datetime_cmp b a = CompOpp (datetime_cmp a b).
Proof.
  unfold datetime_cmp. rewrite !lex_opp, <- !Z.compare_antisym. reflexivity.
Qed.

Lemma datetime_ltb_not_leb (a b : datetime) :
  datetime_ltb a b = true -> datetime_leb b a = false.
Proof.
  unfold datetime_ltb, datetime_leb. rewrite (datetime_cmp_antisym a b).
  destruct (datetime_cmp a b); simpl; congruence.
Qed.

Lemma datetime_leb_not_ltb (a b : datetime) :
  datetime_leb a b = true -> datetime_ltb b a = false.
Proof.
  intros H. destruct (datetime_ltb b a) eqn:E; [|reflexivity].
  apply datetime_ltb_not_leb in E. congruence.
Qed.

(** ** The pull-request fetcher *)

Section FetcherFacts.

Variable strptime : string -> option datetime.
Variable api : nat -> response (list PullRequest).
Variables start_date end_date : datetime.

Local Abbreviation within := (within start_date end_date).
Local Abbreviation for_body := (for_body strptime start_date end_date).
Local Abbreviation for_loop := (for_loop strptime start_date end_date).
Local Abbreviation while_loop := (while_loop strptime api start_date end_date).
Local Abbreviation get_merged_prs := (get_merged_prs strptime api start_date end_date).
Local Abbreviation in_window := (in_window strptime start_date end_date).
Local Abbreviation reachable := (reachable strptime start_date end_date).
Local Abbreviation well_formed := (well_formed strptime).
Local Abbreviation data_of := (data_of api).

Lemma within_not_before (m : datetime) :
  within m = true -> datetime_ltb m start_date = false.
Proof.
  unfold within. intros H. apply andb_true_iff in H as [H _].
  now apply datetime_leb_not_ltb.
Qed.

Lemma before_not_within (m : datetime) :
  datetime_ltb m start_date = true -> within m = false.
Proof.
  intros H. unfold within.
  now rewrite (datetime_ltb_not_leb _ _ H).
Qed.

(** *** One item *)

Lemma for_body_kept st pr :
  in_window pr = true ->
  exists m, for_body st pr
            = Ok (mklocals (prs st ++ [pr]) (Some m) (shouldContinue st)).
Proof.
  unfold in_window, for_body. intros H.
  destruct (truthy (pr_merged_at pr)) as [s|]; [|discriminate].
  destruct (strptime s) as [m|]; [|discriminate].
  exists m. rewrite H. simpl. now rewrite (within_not_before _ H).
Qed.

Lemma for_body_early st pr s m :
  truthy (pr_merged_at pr) = Some s -> strptime s = Some m ->
  datetime_ltb m start_date = true ->
  for_body st pr = Ok (mklocals (prs st) (Some m) false).
Proof.
  intros Ht Hs Hm. unfold for_body.
  rewrite Ht, Hs, (before_not_within _ Hm). simpl. now rewrite Hm.
Qed.

Lemma for_body_late st pr s m :
  truthy (pr_merged_at pr) = Some s -> strptime s = Some m ->
  within m = false -> datetime_ltb m start_date = false ->
  for_body st pr = Ok (mklocals (prs st) (Some m) (shouldContinue st)).
Proof.
  intros Ht Hs Hw Hm. unfold for_body.
  rewrite Ht, Hs, Hw. simpl. now rewrite Hm.
Qed.

Lemma for_body_unmerged st pr :
  truthy (pr_merged_at pr) = None ->
  for_body st pr =
    match merged_at st with
    | None => Raise UnboundLocalError
    | Some m => if datetime_ltb m start_date
                then Ok (mklocals (prs st) (merged_at st) false)
                else Ok st
    end.
Proof. intros Ht. unfold for_body. now rewrite Ht. Qed.

(** What one iteration does to the three locals, whatever the item. *)
Lemma for_body_inv st pr st' :
  for_body st pr = Ok st' ->
  prs st' = prs st ++ filter in_window [pr]
  /\ merged_at st' <> None
  /\ (shouldContinue st = false -> shouldContinue st' = false)
  /\ (forall m, merged_at st' = Some m -> datetime_ltb m start_date = true ->
                shouldContinue st' = false).
Proof.
  unfold for_body, in_window. simpl.
  destruct (truthy (pr_merged_at pr)) as [s|].
  - destruct (strptime s) as [m|]; simpl; [|discriminate].
    destruct (within m) eqn:W; simpl;
      destruct (datetime_ltb m start_date) eqn:L; intros [= <-]; simpl;
      rewrite ?app_nil_r; repeat split; try congruence.
  - simpl. destruct (merged_at st) as [m|] eqn:M; [|discriminate].
    destruct (datetime_ltb m start_date) eqn:L; intros [= <-]; simpl;
      rewrite ?app_nil_r, ?M; repeat split; try congruence.
Qed.

Lemma reachable_flag st :
  reachable st ->
  forall m, merged_at st = Some m -> datetime_ltb m start_date = true ->
            shouldContinue st = false.
Proof.
  induction 1 as [|st pr st' _ _ Hb]; simpl; [discriminate|].
  apply (for_body_inv _ _ _ Hb).
Qed.

(** *** One page *)

Lemma for_loop_app a b st :
  for_loop (a ++ b) st = (st' <- for_loop a st ;; for_loop b st').
Proof.
  revert st. induction a as [|pr a IH]; intros st; simpl; [reflexivity|].
  destruct (for_body st pr); simpl; auto.
Qed.

Lemma for_loop_inv data st st' :
  for_loop data st = Ok st' ->
  prs st' = prs st ++ filter in_window data
  /\ (shouldContinue st = false -> shouldContinue st' = false)
  /\ (data <> [] -> merged_at st' <> None).
Proof.
  revert st. induction data as [|pr data IH]; intros st; simpl.
  - intros [= <-]. rewrite app_nil_r. repeat split; congruence.
  - destruct (for_body st pr) as [st1|] eqn:B; simpl; [|discriminate].
    intros H. destruct (for_body_inv _ _ _ B) as (P1 & M1 & F1 & _).
    destruct (IH _ H) as (P2 & F2 & M2).
    repeat split.
    + rewrite P2, P1. simpl. destruct (in_window pr); simpl;
        now rewrite <- ?app_assoc.
    + auto.
    + intros _. destruct data as [|pr' data]; [|apply M2; discriminate].
      simpl in H. now injection H as <-.
Qed.

Lemma for_loop_trigger data st st' pr s m :
  for_loop data st = Ok st' ->
  In pr data -> truthy (pr_merged_at pr) = Some s -> strptime s = Some m ->
  datetime_ltb m start_date = true ->
  shouldContinue st' = false.
Proof.
  revert st. induction data as [|pr0 data IH]; intros st H Hin Ht Hs Hm;
    [contradiction|].
  simpl in H. destruct (for_body st pr0) as [st1|] eqn:B; simpl in H;
    [|discriminate].
  destruct Hin as [->|Hin].
  - rewrite (for_body_early st pr s m Ht Hs Hm) in B. injection B as <-.
    now apply (for_loop_inv _ _ _ H).
  - eapply IH; eauto.
Qed.

(** A page of kept items only: all are appended, the flag stays. *)
Lemma for_loop_all_kept data st :
  Forall (fun pr => in_window pr = true) data ->
  exists st', for_loop data st = Ok st'
              /\ prs st' = prs st ++ data
              /\ shouldContinue st' = shouldContinue st.
Proof.
  intros H. revert st. induction H as [|pr data Hpr _ IH]; intros st; simpl.
  - exists st. now rewrite app_nil_r.
  - destruct (for_body_kept st pr Hpr) as [m ->]. simpl.
    destruct (IH (mklocals (prs st ++ [pr]) (Some m) (shouldContinue st)))
      as (st' & -> & P & F).
    exists st'. simpl in P, F. now rewrite P, <- app_assoc.
Qed.

(** Once [merged_at] is bound, a page of parseable items runs to its
    end. *)
Lemma for_loop_bound_runs data st :
  merged_at st <> None -> well_formed data ->
  exists st', for_loop data st = Ok st'.
Proof.
  revert st. induction data as [|pr data IH]; intros st M W; simpl;
    [now exists st|].
  assert (B : exists st1, for_body st pr = Ok st1).
  { unfold for_body.
    destruct (truthy (pr_merged_at pr)) as [s|] eqn:T.
    - destruct (strptime s) as [m|] eqn:S.
      + destruct (within m); simpl;
          destruct (datetime_ltb m start_date); eauto.
      + exfalso. apply (W pr s); simpl; auto.
    - simpl. destruct (merged_at st) as [m|]; [|congruence].
      destruct (datetime_ltb m start_date); eauto. }
  destruct B as [st1 B]. rewrite B. simpl.
  apply IH.
  - apply (for_body_inv _ _ _ B).
  - intros pr' s' Hin. apply W. now right.
Qed.

(** *** The page loop *)

Lemma while_loop_stopped fuel page st :
  shouldContinue st = false ->
  while_loop fuel page st = (Returned (prs st), []).
Proof. intros H. destruct fuel; simpl; now rewrite H. Qed.

Lemma while_loop_step fuel page st :
  shouldContinue st = true ->
  while_loop (S fuel) page st =
    (let (o, pages) :=
       match raise_for_status (api page) with
       | Raise e => (Raised e, [])
       | Ok [] => (Returned (prs st), [])
       | Ok data =>
           match for_loop data st with
           | Raise e => (Raised e, [])
           | Ok st' => while_loop fuel (page + 1) st'
           end
       end in
     (o, page :: pages)).
Proof. intros H. simpl. now rewrite H. Qed.

Lemma while_loop_empty_page fuel page st :
  shouldContinue st = true -> api page = Status_ok [] ->
  while_loop (S fuel) page st = (Returned (prs st), [page]).
Proof. intros H E. rewrite (while_loop_step _ _ _ H), E. reflexivity. Qed.

Lemma while_loop_page fuel page st data :
  shouldContinue st = true -> api page = Status_ok data -> data <> [] ->
  while_loop (S fuel) page st =
    (let (o, pages) :=
       match for_loop data st with
       | Raise e => (Raised e, [])
       | Ok st' => while_loop fuel (page + 1) st'
       end in
     (o, page :: pages)).
Proof.
  intros H E D. rewrite (while_loop_step _ _ _ H), E.
  now destruct data.
Qed.

(** Pages are requested in increasing order, starting at [page]. *)
Lemma while_loop_pages fuel : forall page st,
  exists k, snd (while_loop fuel page st) = seq page k.
Proof.
  induction fuel as [|fuel IH]; intros page st.
  - exists 0%nat. simpl. now destruct (shouldContinue st).
  - destruct (shouldContinue st) eqn:F;
      [|exists 0%nat; now rewrite while_loop_stopped].
    rewrite (while_loop_step _ _ _ F).
    destruct (api page) as [[|pr data]|]; cbn [raise_for_status snd];
      try (exists 1%nat; reflexivity).
    destruct (for_loop (pr :: data) st) as [st'|];
      [|exists 1%nat; reflexivity].
    destruct (IH (page + 1)%nat st') as [k Hk].
    destruct (while_loop fuel (page + 1) st') as [o pages].
    cbn [snd] in *. exists (S k). cbn [seq]. rewrite Hk.
    now rewrite Nat.add_1_r.
Qed.

Lemma while_loop_pages_ge fuel page st q :
  In q (snd (while_loop fuel page st)) -> (page <= q)%nat.
Proof.
  destruct (while_loop_pages fuel page st) as [k ->].
  rewrite in_seq. lia.
Qed.

(** A normal return hands back the kept items of the requested pages,
    in page order and in item order. *)
Lemma while_loop_returned fuel : forall page st res pages,
  while_loop fuel page st = (Returned res, pages) ->
  res = prs st ++ flat_map (fun p => filter in_window (data_of p)) pages.
Proof.
  induction fuel as [|fuel IH]; intros page st res pages.
  - simpl. destruct (shouldContinue st); intros [= <- <-]; simpl.
    now rewrite app_nil_r.
  - destruct (shouldContinue st) eqn:F.
    2:{ rewrite (while_loop_stopped _ _ _ F). intros [= <- <-]. simpl.
        now rewrite app_nil_r. }
    rewrite (while_loop_step _ _ _ F). unfold data_of.
    destruct (api page) as [[|pr data]|] eqn:A; cbn [raise_for_status].
    + intros [= <- <-]. cbn [flat_map]. now rewrite A, app_nil_r.
    + destruct (for_loop (pr :: data) st) as [st'|] eqn:L; [|discriminate].
      destruct (while_loop fuel (page + 1) st') as [o pages'] eqn:W.
      intros [= -> <-]. apply IH in W. cbn [flat_map]. rewrite A.
      apply for_loop_inv in L as (P & _). rewrite W, P, <- app_assoc.
      reflexivity.
    + discriminate.
Qed.

Lemma while_loop_until_empty n fuel : forall page st,
  (page <= n < page + fuel)%nat -> api n = Status_ok [] ->
  fst (while_loop fuel page st) <> OutOfFuel
  /\ (forall q, In q (snd (while_loop fuel page st)) -> (q <= n)%nat)
  /\ (In n (snd (while_loop fuel page st)) ->
      exists res, fst (while_loop fuel page st) = Returned res).
Proof.
  induction fuel as [|fuel IH]; intros page st Hn E; [lia|].
  destruct (shouldContinue st) eqn:F.
  2:{ rewrite (while_loop_stopped _ _ _ F). cbn [fst snd In].
      repeat split; [discriminate|contradiction|contradiction]. }
  destruct (Nat.eq_dec page n) as [->|Hne].
  { rewrite (while_loop_empty_page _ _ _ F E). cbn [fst snd In].
    repeat split; [discriminate|intros q [<-|[]]; lia|eauto]. }
  rewrite (while_loop_step _ _ _ F).
  assert (Stop : forall o, o <> OutOfFuel ->
            o <> OutOfFuel
            /\ (forall q, In q [page] -> (q <= n)%nat)
            /\ (In n [page] -> exists res, o = Returned res)).
  { intros o Ho. repeat split; [exact Ho|intros q [<-|[]]; lia|].
    intros [->|[]]. congruence. }
  destruct (api page) as [[|pr data]|]; cbn [raise_for_status fst snd].
  - apply Stop; discriminate.
  - destruct (for_loop (pr :: data) st) as [st'|]; cbn [fst snd].
    + destruct (IH (page + 1)%nat st') as (H1 & H2 & H3); [lia|exact E|].
      destruct (while_loop fuel (page + 1) st') as [o pages].
      cbn [fst snd] in *. repeat split; [exact H1| |].
      * intros q [<-|Hq]; [lia|auto].
      * intros [->|Hq]; [congruence|auto].
    + apply Stop; discriminate.
  - apply Stop; discriminate.
Qed.

(** Pages of kept items followed by an empty page: every item is
    returned and the empty page is the last one requested. *)
Lemma while_loop_kept_pages k : forall fuel page st,
  shouldContinue st = true -> (k < fuel)%nat ->
  (forall i, (page <= i < page + k)%nat ->
     exists data, api i = Status_ok data /\ data <> []
                  /\ Forall (fun pr => in_window pr = true) data) ->
  api (page + k)%nat = Status_ok [] ->
  while_loop fuel page st
  = (Returned (prs st ++ flat_map data_of (seq page k)), seq page (S k)).
Proof.
  induction k as [|k IH]; intros fuel page st F Hf Hp E.
  - destruct fuel as [|fuel]; [lia|]. rewrite Nat.add_0_r in E.
    rewrite (while_loop_empty_page _ _ _ F E). cbn [seq flat_map].
    now rewrite app_nil_r.
  - destruct fuel as [|fuel]; [lia|].
    rewrite (while_loop_step _ _ _ F).
    destruct (Hp page) as (data & A & Hne & Hk); [lia|].
    rewrite A. cbn [raise_for_status].
    destruct data as [|pr data]; [congruence|].
    destruct (for_loop_all_kept _ st Hk) as (st' & -> & P & F').
    rewrite (IH fuel (page + 1)%nat st').
    + rewrite P, <- app_assoc. cbn [seq flat_map].
      unfold data_of at 2. rewrite A.
      now rewrite Nat.add_1_r.
    + congruence.
    + lia.
    + intros i Hi. apply Hp. lia.
    + rewrite <- E. f_equal. lia.
Qed.

(** *** The claims about the fetcher *)

(** C2 (as amended).  For an item processed in a state the loop can
    reach: an item whose merge timestamp lies in the window is appended
    and leaves the flag alone; an item whose merge timestamp is outside
    the window but not earlier than the start is skipped and leaves the
    flag alone; an item whose merge timestamp is earlier than the start is
    skipped and clears the flag, which ends the paging after the current
    page; an item without a merge timestamp that comes after an item with
    one is skipped and changes nothing.  None of these aborts the run. *)
Theorem for_body_item st pr :
  reachable st ->
  (in_window pr = true ->
     exists m, for_body st pr
               = Ok (mklocals (prs st ++ [pr]) (Some m) (shouldContinue st)))
  /\ (forall s m, truthy (pr_merged_at pr) = Some s -> strptime s = Some m ->
        within m = false -> datetime_ltb m start_date = false ->
        for_body st pr = Ok (mklocals (prs st) (Some m) (shouldContinue st)))
  /\ (forall s m, truthy (pr_merged_at pr) = Some s -> strptime s = Some m ->
        datetime_ltb m start_date = true ->
        for_body st pr = Ok (mklocals (prs st) (Some m) false))
  /\ (truthy (pr_merged_at pr) = None -> merged_at st <> None ->
        for_body st pr = Ok st).
Proof.
  intros R. repeat split.
  - apply for_body_kept.
  - intros s m. apply for_body_late.
  - intros s m. apply for_body_early.
  - intros Ht Hm. rewrite (for_body_unmerged _ _ Ht).
    destruct (merged_at st) as [m|] eqn:M; [|congruence].
    destruct (datetime_ltb m start_date) eqn:L; [|reflexivity].
    rewrite <- (reachable_flag st R m M L), <- M. now destruct st.
Qed.

(** C3.  Once a page that was requested holds an item whose merge
    timestamp is strictly earlier than the window start, no page after
    that one is requested, whatever the fuel and however the run ends. *)
Theorem early_termination fuel p data pr s m :
  In p (snd (get_merged_prs fuel)) ->
  api p = Status_ok data -> In pr data ->
  truthy (pr_merged_at pr) = Some s -> strptime s = Some m ->
  datetime_ltb m start_date = true ->
  forall q, In q (snd (get_merged_prs fuel)) -> (q <= p)%nat.
Proof.
  unfold get_merged_prs.
  generalize 1%nat as page, (mklocals [] None true) as st.
  induction fuel as [|fuel IH]; intros page st Hp A Hin Ht Hs Hm q Hq.
  { simpl in Hp. now destruct (shouldContinue st). }
  destruct (shouldContinue st) eqn:F;
    [|now rewrite (while_loop_stopped _ _ _ F) in Hp].
  rewrite (while_loop_step _ _ _ F) in Hp, Hq.
  destruct (Nat.eq_dec p page) as [->|Hne].
  - rewrite A in Hq. cbn [raise_for_status] in Hq.
    destruct data as [|pr0 data]; [contradiction|].
    destruct (for_loop (pr0 :: data) st) as [st'|] eqn:L.
    + rewrite (while_loop_stopped fuel _ st') in Hq
        by (eapply for_loop_trigger; eauto).
      destruct Hq as [<-|[]]. lia.
    + destruct Hq as [<-|[]]. lia.
  - assert (Tail : ~ In p [page]).
    { intros [E|[]]. congruence. }
    destruct (api page) as [[|pr0 data0]|];
      cbn [raise_for_status snd] in Hp, Hq;
      try (now apply Tail in Hp).
    destruct (for_loop (pr0 :: data0) st) as [st'|];
      [|now apply Tail in Hp].
    specialize (IH (page + 1)%nat st').
    pose proof (while_loop_pages_ge fuel (page + 1) st' p) as Hge.
    destruct (while_loop fuel (page + 1) st') as [o pages].
    cbn [snd] in *. destruct Hp as [E|Hp]; [congruence|].
    destruct Hq as [<-|Hq]; [specialize (Hge Hp); lia|].
    now apply IH.
Qed.

(** C4.  When the fetcher returns, an item with merge timestamp [m] on a
    page that was requested is in the result exactly when
    [start_date <= m <= end_date], both ends included. *)
Theorem result_iff_within fuel res pages p data pr s m :
  get_merged_prs fuel = (Returned res, pages) ->
  In p pages -> api p = Status_ok data -> In pr data ->
  truthy (pr_merged_at pr) = Some s -> strptime s = Some m ->
  (In pr res <->
   datetime_leb start_date m = true /\ datetime_leb m end_date = true).
Proof.
  intros H Hp A Hin Ht Hs. apply while_loop_returned in H.
  cbn [prs app] in H. subst res.
  assert (W : in_window pr = within m).
  { unfold in_window. now rewrite Ht, Hs. }
  rewrite <- andb_true_iff. fold (within m). rewrite <- W, in_flat_map.
  split.
  - intros (p' & _ & Hf). now apply filter_In in Hf.
  - intros Hw. exists p. split; [exact Hp|]. apply filter_In.
    unfold data_of. now rewrite A.
Qed.

(** C9.  If page [n] comes back empty, a run with at least [n] units of
    fuel ends, requests no page beyond [n], and ends by a normal return
    whenever page [n] is requested.  In particular, when the pages before
    [n] hold kept items only (the scenario of 100 such items on page 1 and
    nothing on page 2 is [n = 2]), the run requests pages 1 to [n] and
    returns all those items. *)
Theorem terminates_at_empty_page n fuel :
  (1 <= n <= fuel)%nat -> api n = Status_ok [] ->
  fst (get_merged_prs fuel) <> OutOfFuel
  /\ (forall q, In q (snd (get_merged_prs fuel)) -> (q <= n)%nat)
  /\ (In n (snd (get_merged_prs fuel)) ->
      exists res, fst (get_merged_prs fuel) = Returned res)
  /\ ((forall k, (1 <= k < n)%nat ->
         exists data, api k = Status_ok data /\ data <> []
                      /\ Forall (fun pr => in_window pr = true) data) ->
      get_merged_prs fuel
      = (Returned (flat_map data_of (seq 1 (n - 1))), seq 1 n)).
Proof.
  intros Hn E. unfold get_merged_prs.
  destruct (while_loop_until_empty n fuel 1%nat (mklocals [] None true))
    as (H1 & H2 & H3); [lia|exact E|].
  repeat split; auto.
  intros Hk.
  rewrite (while_loop_kept_pages (n - 1) fuel 1%nat); cbn [prs app].
  - now replace (S (n - 1)) with n by lia.
  - reflexivity.
  - lia.
  - intros i Hi. apply Hk. lia.
  - now replace (1 + (n - 1))%nat with n by lia.
Qed.

(** C10.  When an item of a page has a merge timestamp earlier than the
    start, the items after it on that page are still processed: the run
    returns what was collected before, followed by the kept items among
    those that come after, and this page is the last one requested. *)
Theorem rest_of_page_examined fuel page st pre trig rest st1 s m :
  shouldContinue st = true ->
  api page = Status_ok (pre ++ trig :: rest) ->
  for_loop pre st = Ok st1 ->
  truthy (pr_merged_at trig) = Some s -> strptime s = Some m ->
  datetime_ltb m start_date = true ->
  well_formed rest ->
  while_loop (S fuel) page st
  = (Returned (prs st1 ++ filter in_window rest), [page]).
Proof.
  intros F A Lpre Ht Hs Hm W.
  rewrite (while_loop_page _ _ _ _ F A) by (now destruct pre).
  rewrite for_loop_app, Lpre. cbn [bind for_loop].
  rewrite (for_body_early st1 trig s m Ht Hs Hm). cbn [bind].
  destruct (for_loop_bound_runs rest (mklocals (prs st1) (Some m) false))
    as [st' L]; [discriminate|exact W|].
  rewrite L. apply for_loop_inv in L as (P & Fl & _).
  rewrite (while_loop_stopped _ _ _ (Fl eq_refl)), P. reflexivity.
Qed.

End FetcherFacts.

(** *** Worked runs of the fetcher *)

Lemma for_body_item_witness :
  let st := mklocals [pr_march 1] (strptime_fixed "2024-03-15T12:00:00Z") true in
  let body := for_body strptime_fixed march_1 march_31 st in
  (exists m, body (pr_march 42) = Ok (mklocals [pr_march 1; pr_march 42] (Some m) true))
  /\ (exists m, body pr_april = Ok (mklocals [pr_march 1] (Some m) true))
  /\ (exists m, body pr_february = Ok (mklocals [pr_march 1] (Some m) false))
  /\ body pr_unmerged = Ok st.
Proof.
  intros st body.
  assert (R : reachable strptime_fixed march_1 march_31 st).
  { apply (reachable_step _ _ _ (mklocals [] None true) (pr_march 1)).
    - apply reachable_init.
    - reflexivity. }
  destruct (for_body_item strptime_fixed march_1 march_31 st (pr_march 42) R)
    as (K & _).
  destruct (for_body_item strptime_fixed march_1 march_31 st pr_april R)
    as (_ & L & _).
  destruct (for_body_item strptime_fixed march_1 march_31 st pr_february R)
    as (_ & _ & E & _).
  destruct (for_body_item strptime_fixed march_1 march_31 st pr_unmerged R)
    as (_ & _ & _ & U).
  split; [|split; [|split]].
  - apply K. reflexivity.
  - eexists. apply (L "2024-04-02T10:00:00Z"); reflexivity.
  - eexists. apply (E "2024-02-10T08:30:00Z"); reflexivity.
  - apply U; [reflexivity|discriminate].
Defined.

(** The claim C2 as it is worded fails on an item merged before the start:
    the item is skipped, yet it decides which pages are fetched.  With the
    February item on page 1 the run stops after page 1; without it pages 2
    and 3 are requested as well. *)
Lemma skipped_item_stops_paging :
  get_merged_prs strptime_fixed
    (api_of [[pr_march 1; pr_february]; [pr_march 2]]) march_1 march_31 5
  = (Returned [pr_march 1], [1%nat])
  /\ get_merged_prs strptime_fixed
       (api_of [[pr_march 1]; [pr_march 2]]) march_1 march_31 5
     = (Returned [pr_march 1; pr_march 2], [1%nat; 2%nat; 3%nat]).
Proof. split; reflexivity. Qed.

(** An item without a merge timestamp ahead of every merged item: the test
    on line 50 reads [merged_at] before it was ever assigned. *)
Lemma unmerged_first_item_raises :
  get_merged_prs strptime_fixed
    (api_of [[pr_unmerged; pr_march 2]]) march_1 march_31 5
  = (Raised UnboundLocalError, [1%nat]).
Proof. reflexivity. Qed.

Lemma early_termination_witness :
  let api := api_of [[pr_march 1; pr_february]; [pr_march 2]] in
  In 1%nat (snd (get_merged_prs strptime_fixed api march_1 march_31 5))
  /\ (1 <= 1)%nat.
Proof.
  intros api.
  assert (H : In 1%nat (snd (get_merged_prs strptime_fixed api march_1 march_31 5))).
  { left. reflexivity. }
  split; [exact H|].
  apply (early_termination strptime_fixed api march_1 march_31 5 1%nat
           [pr_march 1; pr_february] pr_february "2024-02-10T08:30:00Z"
           (mkdatetime 2024 2 10 8 30 0 0)).
  - exact H.
  - reflexivity.
  - right. left. reflexivity.
  - reflexivity.
  - reflexivity.
  - reflexivity.
  - exact H.
Defined.

Lemma result_iff_within_witness :
  In (pr_march 2) [pr_march 1; pr_march 2]
  <-> datetime_leb march_1 (mkdatetime 2024 3 15 12 0 0 0) = true
      /\ datetime_leb (mkdatetime 2024 3 15 12 0 0 0) march_31 = true.
Proof.
  apply (result_iff_within strptime_fixed
           (api_of [[pr_march 1; pr_april]; [pr_march 2]]) march_1 march_31
           5 [pr_march 1; pr_march 2] [1; 2; 3]%nat 2%nat [pr_march 2]
           (pr_march 2) "2024-03-15T12:00:00Z").
  - reflexivity.
  - right. left. reflexivity.
  - reflexivity.
  - left. reflexivity.
  - reflexivity.
  - reflexivity.
Defined.

Lemma hundred_kept :
  Forall (fun pr => in_window strptime_fixed march_1 march_31 pr = true) hundred.
Proof.
  unfold hundred. apply Forall_forall. intros pr H.
  apply in_map_iff in H as (i & <- & _). reflexivity.
Qed.

(** The pagination scenario: 100 kept items on page 1, nothing on page 2. *)
Lemma terminates_at_empty_page_witness :
  get_merged_prs strptime_fixed (api_of [hundred]) march_1 march_31 2
  = (Returned hundred, [1%nat; 2%nat]).
Proof.
  assert (Hn : (1 <= 2 <= 2)%nat) by lia.
  destruct (terminates_at_empty_page strptime_fixed (api_of [hundred])
              march_1 march_31 2 2 Hn eq_refl) as (_ & _ & _ & H).
  rewrite H.
  - cbn [seq flat_map Nat.sub data_of api_of nth]. now rewrite app_nil_r.
  - intros k Hk. assert (k = 1%nat) as -> by lia.
    exists hundred. repeat split.
    + discriminate.
    + exact hundred_kept.
Defined.

Lemma rest_of_page_examined_witness :
  while_loop strptime_fixed
    (api_of [[pr_march 1; pr_february; pr_unmerged; pr_march 2]])
    march_1 march_31 1 1 (mklocals [] None true)
  = (Returned [pr_march 1; pr_march 2], [1%nat]).
Proof.
  apply (rest_of_page_examined strptime_fixed
           (api_of [[pr_march 1; pr_february; pr_unmerged; pr_march 2]])
           march_1 march_31 0 1 (mklocals [] None true)
           [pr_march 1] pr_february [pr_unmerged; pr_march 2]
           (mklocals [pr_march 1] (strptime_fixed "2024-03-15T12:00:00Z") true)
           "2024-02-10T08:30:00Z" (mkdatetime 2024 2 10 8 30 0 0)).
  - reflexivity.
  - reflexivity.
  - reflexivity.
  - reflexivity.
  - reflexivity.
  - reflexivity.
  - intros pr s [<-|[<-|[]]]; simpl; [discriminate|].
    intros [= <-]. discriminate.
Defined.

(** ** The comment scan *)

Lemma prefix_iff (p s : string) :
  String.prefix p s = true <-> exists b, s = (p ++ b)%string.
Proof.
  revert s. induction p as [|c p IH]; intros s.
  - split; [exists s; reflexivity|now destruct s].
  - destruct s as [|c' s]; simpl.
    + split; [discriminate|intros [b H]; discriminate].
    + destruct (ascii_dec c c') as [->|N].
      * rewrite IH. split; intros [b H]; exists b; congruence.
      * split; [discriminate|intros [b H]; congruence].
Qed.

(** [contains] is the substring test. *)
Lemma contains_iff (m s : string) :
  contains m s = true <-> exists a b, s = (a ++ m ++ b)%string.
Proof.
  assert (E : forall t, contains m t
                        = String.prefix m t
                          || match t with
                             | EmptyString => false
                             | String _ t' => contains m t'
                             end) by (now destruct t).
  split.
  - induction s as [|c s IH]; rewrite E, orb_true_iff;
      intros [H|H]; try discriminate.
    + apply prefix_iff in H as [b H]. now exists EmptyString, b.
    + apply prefix_iff in H as [b H]. now exists EmptyString, b.
    + destruct (IH H) as (a & b & ->). now exists (String c a), b.
  - intros (a & b & ->). induction a as [|c a IH]; rewrite E.
    + assert (H : String.prefix m (m ++ b) = true)
        by (apply prefix_iff; now exists b).
      simpl. now rewrite H.
    + cbn [append]. rewrite IH. apply orb_true_r.
Qed.

Section ScanFacts.

Variable repo : string.
Variable comments_api : Z -> response (list Comment).

Local Abbreviation record_of := (record_of repo).
Local Abbreviation scan_comments := (scan_comments repo).
Local Abbreviation scan_prs := (scan_prs repo comments_api).
Local Abbreviation scan := (scan repo comments_api).
Local Abbreviation comments_of := (comments_of comments_api).

Lemma scan_comments_spec pr comments : forall acc,
  scan_comments pr comments acc
  = acc ++ map (record_of pr) (filter marked comments).
Proof.
  induction comments as [|c comments IH]; intros acc; simpl.
  - now rewrite app_nil_r.
  - fold (marked c). destruct (marked c); rewrite IH, <- ?app_assoc;
      reflexivity.
Qed.

(** The records and the requests of a scan that ran to its end. *)
Lemma scan_prs_finished merged_prs : forall st st',
  scan_prs merged_prs st = (st', None) ->
  force_merged_prs st'
  = force_merged_prs st
    ++ flat_map (fun pr => map (record_of pr) (filter marked (comments_of pr)))
         merged_prs
  /\ comments_requested st' = comments_requested st ++ map pr_number merged_prs
  /\ (merged_prs <> [] ->
      pr_merged_at_var st' = Some (pr_merged_at (last merged_prs pr_unmerged)))
  /\ Forall (fun pr => comments_api (pr_number pr) <> Status_error) merged_prs.
Proof.
  induction merged_prs as [|pr l IH]; intros st st'; simpl.
  - intros [= <-]. rewrite !app_nil_r. repeat split; [congruence|constructor].
  - unfold comments_of at 1.
    destruct (comments_api (pr_number pr)) as [comments|] eqn:A; simpl;
      [|discriminate].
    intros H. pose proof H as H0.
    apply IH in H as (R & Q & L & F). simpl in R, Q, L.
    rewrite R, Q, scan_comments_spec, <- !app_assoc. simpl.
    repeat split; try reflexivity.
    + intros _. destruct l as [|pr' l]; [|apply L; discriminate].
      simpl in H0. now injection H0 as <-.
    + constructor; [congruence|exact F].
Qed.

(** A scan runs to its end when every comment request succeeds. *)
Lemma scan_prs_total merged_prs : forall st,
  Forall (fun pr => comments_api (pr_number pr) <> Status_error) merged_prs ->
  exists st', scan_prs merged_prs st = (st', None).
Proof.
  induction merged_prs as [|pr l IH]; intros st F; simpl; [eauto|].
  inversion F as [|? ? Hpr Hl]; subst.
  destruct (comments_api (pr_number pr)); [|congruence]. simpl. now apply IH.
Qed.

(** Whatever way the scan ends, its records and its requests come from the
    pull requests it was given. *)
Lemma scan_prs_sound merged_prs : forall st st' e,
  scan_prs merged_prs st = (st', e) ->
  (forall rec, In rec (force_merged_prs st') ->
     In rec (force_merged_prs st)
     \/ exists pr c, In pr merged_prs /\ In c (comments_of pr)
                     /\ marked c = true /\ rec = record_of pr c)
  /\ (forall n, In n (comments_requested st') ->
       In n (comments_requested st)
       \/ exists pr, In pr merged_prs /\ pr_number pr = n).
Proof.
  induction merged_prs as [|pr l IH]; intros st st' e; simpl.
  - intros [= <- <-]. auto.
  - destruct (comments_api (pr_number pr)) as [comments|] eqn:A; simpl.
    + intros H. apply IH in H as (R & Q). simpl in R, Q. split.
      * intros rec Hrec. destruct (R rec Hrec) as [Hacc|(pr' & c & ? & ? & ? & ?)].
        -- rewrite scan_comments_spec in Hacc. apply in_app_or in Hacc as [?|Hin];
             [now left|right].
           apply in_map_iff in Hin as (c & <- & Hc).
           apply filter_In in Hc as [Hc Hm].
           exists pr, c. unfold comments_of. rewrite A. auto.
        -- right. exists pr', c. auto.
      * intros n Hn. destruct (Q n Hn) as [Hacc|(pr' & ? & ?)].
        -- apply in_app_or in Hacc as [?|[<-|[]]]; [now left|right].
           exists pr. auto.
        -- right. exists pr'. auto.
    + intros [= <- <-]. simpl. split; [auto|].
      intros n Hn. apply in_app_or in Hn as [?|[<-|[]]]; [now left|right].
      exists pr. auto.
Qed.

(** C6.  When the scan has run to its end, a comment of a scanned pull
    request has its record in the collection exactly when its body
    contains [FORCE_MERGE] as a substring, letter case included. *)
Theorem record_iff_marker merged_prs st pr comments comment :
  scan merged_prs = (st, None) ->
  In pr merged_prs -> comments_api (pr_number pr) = Status_ok comments ->
  In comment comments ->
  (In (record_of pr comment) (force_merged_prs st)
   <-> exists a b, comment_body comment = (a ++ "FORCE_MERGE" ++ b)%string).
Proof.
  intros H Hpr A Hc. rewrite <- contains_iff. fold (marked comment).
  apply scan_prs_finished in H as (R & _). simpl in R. rewrite R.
  rewrite in_flat_map. split.
  - intros (pr' & _ & Hin). apply in_map_iff in Hin as (c & E & Hin).
    apply filter_In in Hin as [_ Hm]. unfold marked in *.
    now replace (comment_body comment) with (comment_body c)
      by (injection E; auto).
  - intros Hm. exists pr. split; [exact Hpr|].
    apply in_map, filter_In. unfold comments_of. rewrite A. auto.
Qed.

End ScanFacts.

Lemma marker_examples :
  contains "FORCE_MERGE" "please FORCE_MERGE this" = true
  /\ contains "FORCE_MERGE" "force_merge" = false.
Proof. split; reflexivity. Qed.

Lemma record_iff_marker_witness :
  In (record_of "acme/widgets" (pr_march 42)
        (mkComment "bob" "FORCE_MERGE: ci flaky"))
     [record_of "acme/widgets" (pr_march 42)
        (mkComment "bob" "FORCE_MERGE: ci flaky")]
  <-> exists a b, "FORCE_MERGE: ci flaky" = (a ++ "FORCE_MERGE" ++ b)%string.
Proof.
  apply (record_iff_marker "acme/widgets" widgets_comments
           [pr_march 42; pr_march_20]
           (mkscan_state
              [record_of "acme/widgets" (pr_march 42)
                 (mkComment "bob" "FORCE_MERGE: ci flaky")]
              (Some (Some "2024-03-20T09:00:00Z")) [42; 43])
           (pr_march 42)
           [mkComment "bob" "FORCE_MERGE: ci flaky";
            mkComment "eve" "force_merge"]).
  - reflexivity.
  - left. reflexivity.
  - reflexivity.
  - left. reflexivity.
Defined.

(** ** [main] *)

Section MainFacts.

Variable strptime : string -> option datetime.
Variable api : nat -> response (list PullRequest).
Variable comments_api : Z -> response (list Comment).

Local Abbreviation main := (main strptime api comments_api).

Lemma in_window_merged_within start_date end_date pr :
  in_window strptime start_date end_date pr = true ->
  merged_within strptime start_date end_date pr.
Proof.
  unfold in_window, merged_within, truthy, within.
  destruct (pr_merged_at pr) as [s|]; [|discriminate].
  destruct (String.eqb s EmptyString); [discriminate|].
  destruct (strptime s) as [m|] eqn:P; [|discriminate].
  intros H. apply andb_true_iff in H as [H1 H2]. exists s, m. auto.
Qed.

Lemma get_merged_prs_kept start_date end_date fuel merged_prs pages pr :
  get_merged_prs strptime api start_date end_date fuel
  = (Returned merged_prs, pages) ->
  In pr merged_prs ->
  (exists p, In p pages /\ In pr (data_of api p))
  /\ merged_within strptime start_date end_date pr.
Proof.
  intros H Hin. apply while_loop_returned in H. simpl in H. subst merged_prs.
  apply in_flat_map in Hin as (p & Hp & Hf). apply filter_In in Hf as [Hd Hw].
  split; [now exists p|now apply in_window_merged_within].
Qed.

(** The scan state a run ends with is the empty one, or the one the scan
    of the fetched pull requests left. *)
Lemma main_scan fuel repo start_date end_date output_json :
  run_scan (main fuel repo start_date end_date output_json)
  = mkscan_state [] None []
  \/ exists e merged_prs pages err,
       calculate_enddate_if_needed start_date end_date = Ok e
       /\ get_merged_prs strptime api start_date e fuel
          = (Returned merged_prs, pages)
       /\ scan repo comments_api merged_prs
          = (run_scan (main fuel repo start_date end_date output_json), err).
Proof.
  unfold main.
  destruct (calculate_enddate_if_needed start_date end_date) as [e|];
    [|now left].
  destruct (get_merged_prs strptime api start_date e fuel)
    as [[merged_prs| |] pages] eqn:G; try (now left).
  right. exists e, merged_prs, pages.
  destruct (scan repo comments_api merged_prs) as [st [x|]] eqn:S.
  - exists (Some x). auto.
  - exists None. destruct output_json; [auto|].
    destruct (report_text st). auto.
Qed.

(** C7.  Every record in the collection of a run, however the run ends,
    was built from a pull request that the fetcher had returned and whose
    merge timestamp lies in [start, end], with [end] as resolved; and
    every comment request of the run was made for such a pull request. *)
Theorem records_reference_window_prs fuel repo start_date end_date output_json :
  let st := run_scan (main fuel repo start_date end_date output_json) in
  (forall rec, In rec (force_merged_prs st) ->
     exists e merged_prs pr comment,
       calculate_enddate_if_needed start_date end_date = Ok e
       /\ fst (get_merged_prs strptime api start_date e fuel)
          = Returned merged_prs
       /\ In pr merged_prs /\ rec = record_of repo pr comment
       /\ merged_within strptime start_date e pr)
  /\ (forall n, In n (comments_requested st) ->
       exists e merged_prs pr,
         calculate_enddate_if_needed start_date end_date = Ok e
         /\ fst (get_merged_prs strptime api start_date e fuel)
            = Returned merged_prs
         /\ In pr merged_prs /\ pr_number pr = n
         /\ merged_within strptime start_date e pr).
Proof.
  intros st. subst st.
  destruct (main_scan fuel repo start_date end_date output_json)
    as [->|(e & merged_prs & pages & err & C & G & S)];
    [split; intros ? []|].
  apply scan_prs_sound in S as (R & Q). simpl in R, Q. split.
  - intros rec Hrec.
    destruct (R rec Hrec) as [[]|(pr & c & Hpr & _ & _ & ->)].
    exists e, merged_prs, pr, c. rewrite G. repeat split; auto.
    now apply (get_merged_prs_kept _ _ _ _ _ _ G).
  - intros n Hn. destruct (Q n Hn) as [[]|(pr & Hpr & <-)].
    exists e, merged_prs, pr. rewrite G. repeat split; auto.
    now apply (get_merged_prs_kept _ _ _ _ _ _ G).
Qed.

End MainFacts.

(** ** The text report *)

(** Every block of the text report carries one and the same date: the one
    cut from the local [pr_merged_at], which the scan left at the merge
    timestamp of the last pull request it visited. *)
Lemma text_loop_one_date s records :
  text_loop (Some (Some s)) records
  = (fold_right append EmptyString
       (map (text_block (split_T_head s)) records), None).
Proof.
  induction records as [|pr records IH]; simpl; [reflexivity|].
  now rewrite IH.
Qed.

Lemma records_reference_window_prs_witness :
  exists e merged_prs pr comment,
    calculate_enddate_if_needed march_1 None = Ok e
    /\ fst (get_merged_prs strptime_fixed
              (api_of [[pr_march 42; pr_march_20]]) march_1 e 3)
       = Returned merged_prs
    /\ In pr merged_prs
    /\ record_of "acme/widgets" (pr_march 42)
         (mkComment "bob" "FORCE_MERGE: ci flaky")
       = record_of "acme/widgets" pr comment
    /\ merged_within strptime_fixed march_1 e pr.
Proof.
  apply (proj1 (records_reference_window_prs strptime_fixed
                  (api_of [[pr_march 42; pr_march_20]]) widgets_comments
                  3 "acme/widgets" march_1 None false)).
  left. reflexivity.
Defined.

(** C1 (the code departs from the claim).  Two pull requests merged in
    the window, on 15 March and on 20 March; only the first has a marked
    comment.  Its record keeps [2024-03-15T12:00:00Z] as [merged_at], yet
    the first line of its block ends with [2024-03-20], the date of the
    pull request the scan visited last. *)
Theorem text_report_prints_last_merge_date :
  let r := main strptime_fixed (api_of [[pr_march 42; pr_march_20]])
             widgets_comments 3 "acme/widgets" march_1 None false in
  run_status r = Finished
  /\ map fm_merged_at (force_merged_prs (run_scan r))
     = [Some "2024-03-15T12:00:00Z"]
  /\ stdout r
     = (nl ++ "Force-Merged PRs:" ++ nl
        ++ "acme/widgets#42: alice - Fix widget @ 2024-03-20" ++ nl
        ++ "Comment by bob: FORCE_MERGE: ci flaky" ++ nl
        ++ "URL: https://github.com/acme/widgets/pull" ++ nl ++ nl)%string.
Proof. repeat split. Qed.

(** ** Calendar arithmetic *)

Lemma divmod_unique n d q r :
  0 <= r < d -> n = d * q + r -> n / d = q /\ n mod d = r.
Proof.
  intros Hr ->. split.
  - symmetry. apply (Z.div_unique_pos _ d q r); auto.
  - symmetry. apply (Z.mod_unique_pos _ d q r); auto.
Qed.

(** Years since year 1 in mixed radix: 400-year cycles, centuries, 4-year
    cycles, years. *)
Lemma year_digits Y :
  0 <= Y ->
  exists a b c e,
    Y = 400 * a + 100 * b + 4 * c + e
    /\ 0 <= a /\ 0 <= b < 4 /\ 0 <= c < 25 /\ 0 <= e < 4.
Proof.
  intros H.
  exists (Y / 400), (Y mod 400 / 100), (Y mod 100 / 4), (Y mod 4).
  Z.to_euclidean_division_equations. lia.
Qed.

Lemma days_before_year_digits a b c e :
  0 <= b < 4 -> 0 <= c < 25 -> 0 <= e < 4 ->
  days_before_year (400 * a + 100 * b + 4 * c + e + 1)
  = 146097 * a + 36524 * b + 1461 * c + 365 * e.
Proof.
  intros Hb Hc He. unfold days_before_year.
  replace (400 * a + 100 * b + 4 * c + e + 1 - 1)
    with (400 * a + 100 * b + 4 * c + e) by lia.
  set (Y := 400 * a + 100 * b + 4 * c + e).
  destruct (divmod_unique Y 4 (100 * a + 25 * b + c) e) as [-> _]; [lia|unfold Y; lia|].
  destruct (divmod_unique Y 100 (4 * a + b) (4 * c + e)) as [-> _]; [lia|unfold Y; lia|].
  destruct (divmod_unique Y 400 a (100 * b + 4 * c + e)) as [-> _]; [lia|unfold Y; lia|].
  unfold Y. lia.
Qed.

Lemma is_leap_digits a b c e :
  0 <= b < 4 -> 0 <= c < 25 -> 0 <= e < 4 ->
  is_leap (400 * a + 100 * b + 4 * c + e + 1)
  = (e =? 3) && (negb (c =? 24) || (b =? 3)).
Proof.
  intros Hb Hc He. unfold is_leap.
  set (y := 400 * a + 100 * b + 4 * c + e + 1).
  assert (M4 : (y mod 4 =? 0) = (e =? 3)).
  { destruct (Z.eq_dec e 3) as [->|N].
    - destruct (divmod_unique y 4 (100 * a + 25 * b + c + 1) 0) as [_ ->]; [lia|unfold y; lia|reflexivity].
    - destruct (divmod_unique y 4 (100 * a + 25 * b + c) (e + 1)) as [_ ->]; [lia|unfold y; lia|].
      rewrite (proj2 (Z.eqb_neq e 3) N). apply Z.eqb_neq. lia. }
  rewrite M4. destruct (Z.eqb_spec e 3) as [->|N]; [|reflexivity]. simpl.
  assert (M100 : (y mod 100 =? 0) = (c =? 24)).
  { destruct (Z.eq_dec c 24) as [->|Nc].
    - destruct (divmod_unique y 100 (4 * a + b + 1) 0) as [_ ->]; [lia|unfold y; lia|reflexivity].
    - destruct (divmod_unique y 100 (4 * a + b) (4 * c + 4)) as [_ ->]; [lia|unfold y; lia|].
      rewrite (proj2 (Z.eqb_neq c 24) Nc). apply Z.eqb_neq. lia. }
  rewrite M100. destruct (Z.eqb_spec c 24) as [->|Nc]; [|reflexivity]. simpl.
  destruct (Z.eq_dec b 3) as [->|Nb].
  - destruct (divmod_unique y 400 (a + 1) 0) as [_ ->]; [lia|unfold y; lia|reflexivity].
  - destruct (divmod_unique y 400 a (100 * b + 100)) as [_ ->]; [lia|unfold y; lia|].
    rewrite (proj2 (Z.eqb_neq b 3) Nb). apply Z.eqb_neq. lia.
Qed.

Lemma ord2ymd_digits a b c e k :
  0 <= b < 4 -> 0 <= c < 25 -> 0 <= e < 4 -> 0 <= k ->
  k < 365 \/ (k = 365 /\ e = 3 /\ (c <> 24 \/ b = 3)) ->
  ord2ymd (146097 * a + 36524 * b + 1461 * c + 365 * e + k + 1)
  = if k <? 365
    then let (m, d) := month_day ((e =? 3) && (negb (c =? 24) || (b =? 3))) k in
         (400 * a + 100 * b + 4 * c + e + 1, m, d)
    else (400 * a + 100 * b + 4 * c + e + 1, 12, 31).
Proof.
  intros Hb Hc He Hk Hcase. unfold ord2ymd, DI400Y, DI100Y, DI4Y.
  replace (146097 * a + 36524 * b + 1461 * c + 365 * e + k + 1 - 1)
    with (146097 * a + 36524 * b + 1461 * c + 365 * e + k) by lia.
  cbv zeta.
  destruct (divmod_unique (146097 * a + 36524 * b + 1461 * c + 365 * e + k)
              146097 a (36524 * b + 1461 * c + 365 * e + k)) as [-> ->];
    [lia|lia|].
  destruct Hcase as [Hlt|(-> & -> & Hcb)].
  - destruct (divmod_unique (36524 * b + 1461 * c + 365 * e + k)
                36524 b (1461 * c + 365 * e + k)) as [-> ->]; [lia|lia|].
    destruct (divmod_unique (1461 * c + 365 * e + k) 1461 c (365 * e + k))
      as [-> ->]; [lia|lia|].
    destruct (divmod_unique (365 * e + k) 365 e k) as [-> ->]; [lia|lia|].
    replace (e =? 4) with false by (symmetry; apply Z.eqb_neq; lia).
    replace (b =? 4) with false by (symmetry; apply Z.eqb_neq; lia).
    replace (k <? 365) with true by (symmetry; apply Z.ltb_lt; lia).
    cbn [orb].
    destruct (month_day ((e =? 3) && (negb (c =? 24) || (b =? 3))) k).
    f_equal. f_equal. lia.
  - replace (365 <? 365) with false by reflexivity.
    destruct Hcb as [Hc24| ->].
    + destruct (divmod_unique (36524 * b + 1461 * c + 365 * 3 + 365)
                  36524 b (1461 * c + 365 * 3 + 365)) as [-> ->]; [lia|lia|].
      destruct (divmod_unique (1461 * c + 365 * 3 + 365) 1461 c 1460)
        as [-> ->]; [lia|lia|].
      change (1460 / 365) with 4. cbn [Z.eqb orb Pos.eqb].
      f_equal. f_equal. lia.
    + destruct (Z.eq_dec c 24) as [->|Hc24].
      * change (36524 * 3 + 1461 * 24 + 365 * 3 + 365) with 146096.
        change (146096 / 36524) with 4. cbn [Z.eqb orb Pos.eqb].
        rewrite orb_true_r. f_equal. f_equal.
        change (146096 mod 36524) with 0. change (0 / 1461) with 0.
        change (0 mod 1461) with 0. change (0 / 365) with 0. lia.
      * destruct (divmod_unique (36524 * 3 + 1461 * c + 365 * 3 + 365)
                    36524 3 (1461 * c + 365 * 3 + 365)) as [-> ->];
          [lia|lia|].
        destruct (divmod_unique (1461 * c + 365 * 3 + 365) 1461 c 1460)
          as [-> ->]; [lia|lia|].
        change (1460 / 365) with 4. cbn [Z.eqb orb Pos.eqb].
        f_equal. f_equal. lia.
Qed.

Lemma forallb_zrange f lo n z :
  forallb f (zrange lo n) = true ->
  Z.of_nat lo <= z < Z.of_nat lo + Z.of_nat n -> f z = true.
Proof.
  intros H Hz. rewrite forallb_forall in H. apply H.
  unfold zrange. apply in_map_iff. exists (Z.to_nat z). split; [lia|].
  apply in_seq. lia.
Qed.

Lemma month_facts_checked :
  forallb (fun y => forallb (month_facts y) (zrange 1 12)) [2023; 2024] = true.
Proof. vm_compute. reflexivity. Qed.

Lemma month_facts_leap y y' m :
  is_leap y = is_leap y' -> month_facts y m = month_facts y' m.
Proof.
  unfold month_facts, monthrange_days, month_length, days_in_month,
    days_before_month, isleap.
  change ((y mod 4 =? 0) && (negb (y mod 100 =? 0) || (y mod 400 =? 0)))
    with (is_leap y).
  change ((y' mod 4 =? 0) && (negb (y' mod 100 =? 0) || (y' mod 400 =? 0)))
    with (is_leap y').
  now intros ->.
Qed.

Lemma month_facts_all y m : 1 <= m <= 12 -> month_facts y m = true.
Proof.
  intros Hm.
  pose proof month_facts_checked as H. cbn [forallb] in H.
  rewrite !andb_true_iff in H. destruct H as (H23 & H24 & _).
  destruct (is_leap y) eqn:L.
  - rewrite (month_facts_leap y 2024 m) by (now rewrite L).
    apply (forallb_zrange _ 1 12 m H24). lia.
  - rewrite (month_facts_leap y 2023 m) by (now rewrite L).
    apply (forallb_zrange _ 1 12 m H23). lia.
Qed.

Lemma month_agree y m :
  1 <= m <= 12 ->
  monthrange_days y m = month_length y m
  /\ days_in_month y m = month_length y m
  /\ 28 <= month_length y m <= 31
  /\ days_before_month y m + month_length y m
     = (if m =? 12 then 365 + b2z (is_leap y) else days_before_month y (m + 1))
  /\ 0 <= days_before_month y m.
Proof.
  intros Hm. pose proof (month_facts_all y m Hm) as H.
  unfold month_facts in H. rewrite !andb_true_iff, !Z.eqb_eq in H.
  destruct H as (((H1 & H2) & H3) & _). repeat split; auto.
  - unfold month_length.
    destruct ((m =? 4) || (m =? 6) || (m =? 9) || (m =? 11)); [lia|].
    destruct (m =? 2); [|lia].
    destruct ((y mod 4 =? 0) && (negb (y mod 100 =? 0) || (y mod 400 =? 0))); lia.
  - unfold month_length.
    destruct ((m =? 4) || (m =? 6) || (m =? 9) || (m =? 11)); [lia|].
    destruct (m =? 2); [|lia].
    destruct ((y mod 4 =? 0) && (negb (y mod 100 =? 0) || (y mod 400 =? 0))); lia.
  - unfold days_before_month, DAYS_BEFORE_MONTH.
    assert (Hc : m = 1 \/ m = 2 \/ m = 3 \/ m = 4 \/ m = 5 \/ m = 6 \/ m = 7
                 \/ m = 8 \/ m = 9 \/ m = 10 \/ m = 11 \/ m = 12) by lia.
    destruct (is_leap y);
    repeat (destruct Hc as [->|Hc]; [simpl; lia|]); subst; simpl; lia.
Qed.

Lemma month_day_correct y m d :
  1 <= m <= 12 -> 1 <= d <= month_length y m ->
  month_day (is_leap y) (days_before_month y m + d - 1) = (m, d).
Proof.
  intros Hm Hd. pose proof (month_facts_all y m Hm) as H.
  unfold month_facts in H. rewrite !andb_true_iff in H.
  destruct H as (_ & H).
  pose proof (month_agree y m Hm) as (_ & _ & Hlen & _).
  apply (forallb_zrange _ 1 31 d) in H; [|lia].
  cbv beta in H.
  replace (d <=? month_length y m) with true in H
    by (symmetry; apply Z.leb_le; lia).
  destruct (month_day (is_leap y) (days_before_month y m + d - 1)) as [m' d'].
  apply andb_true_iff in H as [H1 H2].
  apply Z.eqb_eq in H1, H2. congruence.
Qed.

(** Day of the year, from 0: below the length of the year. *)
Lemma day_of_year_bound y m d :
  1 <= m <= 12 -> 1 <= d <= month_length y m ->
  0 <= days_before_month y m + d - 1 < 365 + b2z (is_leap y)
  /\ (days_before_month y m + d - 1 = 365 -> m = 12 /\ d = 31).
Proof.
  intros Hm Hd.
  assert (Mono : forall j, (0 <= j)%nat -> forall i, 1 <= i -> i + Z.of_nat j <= 12 ->
            days_before_month y i + month_length y i
            <= days_before_month y (i + Z.of_nat j) + month_length y (i + Z.of_nat j)).
  { induction j as [|j IH]; intros _ i Hi Hij.
    - replace (i + Z.of_nat 0) with i by lia. lia.
    - specialize (IH ltac:(lia) i Hi ltac:(lia)).
      pose proof (month_agree y (i + Z.of_nat j) ltac:(lia)) as (_ & _ & _ & Hs & _).
      pose proof (month_agree y (i + Z.of_nat (S j)) ltac:(lia)) as (_ & _ & Hl & _ & _).
      replace (i + Z.of_nat j =? 12) with false in Hs
        by (symmetry; apply Z.eqb_neq; lia).
      replace (i + Z.of_nat (S j)) with (i + Z.of_nat j + 1) by lia.
      replace (i + Z.of_nat (S j)) with (i + Z.of_nat j + 1) in Hl by lia.
      lia. }
  pose proof (month_agree y m Hm) as (_ & _ & Hlen & Hs & H0).
  pose proof (month_agree y 12 ltac:(lia)) as (_ & _ & _ & H12 & _).
  change (12 =? 12) with true in H12. cbv iota in H12.
  destruct (Z.eq_dec m 12) as [->|Hne].
  - assert (month_length y 12 = 31) by reflexivity.
    unfold b2z in *. destruct (is_leap y); lia.
  - specialize (Mono (Z.to_nat (11 - m)) ltac:(lia) m ltac:(lia) ltac:(lia)).
    replace (m + Z.of_nat (Z.to_nat (11 - m))) with 11 in Mono by lia.
    pose proof (month_agree y 11 ltac:(lia)) as (_ & _ & _ & H11 & _).
    change (11 =? 12) with false in H11. cbv iota in H11.
    change (11 + 1) with 12 in H11.
    assert (month_length y 12 = 31) by reflexivity.
    split; [lia|]. intros E. unfold b2z in *. destruct (is_leap y); lia.
Qed.

Lemma ord2ymd_ymd2ord y m d :
  calendar_date (y, m, d) -> ord2ymd (ymd2ord y m d) = (y, m, d).
Proof.
  intros (Hy & Hm & Hd).
  destruct (year_digits (y - 1) ltac:(lia)) as (a & b & c & e & HY & Ha & Hb & Hc & He).
  assert (Ey : y = 400 * a + 100 * b + 4 * c + e + 1) by lia.
  destruct (day_of_year_bound y m d Hm Hd) as (Hk & Hlast).
  pose proof (month_day_correct y m d Hm Hd) as Hmd.
  set (k := days_before_month y m + d - 1) in *.
  unfold ymd2ord.
  replace (days_before_year y + days_before_month y m + d)
    with (days_before_year y + k + 1) by (unfold k; lia).
  pose proof (is_leap_digits a b c e Hb Hc He) as Hleap. rewrite <- Ey in Hleap.
  rewrite Ey at 1. rewrite days_before_year_digits by assumption.
  rewrite ord2ymd_digits; try assumption; try lia.
  - rewrite <- Ey, <- Hleap. destruct (k <? 365) eqn:K.
    + now rewrite Hmd.
    + apply Z.ltb_ge in K. assert (k = 365).
      { unfold b2z in Hk. destruct (is_leap y); lia. }
      destruct (Hlast H) as [-> ->]. reflexivity.
  - destruct (Z.lt_ge_cases k 365) as [?|K]; [now left|right].
    assert (L : is_leap y = true).
    { unfold b2z in Hk. destruct (is_leap y); [reflexivity|lia]. }
    rewrite Hleap in L. apply andb_true_iff in L as [L1 L2].
    apply Z.eqb_eq in L1. apply orb_true_iff in L2.
    rewrite negb_true_iff, Z.eqb_neq, Z.eqb_eq in L2.
    unfold b2z in Hk. destruct (is_leap y); lia.
Qed.

Lemma days_before_year_succ y :
  1 <= y ->
  days_before_year (y + 1) = days_before_year y + 365 + b2z (is_leap y).
Proof.
  intros Hy.
  destruct (year_digits (y - 1) ltac:(lia))
    as (a & b & c & e & HY & Ha & Hb & Hc & He).
  assert (Ey : y = 400 * a + 100 * b + 4 * c + e + 1) by lia.
  rewrite Ey at 2 3. rewrite is_leap_digits, days_before_year_digits by assumption.
  destruct (Z.eq_dec e 3) as [->|Ne].
  - destruct (Z.eq_dec c 24) as [->|Nc].
    + destruct (Z.eq_dec b 3) as [->|Nb].
      * replace (y + 1) with (400 * (a + 1) + 100 * 0 + 4 * 0 + 0 + 1) by lia.
        rewrite days_before_year_digits by lia. unfold b2z; cbn [Z.eqb Pos.eqb andb orb negb]; lia.
      * replace (y + 1) with (400 * a + 100 * (b + 1) + 4 * 0 + 0 + 1) by lia.
        rewrite days_before_year_digits by lia.
        replace (b =? 3) with false by (symmetry; apply Z.eqb_neq; lia).
        unfold b2z; cbn [Z.eqb Pos.eqb andb orb negb]; lia.
    + replace (y + 1) with (400 * a + 100 * b + 4 * (c + 1) + 0 + 1) by lia.
      rewrite days_before_year_digits by lia.
      replace (c =? 24) with false by (symmetry; apply Z.eqb_neq; lia).
      unfold b2z; cbn [Z.eqb Pos.eqb andb orb negb]; lia.
  - replace (y + 1) with (400 * a + 100 * b + 4 * c + (e + 1) + 1) by lia.
    rewrite days_before_year_digits by lia.
    replace (e =? 3) with false by (symmetry; apply Z.eqb_neq; lia).
    unfold b2z; cbn [Z.eqb Pos.eqb andb orb negb]; lia.
Qed.

Lemma next_day_ordinal y m d :
  calendar_date (y, m, d) ->
  calendar_date (next_day (y, m, d))
  /\ (let '(y', m', d') := next_day (y, m, d) in ymd2ord y' m' d')
     = ymd2ord y m d + 1.
Proof.
  intros (Hy & Hm & Hd). unfold next_day, ymd2ord.
  pose proof (month_agree y m Hm) as (_ & _ & Hlen & Hs & _).
  destruct (d <? month_length y m) eqn:D.
  - apply Z.ltb_lt in D. split; [simpl; lia|lia].
  - apply Z.ltb_ge in D. destruct (m <? 12) eqn:M.
    + apply Z.ltb_lt in M.
      replace (m =? 12) with false in Hs by (symmetry; apply Z.eqb_neq; lia).
      pose proof (month_agree y (m + 1) ltac:(lia)) as (_ & _ & Hl' & _).
      split; [simpl; lia|lia].
    + apply Z.ltb_ge in M. assert (m = 12) as -> by lia.
      change (12 =? 12) with true in Hs. cbv iota in Hs.
      pose proof (month_agree (y + 1) 1 ltac:(lia)) as (_ & _ & Hl' & _).
      rewrite days_before_year_succ by lia.
      change (days_before_month (y + 1) 1) with 0.
      split; [simpl; lia|lia].
Qed.

Lemma days_later_ordinal n y m d :
  calendar_date (y, m, d) ->
  calendar_date (days_later n (y, m, d))
  /\ (let '(y', m', d') := days_later n (y, m, d) in ymd2ord y' m' d')
     = ymd2ord y m d + Z.of_nat n.
Proof.
  intros H. induction n as [|n [IH1 IH2]].
  - simpl. split; [exact H|lia].
  - cbn [days_later]. destruct (days_later n (y, m, d)) as [[y' m'] d'].
    destruct (next_day_ordinal y' m' d' IH1) as [N1 N2].
    split; [exact N1|]. rewrite N2, IH2. lia.
Qed.

(** What [_ord2ymd] finds [n] days after the ordinal of a date is the date
    reached by [n] steps of [next_day]. *)
Lemma ord2ymd_days_later n y m d :
  calendar_date (y, m, d) ->
  ord2ymd (ymd2ord y m d + Z.of_nat n) = days_later n (y, m, d).
Proof.
  intros H. destruct (days_later_ordinal n y m d H) as [V E].
  destruct (days_later n (y, m, d)) as [[y' m'] d'].
  rewrite <- E. now apply ord2ymd_ymd2ord.
Qed.

Lemma days_before_year_lower y :
  10000 <= y -> 3652059 <= days_before_year y.
Proof.
  intros Hy.
  destruct (year_digits (y - 1) ltac:(lia))
    as (a & b & c & e & HY & Ha & Hb & Hc & He).
  replace y with (400 * a + 100 * b + 4 * c + e + 1) by lia.
  rewrite days_before_year_digits by assumption. lia.
Qed.

Lemma ordinal_year_bound y m d :
  calendar_date (y, m, d) -> ymd2ord y m d <= MAXORDINAL -> y <= MAXYEAR.
Proof.
  intros (Hy & Hm & Hd) H. unfold ymd2ord, MAXORDINAL, MAXYEAR in *.
  pose proof (month_agree y m Hm) as (_ & _ & _ & _ & H0).
  destruct (Z.le_gt_cases y 9999) as [?|G]; [assumption|].
  pose proof (days_before_year_lower y ltac:(lia)). lia.
Qed.

Lemma days_before_year_range y :
  1 <= y -> 0 <= days_before_year y
            /\ (y <= 10000 -> days_before_year y <= 3652059).
Proof.
  intros Hy.
  destruct (year_digits (y - 1) ltac:(lia))
    as (a & b & c & e & HY & Ha & Hb & Hc & He).
  assert (E : days_before_year y
              = 146097 * a + 36524 * b + 1461 * c + 365 * e).
  { replace y with (400 * a + 100 * b + 4 * c + e + 1) by lia.
    now apply days_before_year_digits. }
  rewrite E. lia.
Qed.

Lemma ordinal_positive y m d : calendar_date (y, m, d) -> 1 <= ymd2ord y m d.
Proof.
  intros (Hy & Hm & Hd). unfold ymd2ord.
  pose proof (month_agree y m Hm) as (_ & _ & _ & _ & H0).
  pose proof (days_before_year_range y Hy) as [H _]. lia.
Qed.

(** The ordinals the [datetime] type can hold are those of the dates up to
    year 9999. *)
Lemma ordinal_in_range_iff y m d :
  calendar_date (y, m, d) -> (ymd2ord y m d <= MAXORDINAL <-> y <= MAXYEAR).
Proof.
  intros H. split; [now apply ordinal_year_bound|].
  destruct H as (Hy & Hm & Hd). unfold ymd2ord, MAXORDINAL, MAXYEAR. intros Hmax.
  destruct (day_of_year_bound y m d Hm Hd) as (Hk & _).
  pose proof (days_before_year_succ y Hy) as Hs.
  pose proof (days_before_year_range (y + 1) ltac:(lia)) as [_ Hu].
  specialize (Hu ltac:(lia)). lia.
Qed.

Lemma valid_datetime_calendar dt :
  valid_datetime dt = true ->
  calendar_date (date_of dt) /\ year dt <= MAXYEAR
  /\ check_time_fields (hour dt) (minute dt) (second dt) (microsecond dt) = true.
Proof.
  unfold valid_datetime, check_date_fields, date_of, calendar_date, MINYEAR, MAXYEAR.
  rewrite !andb_true_iff, !Z.leb_le.
  intros [(((((H1 & H2) & H3) & H4) & H5) & H6) Ht].
  rewrite (proj1 (proj2 (month_agree (year dt) (month dt) (conj H3 H4)))) in H6.
  repeat split; auto.
Qed.

Lemma calendar_valid_datetime y m d :
  calendar_date (y, m, d) -> y <= MAXYEAR ->
  valid_datetime (mkdatetime y m d 23 59 59 999999) = true.
Proof.
  intros (Hy & Hm & Hd) Hmax.
  unfold valid_datetime, check_date_fields, MINYEAR, MAXYEAR in *. cbn [year month day hour minute second microsecond].
  rewrite (proj1 (proj2 (month_agree y m Hm))).
  rewrite !andb_true_iff, !Z.leb_le. repeat split; try lia; reflexivity.
Qed.

(** C5 (as amended).  For a valid start date: an end date that is given is
    returned unchanged; without one, a start on the first day of a month
    gives the last day of that month ([month_length]: 28, 29, 30 or 31
    days) at 23:59:59.999999; any other start gives the date 30 days
    later at 23:59:59.999999 when that date is not after year 9999, and
    raises [OverflowError] when it is. *)
Theorem calculate_enddate_if_needed_spec start :
  valid_datetime start = true ->
  (forall e, calculate_enddate_if_needed start (Some e) = Ok e)
  /\ (day start = 1 ->
      calculate_enddate_if_needed start None
      = Ok (mkdatetime (year start) (month start)
              (month_length (year start) (month start)) 23 59 59 999999))
  /\ (day start <> 1 ->
      let '(y, m, d) := days_later 30 (date_of start) in
      calculate_enddate_if_needed start None
      = if y <=? MAXYEAR then Ok (mkdatetime y m d 23 59 59 999999)
        else Raise OverflowError).
Proof.
  intros V. destruct (valid_datetime_calendar start V) as (C & Hmax & Ht).
  pose proof C as (Hy & Hm & Hd). split; [reflexivity|]. split.
  - intros D1. unfold calculate_enddate_if_needed. rewrite D1. cbn [Z.eqb Pos.eqb].
    pose proof (month_agree (year start) (month start) Hm) as (-> & _ & Hlen & _).
    unfold replace_day_end. rewrite calendar_valid_datetime; [reflexivity| |exact Hmax].
    repeat split; lia.
  - intros D1. unfold calculate_enddate_if_needed.
    replace (day start =? 1) with false by (symmetry; apply Z.eqb_neq; exact D1).
    unfold add_days, toordinal.
    change 30 with (Z.of_nat 30).
    destruct (days_later_ordinal 30 _ _ _ C) as [C' E].
    rewrite (ord2ymd_days_later 30 _ _ _ C).
    unfold date_of. destruct (days_later 30 (year start, month start, day start)) as [[y m] d].
    pose proof (ordinal_positive _ _ _ C) as Hpos.
    pose proof (ordinal_in_range_iff _ _ _ C') as Hr. rewrite E in Hr.
    replace (0 <? ymd2ord (year start) (month start) (day start) + Z.of_nat 30)
      with true by (symmetry; apply Z.ltb_lt; lia).
    cbn [andb]. destruct (Z.leb_spec y MAXYEAR) as [Hle|Hgt].
    + replace (_ <=? MAXORDINAL) with true by (symmetry; apply Z.leb_le; tauto).
      cbn [bind]. unfold replace_end, replace_day_end.
      cbn [year month day]. now rewrite calendar_valid_datetime.
    + replace (_ <=? MAXORDINAL) with false; [reflexivity|].
      symmetry. apply Z.leb_gt. destruct (Z.le_gt_cases (ymd2ord (year start) (month start) (day start) + Z.of_nat 30) MAXORDINAL) as [L|G]; [|exact G].
      apply Hr in L. lia.
Qed.

Lemma month_length_examples :
  month_length 2023 2 = 28 /\ month_length 2024 2 = 29
  /\ month_length 1900 2 = 28 /\ month_length 2000 2 = 29
  /\ month_length 2024 4 = 30 /\ month_length 2024 1 = 31
  /\ ymd2ord 9999 12 31 = MAXORDINAL.
Proof. repeat split. Qed.

Lemma calculate_enddate_if_needed_spec_witness :
  calculate_enddate_if_needed march_1 None = Ok march_31
  /\ calculate_enddate_if_needed (mkdatetime 2023 2 1 0 0 0 0) None
     = Ok (mkdatetime 2023 2 28 23 59 59 999999)
  /\ calculate_enddate_if_needed (mkdatetime 2024 1 15 0 0 0 0) None
     = Ok (mkdatetime 2024 2 14 23 59 59 999999)
  /\ calculate_enddate_if_needed march_1 (Some march_31) = Ok march_31.
Proof.
  split; [|split; [|split]].
  - apply (proj1 (proj2 (calculate_enddate_if_needed_spec march_1 eq_refl))).
    reflexivity.
  - apply (proj1 (proj2 (calculate_enddate_if_needed_spec
                           (mkdatetime 2023 2 1 0 0 0 0) eq_refl))).
    reflexivity.
  - apply (proj2 (proj2 (calculate_enddate_if_needed_spec
                           (mkdatetime 2024 1 15 0 0 0 0) eq_refl))).
    discriminate.
  - apply (proj1 (calculate_enddate_if_needed_spec march_1 eq_refl)).
Defined.

(** The claim C5 as it is worded fails on the last days the [datetime]
    type can hold: thirty days after 5 December 9999 there is no
    [datetime], and the addition on line 79 raises. *)
Lemma no_end_date_after_year_9999 :
  valid_datetime (mkdatetime 9999 12 5 0 0 0 0) = true
  /\ calculate_enddate_if_needed (mkdatetime 9999 12 5 0 0 0 0) None
     = Raise OverflowError.
Proof. split; reflexivity. Qed.

(** ** JSON output *)

Local Open Scope string_scope.

Lemma append_assoc_s (a b c : string) : (a ++ b) ++ c = a ++ (b ++ c).
Proof. induction a as [|x a IH]; simpl; [reflexivity|now rewrite IH]. Qed.

Lemma append_empty_r (a : string) : a ++ EmptyString = a.
Proof. induction a as [|x a IH]; simpl; [reflexivity|now rewrite IH]. Qed.

Lemma length_append (a b : string) :
  String.length (a ++ b) = (String.length a + String.length b)%nat.
Proof. induction a as [|x a IH]; simpl; [reflexivity|now rewrite IH]. Qed.

(** *** White space *)

Lemma skip_ws_spaces n s : skip_ws (spaces n ++ s) = skip_ws s.
Proof. induction n as [|n IH]; simpl; [reflexivity|exact IH]. Qed.

Lemma skip_ws_newline_indent k s : skip_ws (newline_indent k ++ s) = skip_ws s.
Proof.
  unfold newline_indent, nl. rewrite append_assoc_s. cbn [append skip_ws].
  change (is_ws "010") with true. cbv iota. apply skip_ws_spaces.
Qed.

Lemma parse_value_skip fuel s : parse_value fuel s = parse_value fuel (skip_ws s).
Proof.
  assert (I : skip_ws (skip_ws s) = skip_ws s).
  { induction s as [|c s IH]; simpl; [reflexivity|].
    destruct (is_ws c) eqn:W; [exact IH|]. simpl. now rewrite W. }
  destruct fuel; simpl; [reflexivity|]. now rewrite I.
Qed.

(** *** String literals *)

Lemma N_ascii_small n : (n < 256)%N -> N_of_ascii (ascii_of_N n) = n.
Proof. apply N_ascii_embedding. Qed.

Lemma hex_value_digit d : (d < 16)%N -> hex_value (hex_digit d) = Some d.
Proof.
  intros H.
  assert (C : (d = 0 \/ d = 1 \/ d = 2 \/ d = 3 \/ d = 4 \/ d = 5 \/ d = 6
              \/ d = 7 \/ d = 8 \/ d = 9 \/ d = 10 \/ d = 11 \/ d = 12
              \/ d = 13 \/ d = 14 \/ d = 15)%N) by lia.
  repeat (destruct C as [->|C]; [reflexivity|]). subst. reflexivity.
Qed.

Lemma hex4_digits n :
  (n < 65536)%N ->
  hex4 (hex_digit (n / 4096)) (hex_digit ((n / 256) mod 16))
    (hex_digit ((n / 16) mod 16)) (hex_digit (n mod 16))
  = Some n.
Proof.
  intros H. unfold hex4.
  rewrite !hex_value_digit;
    try (apply N.mod_lt; discriminate);
    [|apply N.Div0.div_lt_upper_bound; lia].
  f_equal.
  replace (n / 4096)%N with (n / 16 / 16 / 16)%N
    by (rewrite !N.Div0.div_div; reflexivity).
  replace (n / 256)%N with (n / 16 / 16)%N
    by (rewrite !N.Div0.div_div; reflexivity).
  pose proof (N.div_mod n 16 ltac:(discriminate)).
  pose proof (N.div_mod (n / 16) 16 ltac:(discriminate)).
  pose proof (N.div_mod (n / 16 / 16) 16 ltac:(discriminate)).
  lia.
Qed.

Lemma hex4_hex4_text n t :
  (n < 65536)%N ->
  exists h1 h2 h3 h4,
    hex4_text n ++ t = String h1 (String h2 (String h3 (String h4 t)))
    /\ hex4 h1 h2 h3 h4 = Some n.
Proof.
  intros H. do 4 eexists. split; [reflexivity|]. now apply hex4_digits.
Qed.

Lemma conss_one c r : conss (String c EmptyString) r = consc c r.
Proof. destruct r as [[s rest]|]; reflexivity. Qed.

(** The reader on a [\uxxxx] escape. *)
Lemma parse_chars_u_escape n t :
  (n < 65536)%N ->
  parse_chars (u_escape n ++ t)
  = if is_high n then
      match low_escape t with
      | Some (lo, r) => conss (utf8_code (combine n lo)) (parse_chars r)
      | None => conss (utf8_code n) (parse_chars t)
      end
    else conss (utf8_code n) (parse_chars t).
Proof.
  intros H. destruct (hex4_hex4_text n t H) as (h1 & h2 & h3 & h4 & E & V).
  unfold u_escape. cbn [append]. rewrite E.
  cbn -[hex4 low_escape is_high utf8_code combine]. rewrite V.
  destruct (is_high n); [|reflexivity].
  destruct t as [|b [|u [|l1 [|l2 [|l3 [|l4 r]]]]]]; try reflexivity.
  - unfold low_escape. now destruct (_ && _).
  - unfold low_escape. now destruct (_ && _).
  - unfold low_escape. now destruct (_ && _).
  - unfold low_escape. now destruct (_ && _).
  - unfold low_escape.
    destruct (Ascii.eqb b backslash && Ascii.eqb u "u"); [|reflexivity].
    destruct (hex4 l1 l2 l3 l4) as [lo|]; [|reflexivity].
    now destruct (is_low lo).
Qed.

Lemma low_escape_u_escape n t :
  (n < 65536)%N ->
  low_escape (u_escape n ++ t) = if is_low n then Some (n, t) else None.
Proof.
  intros H. destruct (hex4_hex4_text n t H) as (h1 & h2 & h3 & h4 & E & V).
  unfold u_escape. cbn [append]. rewrite E.
  cbn -[hex4 is_low]. now rewrite V.
Qed.

Lemma low_escape_quote rest : low_escape (String quote rest) = None.
Proof. destruct rest; reflexivity. Qed.

Lemma ascii_of_N_neq n c :
  (n < 256)%N -> n <> N_of_ascii c -> Ascii.eqb (ascii_of_N n) c = false.
Proof.
  intros H D. apply Ascii.eqb_neq. intros E. apply D. rewrite <- E.
  symmetry. now apply N_ascii_embedding.
Qed.

(** The two surrogates of a code point above the first 65536. *)
Lemma surrogates_of n :
  (65536 <= n < 1114112)%N ->
  let v := (n - 65536)%N in
  is_high (55296 + v / 1024) = true
  /\ is_low (56320 + v mod 1024) = true
  /\ combine (55296 + v / 1024) (56320 + v mod 1024) = n.
Proof.
  intros H v. subst v. set (v := (n - 65536)%N).
  assert (V : (v < 1048576)%N) by (unfold v; lia).
  assert (W : (v + 65536 = n)%N) by (unfold v; lia).
  clearbody v.
  assert (Q : (v / 1024 < 1024)%N)
    by (apply N.Div0.div_lt_upper_bound; lia).
  pose proof (N.mod_lt v 1024 ltac:(discriminate)) as M.
  pose proof (N.div_mod v 1024 ltac:(discriminate)) as D.
  generalize dependent (v mod 1024)%N. generalize dependent (v / 1024)%N.
  intros q Q m M D.
  unfold is_high, is_low, combine.
  repeat split.
  - apply andb_true_iff. split; [apply N.leb_le|apply N.ltb_lt]; lia.
  - apply andb_true_iff. split; [apply N.leb_le|apply N.ltb_lt]; lia.
  - lia.
Qed.

Lemma low_escape_escape_code c t :
  (c < 1114112)%N ->
  low_escape (escape_code c ++ t) = if is_low c then Some (c, t) else None.
Proof.
  intros H. unfold escape_code.
  destruct (N.eqb_spec c 34) as [->|N1]; [reflexivity|].
  destruct (N.eqb_spec c 92) as [->|N2]; [reflexivity|].
  destruct (N.eqb_spec c 8) as [->|N3]; [reflexivity|].
  destruct (N.eqb_spec c 12) as [->|N4]; [reflexivity|].
  destruct (N.eqb_spec c 10) as [->|N5]; [reflexivity|].
  destruct (N.eqb_spec c 13) as [->|N6]; [reflexivity|].
  destruct (N.eqb_spec c 9) as [->|N7]; [reflexivity|].
  destruct ((32 <=? c) && (c <=? 126))%N eqn:P.
  - apply andb_true_iff in P. destruct P as [P1 P2].
    apply N.leb_le in P1. apply N.leb_le in P2.
    assert (L : is_low c = false).
    { unfold is_low. apply andb_false_iff. left. apply N.leb_gt. lia. }
    rewrite L. cbn [append]. unfold low_escape.
    rewrite (ascii_of_N_neq c backslash) by (cbn; lia).
    destruct t; reflexivity.
  - destruct (N.ltb_spec c 65536) as [B|B].
    + now apply low_escape_u_escape.
    + destruct (surrogates_of c (conj B H)) as (Hi & Lo & _).
      rewrite append_assoc_s, low_escape_u_escape.
      * assert (L1 : is_low (55296 + (c - 65536) / 1024) = false).
        { unfold is_high, is_low in *. apply andb_true_iff in Hi.
          destruct Hi as [_ Hi]. apply N.ltb_lt in Hi.
          apply andb_false_iff. left. apply N.leb_gt. lia. }
        assert (L2 : is_low c = false).
        { unfold is_low. apply andb_false_iff. right. apply N.ltb_ge. lia. }
        now rewrite L1, L2.
      * unfold is_high in Hi. apply andb_true_iff in Hi.
        destruct Hi as [_ Hi]. apply N.ltb_lt in Hi. lia.
Qed.

(** The reader on the escaped form of a code point that is no high
    surrogate. *)
Lemma parse_chars_escape_code c t :
  (c < 1114112)%N -> is_high c = false ->
  parse_chars (escape_code c ++ t) = conss (utf8_code c) (parse_chars t).
Proof.
  intros H NH. unfold escape_code.
  destruct (N.eqb_spec c 34) as [->|N1]; [symmetry; apply conss_one|].
  destruct (N.eqb_spec c 92) as [->|N2]; [symmetry; apply conss_one|].
  destruct (N.eqb_spec c 8) as [->|N3]; [symmetry; apply conss_one|].
  destruct (N.eqb_spec c 12) as [->|N4]; [symmetry; apply conss_one|].
  destruct (N.eqb_spec c 10) as [->|N5]; [symmetry; apply conss_one|].
  destruct (N.eqb_spec c 13) as [->|N6]; [symmetry; apply conss_one|].
  destruct (N.eqb_spec c 9) as [->|N7]; [symmetry; apply conss_one|].
  destruct ((32 <=? c) && (c <=? 126))%N eqn:P.
  - apply andb_true_iff in P. destruct P as [P1 P2].
    apply N.leb_le in P1. apply N.leb_le in P2.
    cbn [append parse_chars].
    rewrite (ascii_of_N_neq c quote) by (cbn; lia).
    rewrite (ascii_of_N_neq c backslash) by (cbn; lia).
    rewrite N_ascii_embedding by lia.
    replace (c <? 32)%N with false by (symmetry; apply N.ltb_ge; lia).
    replace (127 <? c)%N with false by (symmetry; apply N.ltb_ge; lia).
    cbn [orb]. unfold utf8_code.
    replace (c <? 128)%N with true by (symmetry; apply N.ltb_lt; lia).
    symmetry. apply conss_one.
  - destruct (N.ltb_spec c 65536) as [B|B].
    + rewrite parse_chars_u_escape by exact B. now rewrite NH.
    + destruct (surrogates_of c (conj B H)) as (Hi & Lo & Co).
      assert (B1 : (55296 + (c - 65536) / 1024 < 65536)%N).
      { unfold is_high in Hi. apply andb_true_iff in Hi.
        destruct Hi as [_ Hi]. apply N.ltb_lt in Hi. lia. }
      assert (B2 : (56320 + (c - 65536) mod 1024 < 65536)%N).
      { unfold is_low in Lo. apply andb_true_iff in Lo.
        destruct Lo as [_ Lo]. apply N.ltb_lt in Lo. lia. }
      rewrite append_assoc_s, parse_chars_u_escape by exact B1.
      rewrite Hi, low_escape_u_escape by exact B2.
      now rewrite Lo, Co.
Qed.

(** The reader on the escaped form of a high surrogate. *)
Lemma parse_chars_escape_high c t :
  is_high c = true ->
  parse_chars (escape_code c ++ t)
  = match low_escape t with
    | Some (lo, r) => conss (utf8_code (combine c lo)) (parse_chars r)
    | None => conss (utf8_code c) (parse_chars t)
    end.
Proof.
  intros Hi.
  assert (R : (55296 <= c < 56320)%N).
  { unfold is_high in Hi. apply andb_true_iff in Hi. destruct Hi as [A B].
    apply N.leb_le in A. apply N.ltb_lt in B. lia. }
  assert (E : escape_code c = u_escape c).
  { unfold escape_code.
    repeat match goal with
    | |- context [N.eqb c ?k] =>
        destruct (N.eqb_spec c k); [lia|]
    end.
    replace ((32 <=? c) && (c <=? 126))%N with false
      by (symmetry; apply andb_false_iff; right; apply N.leb_gt; lia).
    replace (c <? 65536)%N with true by (symmetry; apply N.ltb_lt; lia).
    reflexivity. }
  rewrite E, parse_chars_u_escape by lia. now rewrite Hi.
Qed.

Lemma pair_up_other c l : is_high c = false -> pair_up (c :: l) = c :: pair_up l.
Proof. intros H. destruct l; cbn [pair_up]; [reflexivity|]. now rewrite H. Qed.

Lemma parse_chars_escape_codes n :
  forall l rest,
    (List.length l <= n)%nat ->
    Forall (fun c => (c < 1114112)%N) l ->
    parse_chars (escape_codes l ++ String quote rest)
    = Some (utf8 (pair_up l), rest).
Proof.
  induction n as [|n IH]; intros l rest L V.
  - destruct l; [reflexivity|cbn in L; lia].
  - destruct l as [|c l']; [reflexivity|].
    inversion V as [|? ? Vc Vl]; subst. cbn [List.length] in L.
    cbn [escape_codes]. rewrite append_assoc_s.
    destruct (is_high c) eqn:Hi.
    + rewrite parse_chars_escape_high by exact Hi.
      destruct l' as [|lo l''].
      * cbn [escape_codes append]. rewrite low_escape_quote.
        reflexivity.
      * inversion Vl as [|? ? Vlo Vl'']; subst. cbn [List.length] in L.
        cbn [escape_codes]. rewrite append_assoc_s.
        rewrite low_escape_escape_code by exact Vlo.
        cbn [pair_up]. rewrite Hi. cbn [andb].
        destruct (is_low lo) eqn:Lo.
        -- rewrite (IH l'' rest) by (trivial; lia). reflexivity.
        -- rewrite <- append_assoc_s.
           change (escape_code lo ++ escape_codes l'')
             with (escape_codes (lo :: l'')).
           rewrite (IH (lo :: l'') rest) by (trivial; cbn [List.length]; lia).
           reflexivity.
    + rewrite parse_chars_escape_code by assumption.
      rewrite (IH l' rest) by (trivial; lia).
      rewrite pair_up_other by exact Hi. reflexivity.
Qed.

Lemma continuation_bound c x : continuation c = Some x -> (x < 64)%N.
Proof.
  unfold continuation. destruct (_ && _) eqn:E; [|discriminate].
  intros [= <-]. apply andb_true_iff in E. destruct E as [A B].
  apply N.ltb_lt in B. lia.
Qed.

Lemma in_range_bound n : (in_range n < 1114112)%N.
Proof.
  unfold in_range, REPLACEMENT. destruct (N.ltb_spec n 1114112); lia.
Qed.

(** Every code point of a text is below 1114112. *)
Lemma code_points_range s :
  Forall (fun c => (c < 1114112)%N) (code_points s).
Proof.
  remember (String.length s) as n eqn:L.
  assert (B : (String.length s <= n)%nat) by lia. clear L.
  revert s B. induction n as [|n IH]; intros s B.
  - destruct s; [constructor|cbn in B; lia].
  - destruct s as [|c r]; [constructor|]. cbn [String.length] in B.
    assert (R : Forall (fun c => (c < 1114112)%N) (code_points r))
      by (apply IH; lia).
    assert (X : Forall (fun c => (c < 1114112)%N)
                  (REPLACEMENT :: code_points r))
      by (constructor; [reflexivity|exact R]).
    cbn [code_points]. cbv zeta.
    destruct (N.ltb_spec (N_of_ascii c) 128) as [C1|C1];
      [constructor; [lia|exact R]|].
    destruct (N.ltb_spec (N_of_ascii c) 192) as [C2|C2]; [exact X|].
    destruct (N.ltb_spec (N_of_ascii c) 224) as [C3|C3].
    { destruct r as [|c1 r1]; [exact X|].
      destruct (continuation c1) as [x1|] eqn:E1; [|exact X].
      apply continuation_bound in E1.
      constructor; [lia|]. apply IH. cbn [String.length] in B. lia. }
    destruct (N.ltb_spec (N_of_ascii c) 240) as [C4|C4].
    { destruct r as [|c1 [|c2 r2]]; try exact X.
      destruct (continuation c1) as [x1|] eqn:E1; [|exact X].
      destruct (continuation c2) as [x2|] eqn:E2; [|exact X].
      apply continuation_bound in E1. apply continuation_bound in E2.
      constructor; [lia|]. apply IH. cbn [String.length] in B. lia. }
    destruct (N.ltb_spec (N_of_ascii c) 248) as [C5|C5]; [|exact X].
    destruct r as [|c1 [|c2 [|c3 r3]]]; try exact X.
    destruct (continuation c1) as [x1|] eqn:E1; [|exact X].
    destruct (continuation c2) as [x2|] eqn:E2; [|exact X].
    destruct (continuation c3) as [x3|] eqn:E3; [|exact X].
    constructor; [apply in_range_bound|]. apply IH.
    cbn [String.length] in B. lia.
Qed.

(** The reader gives back the text of a literal, its surrogate pairs
    joined. *)
Lemma parse_chars_escape s rest :
  parse_chars (escape s ++ String quote rest) = Some (reread s, rest).
Proof.
  unfold escape, reread.
  apply (parse_chars_escape_codes (List.length (code_points s)));
    [lia|apply code_points_range].
Qed.

Lemma faithful_reread s : faithful s = true -> reread s = s.
Proof. apply String.eqb_eq. Qed.

(** *** Encoding and decoding *)

Lemma continuation_byte x :
  (x < 64)%N -> continuation (ascii_of_N (128 + x)) = Some x.
Proof.
  intros H. unfold continuation. rewrite N_ascii_embedding by lia.
  replace ((128 <=? 128 + x) && (128 + x <? 192))%N with true.
  - f_equal. lia.
  - symmetry. apply andb_true_iff.
    split; [apply N.leb_le|apply N.ltb_lt]; lia.
Qed.

Lemma split_64 n : (n = n / 64 * 64 + n mod 64)%N /\ (n mod 64 < 64)%N.
Proof.
  split; [|apply N.mod_lt; discriminate].
  rewrite N.mul_comm. apply N.div_mod. discriminate.
Qed.

(** A code point is read back from its bytes. *)
Lemma code_points_utf8_code n t :
  (n < 1114112)%N -> code_points (utf8_code n ++ t) = n :: code_points t.
Proof.
  intros H. unfold utf8_code.
  destruct (N.ltb_spec n 128) as [C1|C1].
  { cbn [append code_points]. cbv zeta. rewrite N_ascii_embedding by lia.
    now replace (n <? 128)%N with true by (symmetry; apply N.ltb_lt; lia). }
  destruct (split_64 n) as [E0 M0].
  destruct (N.ltb_spec n 2048) as [C2|C2].
  { assert (Q : (n / 64 < 32)%N) by (apply N.Div0.div_lt_upper_bound; lia).
    cbn [append code_points]. cbv zeta.
    rewrite N_ascii_embedding by lia.
    rewrite continuation_byte by exact M0.
    generalize dependent (n mod 64)%N. generalize dependent (n / 64)%N.
    intros q Q m E0 M0.
    replace (192 + q <? 128)%N with false by (symmetry; apply N.ltb_ge; lia).
    replace (192 + q <? 192)%N with false by (symmetry; apply N.ltb_ge; lia).
    replace (192 + q <? 224)%N with true by (symmetry; apply N.ltb_lt; lia).
    f_equal. lia. }
  destruct (split_64 (n / 64)) as [E1 M1].
  rewrite N.Div0.div_div in E1. change (64 * 64)%N with 4096%N in E1.
  destruct (N.ltb_spec n 65536) as [C3|C3].
  { assert (Q : (n / 4096 < 16)%N) by (apply N.Div0.div_lt_upper_bound; lia).
    cbn [append code_points]. cbv zeta.
    rewrite N_ascii_embedding by lia.
    rewrite !continuation_byte by assumption.
    generalize dependent (n mod 64)%N.
    generalize dependent ((n / 64) mod 64)%N.
    generalize dependent (n / 64)%N. generalize dependent (n / 4096)%N.
    intros q2 Q q1 m1 E1 M1 m0 E0 M0.
    replace (224 + q2 <? 128)%N with false by (symmetry; apply N.ltb_ge; lia).
    replace (224 + q2 <? 192)%N with false by (symmetry; apply N.ltb_ge; lia).
    replace (224 + q2 <? 224)%N with false by (symmetry; apply N.ltb_ge; lia).
    replace (224 + q2 <? 240)%N with true by (symmetry; apply N.ltb_lt; lia).
    f_equal. lia. }
  destruct (split_64 (n / 4096)) as [E2 M2].
  rewrite N.Div0.div_div in E2. change (4096 * 64)%N with 262144%N in E2.
  assert (Q : (n / 262144 < 5)%N) by (apply N.Div0.div_lt_upper_bound; lia).
  cbn [append code_points]. cbv zeta.
  rewrite N_ascii_embedding by lia.
  rewrite !continuation_byte by assumption.
  assert (V : ((((240 + n / 262144 - 240) * 64 + (n / 4096) mod 64) * 64
               + (n / 64) mod 64) * 64 + n mod 64 = n)%N).
  { generalize dependent (n mod 64)%N.
    generalize dependent ((n / 64) mod 64)%N.
    generalize dependent ((n / 4096) mod 64)%N.
    generalize dependent (n / 64)%N. generalize dependent (n / 4096)%N.
    generalize dependent (n / 262144)%N. intros. lia. }
  rewrite V. unfold in_range.
  replace (n <? 1114112)%N with true by (symmetry; apply N.ltb_lt; lia).
  generalize dependent (n / 262144)%N. intros q3 _ Q _.
  replace (240 + q3 <? 128)%N with false by (symmetry; apply N.ltb_ge; lia).
  replace (240 + q3 <? 192)%N with false by (symmetry; apply N.ltb_ge; lia).
  replace (240 + q3 <? 224)%N with false by (symmetry; apply N.ltb_ge; lia).
  replace (240 + q3 <? 240)%N with false by (symmetry; apply N.ltb_ge; lia).
  replace (240 + q3 <? 248)%N with true by (symmetry; apply N.ltb_lt; lia).
  reflexivity.
Qed.

(** Every list of code points is the content of its encoding: a text
    holds any [str]. *)
Lemma code_points_utf8 l :
  Forall (fun c => (c < 1114112)%N) l -> code_points (utf8 l) = l.
Proof.
  induction 1 as [|c l V _ IH]; [reflexivity|].
  cbn [utf8]. rewrite code_points_utf8_code by exact V. now rewrite IH.
Qed.

Lemma encode_string_append s t :
  encode_string s ++ t = String quote (escape s ++ String quote t).
Proof. unfold encode_string. cbn [append]. now rewrite append_assoc_s. Qed.

Lemma parse_value_string f s t :
  parse_value (S f) (encode_string s ++ t) = Some (JString (reread s), t).
Proof.
  rewrite encode_string_append.
  change (parse_value (S f) (String quote (escape s ++ String quote t)))
    with (tagged JString (parse_chars (escape s ++ String quote t))).
  now rewrite parse_chars_escape.
Qed.

(** *** Integers *)

Lemma unorm_head_zero d d' :
  Decimal.unorm d = Decimal.D0 d' -> d' = Decimal.Nil.
Proof.
  induction d; simpl; intros H; try discriminate; auto.
  now injection H.
Qed.

Lemma to_uint_head p d' : Pos.to_uint p <> Decimal.D0 d'.
Proof.
  intros H.
  assert (U : Decimal.unorm (Pos.to_uint p) = Pos.to_uint p).
  { rewrite <- (DecimalPos.Unsigned.to_of (Pos.to_uint p)),
      DecimalPos.Unsigned.of_to. reflexivity. }
  rewrite H in U. apply unorm_head_zero in U. subst d'.
  now apply (DecimalPos.Unsigned.to_uint_nonzero p).
Qed.

Lemma span_digits_uint d t :
  stops_digits t ->
  span_digits (DecimalString.NilEmpty.string_of_uint d ++ t)
  = (DecimalString.NilEmpty.string_of_uint d, t).
Proof.
  intros H. induction d; cbn [DecimalString.NilEmpty.string_of_uint append];
    [exact H|..]; cbn [span_digits]; rewrite IHd; reflexivity.
Qed.

Lemma parse_int_uint d t :
  d <> Decimal.Nil -> (forall d', d <> Decimal.D0 d') ->
  stops_digits t -> ends_integer t = true ->
  parse_int (DecimalString.NilEmpty.string_of_uint d ++ t)
  = Some (Z.of_int (Decimal.Pos d), t)
  /\ parse_int (String "-" (DecimalString.NilEmpty.string_of_uint d ++ t))
     = Some (Z.of_int (Decimal.Neg d), t).
Proof.
  intros Hn Hz Ht He.
  assert (P : DecimalString.NilZero.int_of_string
                (DecimalString.NilEmpty.string_of_uint d) = Some (Decimal.Pos d)).
  { rewrite <- (DecimalString.NilZero.isi (Decimal.Pos d)) by congruence.
    now destruct d. }
  assert (N : DecimalString.NilZero.int_of_string
                (String "-" (DecimalString.NilEmpty.string_of_uint d))
              = Some (Decimal.Neg d)).
  { rewrite <- (DecimalString.NilZero.isi (Decimal.Neg d)) by congruence.
    now destruct d. }
  assert (L : no_leading_zero (DecimalString.NilEmpty.string_of_uint d) = true).
  { destruct d; try reflexivity;
      try (cbn [DecimalString.NilEmpty.string_of_uint no_leading_zero];
           now destruct (DecimalString.NilEmpty.string_of_uint d)).
    now destruct (Hz d). }
  split.
  - unfold parse_int.
    assert (F : match DecimalString.NilEmpty.string_of_uint d ++ t with
                | String c r =>
                    if Ascii.eqb c "-" then ("-", r)
                    else (EmptyString, DecimalString.NilEmpty.string_of_uint d ++ t)
                | EmptyString => (EmptyString, DecimalString.NilEmpty.string_of_uint d ++ t)
                end = (EmptyString, DecimalString.NilEmpty.string_of_uint d ++ t)).
    { destruct d; try reflexivity. congruence. }
    rewrite F, (span_digits_uint d t Ht), L, He. cbn [andb append]. now rewrite P.
  - unfold parse_int. change (Ascii.eqb "-" "-") with true. cbv iota.
    rewrite (span_digits_uint d t Ht), L, He. cbn [andb append]. now rewrite N.
Qed.

Lemma parse_int_str_int z t :
  stops_digits t -> ends_integer t = true ->
  parse_int (str_int z ++ t) = Some (z, t).
Proof.
  intros Ht He. unfold str_int.
  rewrite <- (DecimalZ.of_to z) at 2. destruct z as [|p|p]; cbn [Z.to_int].
  - unfold parse_int. cbn [DecimalString.NilZero.string_of_int
      DecimalString.NilZero.string_of_uint DecimalString.NilEmpty.string_of_uint append].
    change (Ascii.eqb "0" "-") with false. cbv iota. cbn [span_digits].
    change (is_digit "0") with true. cbv iota. rewrite Ht. cbn [no_leading_zero andb].
    rewrite He. reflexivity.
  - destruct (parse_int_uint (Pos.to_uint p) t) as [H _]; auto.
    + apply DecimalPos.Unsigned.to_uint_nonnil.
    + apply to_uint_head.
    + rewrite <- H. f_equal. cbn [DecimalString.NilZero.string_of_int].
      pose proof (DecimalPos.Unsigned.to_uint_nonnil p).
      now destruct (Pos.to_uint p).
  - destruct (parse_int_uint (Pos.to_uint p) t) as [_ H]; auto.
    + apply DecimalPos.Unsigned.to_uint_nonnil.
    + apply to_uint_head.
    + rewrite <- H. f_equal. cbn [DecimalString.NilZero.string_of_int append].
      pose proof (DecimalPos.Unsigned.to_uint_nonnil p).
      now destruct (Pos.to_uint p).
Qed.

Lemma str_int_head z :
  exists c r, str_int z = String c r /\ (is_digit c = true \/ c = "-"%char).
Proof.
  unfold str_int. destruct z as [|p|p]; cbn [Z.to_int DecimalString.NilZero.string_of_int].
  - exists "0"%char, EmptyString. split; [reflexivity|now left].
  - pose proof (DecimalPos.Unsigned.to_uint_nonnil p).
    destruct (Pos.to_uint p); [congruence|..];
      eexists; eexists; (split; [reflexivity|now left]).
  - eexists; eexists. split; [reflexivity|now right].
Qed.

Lemma parse_value_number f c r :
  is_digit c = true \/ c = "-"%char ->
  parse_value (S f) (String c r) = tagged JInt (parse_int (String c r)).
Proof.
  intros [H| ->]; [|reflexivity].
  destruct c as [[] [] [] [] [] [] [] []]; try discriminate H; reflexivity.
Qed.

Lemma parse_value_int f z t :
  stops_digits t -> ends_integer t = true ->
  parse_value (S f) (str_int z ++ t) = Some (JInt z, t).
Proof.
  intros Ht He. destruct (str_int_head z) as (c & r & E & Hc).
  pose proof (parse_int_str_int z t Ht He) as P.
  rewrite E in *. cbn [append] in *.
  now rewrite (parse_value_number f c _ Hc), P.
Qed.

Lemma parse_value_null f t : parse_value (S f) ("null" ++ t) = Some (JNull, t).
Proof. reflexivity. Qed.

(** *** Arrays and objects *)

Lemma dumps_at_list level x xs :
  dumps_at level (JList (x :: xs))
  = "[" ++ newline_indent (S level) ++ dumps_at (S level) x
    ++ more_items (S level) xs ++ newline_indent level ++ "]".
Proof.
  cbn [dumps_at]. do 4 f_equal.
  induction xs as [|y xs IH]; [reflexivity|].
  cbn [more_items]. now rewrite <- IH.
Qed.

Lemma dumps_at_dict level k v kvs :
  dumps_at level (JDict ((k, v) :: kvs))
  = "{" ++ newline_indent (S level) ++ encode_string k ++ ": "
    ++ dumps_at (S level) v ++ more_members (S level) kvs
    ++ newline_indent level ++ "}".
Proof.
  cbn [dumps_at]. do 6 f_equal.
  induction kvs as [|[k' v'] kvs IH]; [reflexivity|].
  cbn [more_members]. now rewrite <- IH.
Qed.

Lemma delimited_comma t : delimited (String "," t).
Proof. split; reflexivity. Qed.

Lemma delimited_newline_indent level t : delimited (newline_indent level ++ t).
Proof. split; reflexivity. Qed.

Lemma parse_value_scalar f level v t :
  scalar v -> delimited t ->
  parse_value (S f) (dumps_at level v ++ t) = Some (reread_json v, t).
Proof.
  intros Hv [Ht He].
  destruct v; try contradiction; cbn [dumps_at reread_json].
  - apply parse_value_null.
  - now apply parse_value_int.
  - apply parse_value_string.
Qed.

Lemma parse_value_newline_indent fuel level s :
  parse_value fuel (newline_indent level ++ s) = parse_value fuel s.
Proof.
  rewrite parse_value_skip, skip_ws_newline_indent.
  symmetry. apply parse_value_skip.
Qed.

Lemma parse_members_step pv n k r :
  parse_members pv (S n) (encode_string k ++ String ":" r)
  = match pv r with
    | None => None
    | Some (v, r3) =>
        match skip_ws r3 with
        | EmptyString => None
        | String d r4 =>
            if Ascii.eqb d ","
            then tagged (cons (reread k, v)) (parse_members pv n r4)
            else if Ascii.eqb d "}" then Some ([(reread k, v)], r4)
            else None
        end
    end.
Proof.
  rewrite encode_string_append. cbn [parse_members skip_ws].
  change (is_ws quote) with false. cbv iota.
  change (Ascii.eqb quote quote) with true. cbv iota.
  rewrite parse_chars_escape. reflexivity.
Qed.

Lemma parse_members_indent pv n level s :
  parse_members pv n (newline_indent level ++ s) = parse_members pv n s.
Proof.
  destruct n; [reflexivity|]. cbn [parse_members].
  now rewrite skip_ws_newline_indent.
Qed.

Lemma parse_members_text f level closing kvs : forall k v n t,
  (List.length kvs < n)%nat ->
  scalar v -> Forall (fun kv => scalar (snd kv)) kvs ->
  parse_members (parse_value (S f)) n
    (newline_indent level ++ encode_string k ++ ": " ++ dumps_at level v
     ++ more_members level kvs ++ newline_indent closing ++ "}" ++ t)
  = Some (map (fun kv => (reread (fst kv), reread_json (snd kv)))
             ((k, v) :: kvs), t).
Proof.
  induction kvs as [|[k' v'] kvs IH]; intros k v n t Hn Hv Hs;
    (destruct n as [|n]; [cbn [List.length] in Hn; lia|]);
    rewrite parse_members_indent;
    change (": " ++ ?x) with (String ":" (String " " x));
    rewrite parse_members_step, parse_value_skip; cbn [skip_ws];
    change (is_ws " ") with true; cbv iota; rewrite <- parse_value_skip.
  - cbn [more_members append].
    rewrite (parse_value_scalar f level v _ Hv (delimited_newline_indent _ _)).
    rewrite skip_ws_newline_indent. reflexivity.
  - cbn [more_members].
    rewrite parse_value_scalar; [|exact Hv|split; reflexivity].
    rewrite !append_assoc_s. cbn [append skip_ws].
    change (is_ws ",") with false. cbv iota.
    change (Ascii.eqb "," ",") with true. cbv iota.
    inversion Hs as [|? ? Hv' Hs']; subst.
    match goal with
    | |- tagged _ ?p = _ =>
        assert (E : p = Some (map (fun kv => (reread (fst kv), reread_json (snd kv)))
                            ((k', v') :: kvs), t))
    end.
    { apply IH; [cbn [List.length] in Hn; lia|exact Hv'|exact Hs']. }
    now rewrite E.
Qed.

Lemma length_more_members level kvs :
  (List.length kvs <= String.length (more_members level kvs))%nat.
Proof.
  induction kvs as [|[k v] kvs IH]; [apply Nat.le_refl|].
  cbn [more_members List.length]. rewrite !length_append.
  change (String.length ",") with 1%nat. lia.
Qed.

Lemma length_more_items level xs :
  (List.length xs <= String.length (more_items level xs))%nat.
Proof.
  induction xs as [|x xs IH]; [apply Nat.le_refl|].
  cbn [more_items List.length]. rewrite !length_append.
  change (String.length ",") with 1%nat. lia.
Qed.

Lemma length_newline_indent level :
  (1 <= String.length (newline_indent level))%nat.
Proof. unfold newline_indent, nl. cbn [append String.length]. lia. Qed.

(** An object of scalars is read back, whatever follows it. *)
Lemma parse_value_dict f level k v kvs t :
  scalar v -> Forall (fun kv => scalar (snd kv)) kvs ->
  parse_value (S (S f)) (dumps_at level (JDict ((k, v) :: kvs)) ++ t)
  = Some (reread_json (JDict ((k, v) :: kvs)), t).
Proof.
  intros Hv Hs. rewrite dumps_at_dict, !append_assoc_s.
  set (r := newline_indent (S level) ++ _).
  change (parse_value (S (S f)) ("{" ++ r))
    with (if starts_with "}" (skip_ws r)
          then literal "}" (JDict []) (skip_ws r)
          else tagged JDict
                 (parse_members (parse_value (S f)) (String.length r) r)).
  assert (W : starts_with "}" (skip_ws r) = false).
  { unfold r. rewrite skip_ws_newline_indent, encode_string_append.
    reflexivity. }
  rewrite W. unfold r.
  rewrite parse_members_text; [reflexivity| |exact Hv|exact Hs].
  rewrite !length_append.
  pose proof (length_more_members (S level) kvs).
  pose proof (length_newline_indent (S level)). lia.
Qed.

Lemma parse_value_record f level r t :
  parse_value (S (S f)) (dumps_at level (json_of_record r) ++ t)
  = Some (reread_json (json_of_record r), t).
Proof.
  unfold json_of_record. apply parse_value_dict; [exact I|].
  repeat constructor. cbn [snd]. now destruct (fm_merged_at r).
Qed.

Lemma parse_elements_text pv (g : json -> json) level closing xs :
  forall x n t,
  (List.length xs < n)%nat ->
  (forall y u, In y (x :: xs) ->
     pv (newline_indent level ++ dumps_at level y ++ u) = Some (g y, u)) ->
  parse_elements pv n
    (newline_indent level ++ dumps_at level x ++ more_items level xs
     ++ newline_indent closing ++ "]" ++ t)
  = Some (map g (x :: xs), t).
Proof.
  induction xs as [|y xs IH]; intros x n t Hn Hpv;
    (destruct n as [|n]; [cbn [List.length] in Hn; lia|]);
    cbn [parse_elements]; rewrite (Hpv x _ (or_introl eq_refl)).
  - cbn [more_items append]. rewrite skip_ws_newline_indent. reflexivity.
  - cbn [more_items]. rewrite !append_assoc_s. cbn [append skip_ws].
    change (is_ws ",") with false. cbv iota.
    change (Ascii.eqb "," ",") with true. cbv iota.
    match goal with
    | |- tagged _ ?p = _ => assert (E : p = Some (map g (y :: xs), t))
    end.
    { apply IH; [cbn [List.length] in Hn; lia|].
      intros z u Hz. apply Hpv. now right. }
    now rewrite E.
Qed.

(** The array of the records is read back. *)
Lemma loads_dumps_records records tail :
  skip_ws tail = EmptyString ->
  loads (dumps (JList (map json_of_record records)) ++ tail)
  = Some (reread_json (JList (map json_of_record records))).
Proof.
  intros Htail. unfold loads, dumps.
  destruct records as [|x xs].
  - cbn [map dumps_at append String.length]. 
    change (parse_value (S (S (String.length tail))) (String "[" (String "]" tail)))
      with (Some (JList [], tail)).
    cbv iota beta. now rewrite Htail.
  - cbn [map]. rewrite dumps_at_list, !append_assoc_s.
    set (r := newline_indent 1 ++ _).
    change (String.length ("[" ++ r)) with (S (String.length r)).
    change (parse_value (S (String.length r)) ("[" ++ r))
      with (if starts_with "]" (skip_ws r)
            then literal "]" (JList []) (skip_ws r)
            else tagged JList
                   (parse_elements (parse_value (String.length r))
                      (String.length r) r)).
    assert (W : starts_with "]" (skip_ws r) = false).
    { unfold r. rewrite skip_ws_newline_indent. unfold json_of_record.
      rewrite dumps_at_dict. reflexivity. }
    assert (L : exists f, String.length r = S (S f)).
    { unfold r, newline_indent, nl. cbn [Nat.mul Nat.add spaces append String.length].
      eauto. }
    assert (N : (List.length (map json_of_record xs) < String.length r)%nat).
    { unfold r. rewrite !length_append.
      pose proof (length_more_items 1 (map json_of_record xs)).
      pose proof (length_newline_indent 1). lia. }
    rewrite W. destruct L as [f L]. rewrite L at 1. unfold r in *.
    rewrite (parse_elements_text _ reread_json); [|exact N|].
    + cbn [tagged]. cbv iota beta. now rewrite Htail.
    + intros y u Hy. rewrite parse_value_newline_indent.
      change (x :: xs) with (x :: xs) in Hy.
      assert (exists rec, y = json_of_record rec) as [rec ->].
      { destruct Hy as [<-|Hy]; [now exists x|].
        apply in_map_iff in Hy as (rec & <- & _). now exists rec. }
      apply parse_value_record.
Qed.

Lemma keys_reread_record r :
  keys (reread_json (json_of_record r)) = Some documented_fields.
Proof. reflexivity. Qed.

(** A record of faithful texts is read back as it is. *)
Lemma reread_json_record r :
  faithful_record r = true -> reread_json (json_of_record r) = json_of_record r.
Proof.
  unfold faithful_record. rewrite !andb_true_iff.
  intros ((((((A & B) & C) & D) & E) & F) & G).
  apply faithful_reread in A, B, C, D, E, G.
  unfold json_of_record. cbn [reread_json map fst snd].
  rewrite A, B, C, D, E, G.
  assert (M : reread_json (json_of_optional (fm_merged_at r))
              = json_of_optional (fm_merged_at r)).
  { destruct (fm_merged_at r) as [s|]; [|reflexivity].
    cbn [json_of_optional reread_json]. now rewrite (faithful_reread s F). }
  rewrite M. reflexivity.
Qed.

Lemma reread_json_records records :
  forallb faithful_record records = true ->
  map reread_json (map json_of_record records) = map json_of_record records.
Proof.
  induction records as [|r records IH]; [reflexivity|].
  cbn [forallb map]. intros H. apply andb_true_iff in H as [A B].
  now rewrite (reread_json_record r A), (IH B).
Qed.

(** Text that starts with a capital letter [F] is no JSON text. *)
Lemma loads_rejects_progress s t :
  loads ("Fetching" ++ s ++ t) = None.
Proof. reflexivity. Qed.

(** *** The [verbose] flag *)

Local Open Scope Z_scope.
Local Open Scope list_scope.

Section VerboseFacts.

Variable strptime : string -> option datetime.
Variable api : nat -> response (list PullRequest).
Variable comments_api : Z -> response (list Comment).

(** The flag changes what is written, not what is computed. *)
Lemma verbose_for_body verbose s e st pr :
  fst (Verbose.for_body strptime verbose s e st pr) = for_body strptime s e st pr.
Proof.
  unfold Verbose.for_body, for_body.
  destruct (truthy (pr_merged_at pr)) as [t|].
  - destruct (strptime t) as [m|]; [|reflexivity].
    destruct (within s e m); cbn; destruct (datetime_ltb m s); reflexivity.
  - cbn. destruct (merged_at st) as [m|]; [|reflexivity].
    destruct (datetime_ltb m s); reflexivity.
Qed.

Lemma quiet_for_body s e st pr :
  snd (Verbose.for_body strptime false s e st pr) = EmptyString.
Proof.
  unfold Verbose.for_body.
  destruct (truthy (pr_merged_at pr)) as [t|].
  - destruct (strptime t) as [m|]; [|reflexivity].
    destruct (within s e m); cbn; destruct (datetime_ltb m s); reflexivity.
  - cbn. destruct (merged_at st) as [m|]; [|reflexivity].
    destruct (datetime_ltb m s); reflexivity.
Qed.

Lemma verbose_for_loop verbose s e data : forall st,
  fst (Verbose.for_loop strptime verbose s e data st)
  = for_loop strptime s e data st.
Proof.
  induction data as [|pr data IH]; intros st; [reflexivity|].
  cbn [Verbose.for_loop for_loop].
  rewrite <- (verbose_for_body verbose s e st pr).
  destruct (Verbose.for_body strptime verbose s e st pr) as [[st'|x] out];
    [|reflexivity].
  cbn [Verbose.bind_printing fst bind]. rewrite <- (IH st').
  now destruct (Verbose.for_loop strptime verbose s e data st').
Qed.

Lemma quiet_for_loop s e data : forall st,
  snd (Verbose.for_loop strptime false s e data st) = EmptyString.
Proof.
  induction data as [|pr data IH]; intros st; [reflexivity|].
  cbn [Verbose.for_loop].
  pose proof (quiet_for_body s e st pr) as Q.
  destruct (Verbose.for_body strptime false s e st pr) as [[st'|x] out];
    cbn [snd] in Q; subst out; [|reflexivity].
  cbn [Verbose.bind_printing]. pose proof (IH st') as Q.
  destruct (Verbose.for_loop strptime false s e data st') as [r out].
  cbn [snd] in *. now subst out.
Qed.

Lemma verbose_while_loop verbose s e fuel : forall page st,
  fst (Verbose.while_loop strptime api verbose s e fuel page st)
  = while_loop strptime api s e fuel page st.
Proof.
  induction fuel as [|fuel IH]; intros page st.
  - cbn [Verbose.while_loop while_loop]. now destruct (shouldContinue st).
  - cbn [Verbose.while_loop while_loop].
    destruct (shouldContinue st); [|reflexivity].
    destruct (raise_for_status (api page)) as [[|pr data]|x];
      [reflexivity| |reflexivity].
    rewrite <- (verbose_for_loop verbose s e (pr :: data) st).
    destruct (Verbose.for_loop strptime verbose s e (pr :: data) st)
      as [[st'|x] out]; [|reflexivity].
    cbn [fst]. rewrite <- (IH (page + 1)%nat st').
    now destruct (Verbose.while_loop strptime api verbose s e fuel
                    (page + 1) st') as [[o pages] out'].
Qed.

Lemma quiet_while_loop s e fuel : forall page st,
  snd (Verbose.while_loop strptime api false s e fuel page st) = EmptyString.
Proof.
  induction fuel as [|fuel IH]; intros page st.
  - cbn [Verbose.while_loop]. now destruct (shouldContinue st).
  - cbn [Verbose.while_loop].
    destruct (shouldContinue st); [|reflexivity].
    destruct (raise_for_status (api page)) as [[|pr data]|x];
      [reflexivity| |reflexivity].
    pose proof (quiet_for_loop s e (pr :: data) st) as Q.
    destruct (Verbose.for_loop strptime false s e (pr :: data) st)
      as [[st'|x] out]; cbn [snd] in Q; subst out; [|reflexivity].
    pose proof (IH (page + 1)%nat st') as Q.
    destruct (Verbose.while_loop strptime api false s e fuel (page + 1) st')
      as [[o pages] out']. cbn [snd] in *. now subst out'.
Qed.

Lemma verbose_get_merged_prs verbose s e fuel :
  fst (Verbose.get_merged_prs strptime api verbose s e fuel)
  = get_merged_prs strptime api s e fuel.
Proof. apply verbose_while_loop. Qed.

(** A run with the flag is the run without it, the progress lines written
    before what that one writes. *)
Lemma verbose_main verbose fuel repo start_date end_date output_json :
  let r := Verbose.main strptime api comments_api verbose fuel repo
             start_date end_date output_json in
  let r0 := main strptime api comments_api fuel repo start_date end_date
              output_json in
  run_status r = run_status r0
  /\ pages_requested r = pages_requested r0
  /\ run_scan r = run_scan r0
  /\ stdout r
     = (Verbose.progress strptime api verbose fuel repo start_date end_date
        ++ stdout r0)%string.
Proof.
  cbv zeta. unfold Verbose.main, Verbose.progress, main.
  destruct (calculate_enddate_if_needed start_date end_date) as [e|x];
    [|repeat split].
  rewrite <- (verbose_get_merged_prs verbose start_date e fuel).
  destruct (Verbose.get_merged_prs strptime api verbose start_date e fuel)
    as [[[merged_prs|x|] pages] out2]; cbn [fst].
  - destruct (scan repo comments_api merged_prs) as [st [x|]].
    + cbn [run_status pages_requested run_scan stdout].
      repeat split. now rewrite !append_assoc_s, append_empty_r.
    + destruct output_json.
      * cbn [run_status pages_requested run_scan stdout].
        repeat split. now rewrite !append_assoc_s.
      * destruct (report_text st) as [out x].
        cbn [run_status pages_requested run_scan stdout].
        repeat split. now rewrite !append_assoc_s.
  - cbn [run_status pages_requested run_scan stdout].
    repeat split. now rewrite !append_assoc_s, !append_empty_r.
  - cbn [run_status pages_requested run_scan stdout].
    repeat split. now rewrite !append_assoc_s, !append_empty_r.
Qed.

Lemma quiet_progress fuel repo start_date end_date :
  Verbose.progress strptime api false fuel repo start_date end_date
  = EmptyString.
Proof.
  unfold Verbose.progress.
  destruct (calculate_enddate_if_needed start_date end_date) as [e|x];
    [|reflexivity].
  pose proof (quiet_while_loop start_date e fuel 1%nat (mklocals [] None true))
    as Q.
  unfold Verbose.get_merged_prs.
  destruct (Verbose.while_loop strptime api false start_date e fuel 1
              (mklocals [] None true)) as [[o pages] out].
  cbn [snd] in Q. subst out. now destruct o.
Qed.

(** With the flag off the run is the one of [main]. *)
Lemma quiet_main fuel repo start_date end_date output_json :
  Verbose.main strptime api comments_api false fuel repo start_date end_date
    output_json
  = main strptime api comments_api fuel repo start_date end_date output_json.
Proof.
  pose proof (verbose_main false fuel repo start_date end_date output_json)
    as (A & B & C & D).
  rewrite quiet_progress in D. cbn [append] in D.
  destruct (Verbose.main strptime api comments_api false fuel repo start_date
              end_date output_json) as [a1 a2 a3 a4].
  destruct (main strptime api comments_api fuel repo start_date end_date
              output_json) as [b1 b2 b3 b4].
  cbn [run_status pages_requested run_scan stdout] in *. now subst.
Qed.

(** With the flag on, the first thing a run writes is the line of line 91,
    once the end date is resolved. *)
Lemma verbose_progress_head fuel repo start_date end_date e :
  calculate_enddate_if_needed start_date end_date = Ok e ->
  exists rest,
    Verbose.progress strptime api true fuel repo start_date end_date
    = ("Fetching" ++ rest)%string.
Proof.
  intros E. unfold Verbose.progress. rewrite E.
  destruct (Verbose.get_merged_prs strptime api true start_date e fuel)
    as [[o pages] out2].
  unfold Verbose.line, Verbose.fetching. cbn [append]. eexists. reflexivity.
Qed.

End VerboseFacts.

(** C8 (as amended).  When a run in JSON mode finishes, what it wrote is
    its progress lines followed by the report.  The JSON reader accepts
    the report as an array, the array of the records collected as the
    reader gives them back, in which every item is an object whose keys
    are the eight documented fields; the items are the records themselves
    when their texts are faithful.  With [verbose] off there are no
    progress lines and the report is all the run wrote; with [verbose] on
    the reader rejects what the run wrote. *)
Theorem json_output_is_valid strptime api comments_api verbose fuel repo
  start_date end_date :
  let r := Verbose.main strptime api comments_api verbose fuel repo
             start_date end_date true in
  let records := force_merged_prs (run_scan r) in
  let items := map reread_json (map json_of_record records) in
  run_status r = Finished ->
  stdout r
  = (Verbose.progress strptime api verbose fuel repo start_date end_date
     ++ report_json (run_scan r))%string
  /\ loads (report_json (run_scan r)) = Some (JList items)
  /\ Forall (fun item => keys item = Some documented_fields) items
  /\ (forallb faithful_record records = true
      -> items = map json_of_record records)
  /\ (verbose = false -> loads (stdout r) = Some (JList items))
  /\ (verbose = true -> loads (stdout r) = None).
Proof.
  cbv zeta.
  destruct (verbose_main strptime api comments_api verbose fuel repo
              start_date end_date true) as (A & _ & C & D).
  rewrite A, C, D. clear A C D. intros F.
  assert (S0 : stdout (main strptime api comments_api fuel repo start_date
                         end_date true)
               = report_json
                   (run_scan (main strptime api comments_api fuel repo
                                start_date end_date true))).
  { revert F. unfold main.
    destruct (calculate_enddate_if_needed start_date end_date) as [e|];
      [|discriminate].
    destruct (get_merged_prs strptime api start_date e fuel)
      as [[merged_prs| |] pages]; try discriminate.
    destruct (scan repo comments_api merged_prs) as [st [x|]];
      [discriminate|reflexivity]. }
  assert (E : exists e, calculate_enddate_if_needed start_date end_date = Ok e).
  { revert F. unfold main.
    destruct (calculate_enddate_if_needed start_date end_date) as [e|];
      [eauto|discriminate]. }
  rewrite S0.
  set (st := run_scan (main strptime api comments_api fuel repo start_date
                         end_date true)).
  assert (L : loads (report_json st)
              = Some (JList (map reread_json
                               (map json_of_record (force_merged_prs st))))).
  { unfold report_json. now apply loads_dumps_records. }
  split; [reflexivity|]. split; [exact L|]. split; [|split; [|split]].
  - apply Forall_forall. intros item Hin.
    apply in_map_iff in Hin as (j & <- & Hin).
    apply in_map_iff in Hin as (rec & <- & _). apply keys_reread_record.
  - apply reread_json_records.
  - intros ->. rewrite quiet_progress. exact L.
  - intros ->. destruct E as [e E].
    destruct (verbose_progress_head strptime api fuel repo start_date
                end_date e E) as [rest ->].
    rewrite append_assoc_s. apply loads_rejects_progress.
Qed.

Lemma json_output_is_valid_witness :
  let r := Verbose.main strptime_fixed (api_of [[pr_euro; pr_april]])
             euro_comments false 3 "acme/widgets" march_1 None true in
  let records := force_merged_prs (run_scan r) in
  let items := map reread_json (map json_of_record records) in
  run_status r = Finished
  /\ stdout r
     = (Verbose.progress strptime_fixed (api_of [[pr_euro; pr_april]]) false
          3 "acme/widgets" march_1 None
        ++ report_json (run_scan r))%string
  /\ loads (report_json (run_scan r)) = Some (JList items)
  /\ Forall (fun item => keys item = Some documented_fields) items
  /\ (forallb faithful_record records = true
      -> items = map json_of_record records)
  /\ (false = false -> loads (stdout r) = Some (JList items))
  /\ (false = true -> loads (stdout r) = None).
Proof.
  intros r records items. split; [reflexivity|].
  apply (json_output_is_valid strptime_fixed (api_of [[pr_euro; pr_april]])
           euro_comments false 3 "acme/widgets" march_1 None).
  reflexivity.
Defined.

(** With [--output_json --verbose] the progress lines come before the
    array on standard output, and what the run wrote is no JSON text. *)
Lemma verbose_json_output_is_not_json :
  let r := Verbose.main strptime_fixed (api_of [[pr_euro; pr_april]])
             euro_comments true 3 "acme/widgets" march_1 None true in
  run_status r = Finished
  /\ stdout r
     = ("Fetching merged PRs for repository acme/widgets from "
        ++ "2024-03-01 00:00:00 to 2024-03-31 23:59:59.999999..." ++ nl
        ++ "Adding PR 44 for 2024-03-01 00:00:00 <= 2024-03-15 12:00:00 <= "
        ++ "2024-03-31 23:59:59.999999" ++ nl
        ++ "Skipping PR 50 for 2024-03-01 00:00:00 <= 2024-04-02 10:00:00 <= "
        ++ "2024-03-31 23:59:59.999999" ++ nl
        ++ "Scanning 1 merged PRs for FORCE_MERGE comments..." ++ nl
        ++ report_json (run_scan r))%string
  /\ loads (stdout r) = None
  /\ loads (report_json (run_scan r))
     = Some (JList [JDict [ ("repo", JString "acme/widgets");
                            ("pr_number", JInt 44);
                            ("title", JString ("Price in " ++ euro));
                            ("author", JString "alice");
                            ("commenter", JString "bob");
                            ("comment_body",
                             JString ("FORCE_MERGE " ++ grinning));
                            ("merged_at", JString "2024-03-15T12:00:00Z");
                            ("url",
                             JString "https://github.com/acme/widgets/pull/44")
                          ]%string]).
Proof. vm_compute. repeat split. Qed.

(** The reader on escapes: a code point of the first 65536, a surrogate
    pair, a surrogate alone; and texts it turns down: a trailing comma, a
    leading zero, a fraction, text after the value, an open string, an
    escape cut short. *)
Lemma loads_examples :
  loads (String quote (String backslash "u20ac" ++ String quote EmptyString))
  = Some (JString euro)
  /\ loads (String quote (String backslash "ud83d" ++ String backslash "ude00"
                          ++ String quote EmptyString))
     = Some (JString grinning)
  /\ loads (String quote (String backslash "ud83d" ++ String quote EmptyString))
     = Some (JString (utf8 [55357%N]))
  /\ loads "[1, 2,]" = None /\ loads "[01]" = None /\ loads "[1.5]" = None
  /\ loads "[] x" = None /\ loads (String quote "a") = None
  /\ loads (String quote (String backslash "u20a" ++ String quote EmptyString))
     = None.
Proof. vm_compute. repeat split. Qed.

(** * Further properties *)

(** ** The order on datetimes, continued *)

Lemma lex_le_trans (x y z : Z) (k1 k2 k3 : comparison) :
  (k1 <> Gt -> k2 <> Gt -> k3 <> Gt) ->
  lex (x ?= y) k1 <> Gt -> lex (y ?= z) k2 <> Gt -> lex (x ?= z) k3 <> Gt.
Proof.
  intros K.
  destruct (Z.compare_spec x y), (Z.compare_spec y z), (Z.compare_spec x z);
    simpl; try congruence; try lia; auto.
Qed.

Lemma datetime_leb_trans (a b c : datetime) :
  datetime_leb a b = true -> datetime_leb b c = true ->
  datetime_leb a c = true.
Proof.
  assert (E : forall u v, datetime_leb u v = true <-> datetime_cmp u v <> Gt).
  { intros u v. unfold datetime_leb.
    destruct (datetime_cmp u v); split; congruence. }
  rewrite !E. unfold datetime_cmp.
  repeat (apply lex_le_trans).
  destruct (Z.compare_spec (microsecond a) (microsecond b)),
    (Z.compare_spec (microsecond b) (microsecond c)),
    (Z.compare_spec (microsecond a) (microsecond c));
    try congruence; lia.
Qed.

(** ** The fetcher, continued *)

Section FetcherMore.

Variable strptime : string -> option datetime.
Variable api : nat -> response (list PullRequest).
Variables start_date end_date : datetime.

Local Abbreviation within := (within start_date end_date).
Local Abbreviation for_body := (for_body strptime start_date end_date).
Local Abbreviation for_loop := (for_loop strptime start_date end_date).
Local Abbreviation while_loop := (while_loop strptime api start_date end_date).
Local Abbreviation get_merged_prs := (get_merged_prs strptime api start_date end_date).
Local Abbreviation in_window := (in_window strptime start_date end_date).
Local Abbreviation data_of := (data_of api).

Lemma for_body_bound st pr :
  merged_at st <> None -> for_body st pr <> Raise UnboundLocalError.
Proof.
  intros M. unfold for_body.
  destruct (truthy (pr_merged_at pr)) as [s|].
  - destruct (strptime s) as [m|]; [|discriminate].
    destruct (within m); simpl; destruct (datetime_ltb m start_date);
      discriminate.
  - simpl. destruct (merged_at st) as [m|]; [|congruence].
    destruct (datetime_ltb m start_date); discriminate.
Qed.

Lemma for_loop_bound data : forall st,
  merged_at st <> None -> for_loop data st <> Raise UnboundLocalError.
Proof.
  induction data as [|pr data IH]; intros st M; simpl; [discriminate|].
  pose proof (for_body_bound st pr M) as B.
  destruct (for_body st pr) as [st'|e] eqn:E; simpl.
  - apply IH. apply (for_body_inv _ _ _ _ _ _ E).
  - congruence.
Qed.

Lemma while_loop_bound fuel : forall page st,
  merged_at st <> None ->
  fst (while_loop fuel page st) <> Raised UnboundLocalError.
Proof.
  induction fuel as [|fuel IH]; intros page st M.
  - simpl. destruct (shouldContinue st); discriminate.
  - destruct (shouldContinue st) eqn:F;
      [|rewrite (while_loop_stopped _ _ _ _ _ _ _ F); discriminate].
    rewrite (while_loop_step _ _ _ _ _ _ _ F).
    destruct (api page) as [[|pr data]|]; cbn [raise_for_status fst];
      try discriminate.
    pose proof (for_loop_bound (pr :: data) st M) as B.
    destruct (for_loop (pr :: data) st) as [st'|e] eqn:L; cbn [fst].
    + specialize (IH (page + 1)%nat st').
      destruct (while_loop fuel (page + 1) st') as [o pages]. cbn [fst] in *.
      apply IH. apply (for_loop_inv _ _ _ _ _ _ L). discriminate.
    + congruence.
Qed.

(** X1.  The run ends in [UnboundLocalError] exactly when the first item of
    the first page has no merge timestamp. *)
Theorem unbound_merged_at_iff fuel :
  fst (get_merged_prs (S fuel)) = Raised UnboundLocalError
  <-> exists pr rest, api 1%nat = Status_ok (pr :: rest)
                      /\ truthy (pr_merged_at pr) = None.
Proof.
  unfold get_merged_prs. rewrite while_loop_step by reflexivity.
  destruct (api 1%nat) as [[|pr data]|] eqn:A; cbn [raise_for_status fst].
  - split; [discriminate|intros (? & ? & ? & _); discriminate].
  - cbn [for_loop].
    destruct (truthy (pr_merged_at pr)) as [s|] eqn:T.
    + split; [|intros (? & ? & [= <- <-] & ?); congruence].
      intros H. exfalso. revert H.
      destruct (for_body (mklocals [] None true) pr) as [st1|e] eqn:B;
        cbn [bind].
      * pose proof (for_loop_bound data st1
                      (proj1 (proj2 (for_body_inv _ _ _ _ _ _ B)))) as Hl.
        destruct (for_loop data st1) as [st2|e] eqn:L; cbn [fst].
        -- pose proof (while_loop_bound fuel 2%nat st2) as Hw.
           change (1 + 1)%nat with 2%nat.
           destruct (while_loop fuel 2 st2) as [o pages]. cbn [fst] in *.
           apply Hw. 
           destruct data as [|pr' data'].
           ++ simpl in L. injection L as <-.
              apply (for_body_inv _ _ _ _ _ _ B).
           ++ apply (for_loop_inv _ _ _ _ _ _ L). discriminate.
        -- congruence.
      * cbn [fst]. unfold for_body in B. rewrite T in B.
        destruct (strptime s) as [m|]; [|cbn in B; congruence].
        destruct (within m); simpl in B;
          destruct (datetime_ltb m start_date); discriminate.
    + split; [intros _; now exists pr, data|intros _].
      rewrite (for_body_unmerged _ _ _ _ _ T). reflexivity.
  - split; [discriminate|intros (? & ? & ? & _); discriminate].
Qed.

(** X2.  The pages requested in a run are 1, 2, ..., k for some k: in
    order, without a gap and without a repeat. *)
Theorem pages_requested_in_order fuel :
  exists k, snd (get_merged_prs fuel) = seq 1 k.
Proof. apply while_loop_pages. Qed.

(** X3.  When the fetcher returns, its result is the kept items of the
    pages it requested, in page order and in the order of each page; an
    item the API lists twice is kept twice. *)
Theorem result_is_filter_of_pages fuel res pages :
  get_merged_prs fuel = (Returned res, pages) ->
  res = flat_map (fun p => filter in_window (data_of p)) pages.
Proof. intros H. now apply while_loop_returned in H. Qed.

Lemma while_loop_http_error fuel : forall page st p,
  In p (snd (while_loop fuel page st)) -> api p = Status_error ->
  fst (while_loop fuel page st) = Raised HTTPError
  /\ forall q, In q (snd (while_loop fuel page st)) -> (q <= p)%nat.
Proof.
  induction fuel as [|fuel IH]; intros page st p Hp A.
  { simpl in Hp. now destruct (shouldContinue st). }
  destruct (shouldContinue st) eqn:F;
    [|now rewrite (while_loop_stopped _ _ _ _ _ _ _ F) in Hp].
  rewrite (while_loop_step _ _ _ _ _ _ _ F) in *.
  destruct (Nat.eq_dec p page) as [->|Hne].
  - rewrite A in *. cbn [raise_for_status fst snd] in *.
    split; [reflexivity|]. intros q [<-|[]]. lia.
  - assert (Tail : ~ In p [page]) by (intros [E|[]]; congruence).
    destruct (api page) as [[|pr data]|];
      cbn [raise_for_status fst snd] in *; try (now apply Tail in Hp).
    destruct (for_loop (pr :: data) st) as [st'|];
      [|now apply Tail in Hp].
    specialize (IH (page + 1)%nat st' p).
    pose proof (while_loop_pages_ge strptime api start_date end_date
                  fuel (page + 1) st' p) as Hge.
    destruct (while_loop fuel (page + 1) st') as [o pages].
    cbn [fst snd] in *. destruct Hp as [E|Hp]; [congruence|].
    destruct (IH Hp A) as [I1 I2]. split; [exact I1|].
    intros q [<-|Hq]; [specialize (Hge Hp); lia|auto].
Qed.

(** X4.  A page request that fails ends the run with [HTTPError]: no
    result is returned and no later page is requested. *)
Theorem http_error_ends_fetch fuel p :
  In p (snd (get_merged_prs fuel)) -> api p = Status_error ->
  fst (get_merged_prs fuel) = Raised HTTPError
  /\ forall q, In q (snd (get_merged_prs fuel)) -> (q <= p)%nat.
Proof. apply while_loop_http_error. Qed.

(** X5.  With an end before the start no timestamp is in the window, so a
    fetcher that returns hands back the empty list. *)
Theorem inverted_window_keeps_nothing fuel res pages :
  datetime_ltb end_date start_date = true ->
  get_merged_prs fuel = (Returned res, pages) -> res = [].
Proof.
  intros Hinv H. apply while_loop_returned in H. cbn [prs app] in H.
  subst res.
  assert (W : forall pr, in_window pr = false).
  { intros pr. unfold in_window.
    destruct (truthy (pr_merged_at pr)) as [s|]; [|reflexivity].
    destruct (strptime s) as [m|]; [|reflexivity].
    unfold within.
    destruct (datetime_leb start_date m) eqn:L1; [|reflexivity].
    destruct (datetime_leb m end_date) eqn:L2; [|reflexivity].
    pose proof (datetime_leb_trans _ _ _ L1 L2) as L.
    apply datetime_ltb_not_leb in Hinv. congruence. }
  induction pages as [|p pages IH]; [reflexivity|].
  cbn [flat_map]. rewrite IH, app_nil_r.
  induction (data_of p) as [|pr l IHl]; [reflexivity|].
  cbn [filter]. now rewrite W.
Qed.

(** X6.  The loop has no bound of its own: while every page holds kept
    items only, the run goes on, and after any number of steps it has
    requested that many pages and has not returned. *)
Theorem no_stop_without_empty_or_old_page fuel :
  (forall p, (1 <= p)%nat ->
     exists data, api p = Status_ok data /\ data <> []
                  /\ Forall (fun pr => in_window pr = true) data) ->
  get_merged_prs fuel = (OutOfFuel, seq 1 fuel).
Proof.
  intros Hp. unfold get_merged_prs.
  assert (G : forall page st, (1 <= page)%nat -> shouldContinue st = true ->
            while_loop fuel page st = (OutOfFuel, seq page fuel)).
  { induction fuel as [|fuel IH]; intros page st Hpage F.
    - simpl. now rewrite F.
    - destruct (Hp page Hpage) as (data & A & Hne & Hk).
      rewrite (while_loop_page _ _ _ _ _ _ _ _ F A Hne).
      destruct (for_loop_all_kept strptime start_date end_date data st Hk)
        as (st' & -> & _ & F').
      rewrite (IH (page + 1)%nat st'); [|lia|congruence].
      cbn [seq]. now rewrite Nat.add_1_r. }
  apply G; [lia|reflexivity].
Qed.

End FetcherMore.

(** ** The scan and the report, continued *)

Section ScanMore.

Variable repo : string.
Variable comments_api : Z -> response (list Comment).

Local Abbreviation record_of := (record_of repo).
Local Abbreviation scan_prs := (scan_prs repo comments_api).
Local Abbreviation scan := (scan repo comments_api).
Local Abbreviation comments_of := (comments_of comments_api).

Lemma scan_prs_app a b : forall st,
  scan_prs (a ++ b) st
  = match scan_prs a st with
    | (st', None) => scan_prs b st'
    | (st', Some e) => (st', Some e)
    end.
Proof.
  induction a as [|pr a IH]; intros st; simpl; [reflexivity|].
  destruct (comments_api (pr_number pr)); simpl; [apply IH|reflexivity].
Qed.

(** X7.  When a comment request fails, the scan stops there with
    [HTTPError]: the pull requests before it have been scanned, the
    failing one is the last one requested, and none after it is. *)
Theorem comment_failure_stops_scan done pr rest :
  Forall (fun p => comments_api (pr_number p) <> Status_error) done ->
  comments_api (pr_number pr) = Status_error ->
  scan (done ++ pr :: rest)
  = (mkscan_state
       (flat_map (fun p => map (record_of p) (filter marked (comments_of p)))
          done)
       (Some (pr_merged_at pr))
       (map pr_number (done ++ [pr])),
     Some HTTPError).
Proof.
  intros Hdone Hpr. unfold scan. rewrite scan_prs_app.
  destruct (scan_prs_total repo comments_api done (mkscan_state [] None [])
              Hdone) as [st' E].
  rewrite E. apply scan_prs_finished in E as (R & Q & _).
  cbn [scan_prs]. rewrite Hpr. cbn [raise_for_status].
  cbn [force_merged_prs comments_requested app] in R, Q.
  now rewrite R, Q, map_app.
Qed.

End ScanMore.

Lemma last_in_list {A : Type} (l : list A) (d : A) : l <> [] -> In (last l d) l.
Proof.
  intros H. destruct (exists_last H) as (l' & a & ->).
  rewrite last_last. apply in_or_app. right. now left.
Qed.

Section MainMore.

Variable strptime : string -> option datetime.
Variable api : nat -> response (list PullRequest).
Variable comments_api : Z -> response (list Comment).

Local Abbreviation main := (main strptime api comments_api).

(** The date text of line 120 is always there to be cut: the scan of a
    fetched list leaves [pr_merged_at] bound to a string whenever it
    leaves a record. *)
Lemma report_text_runs repo start_date e fuel merged_prs pages st :
  get_merged_prs strptime api start_date e fuel = (Returned merged_prs, pages) ->
  scan repo comments_api merged_prs = (st, None) ->
  snd (report_text st) = None.
Proof.
  intros G S. unfold report_text.
  apply scan_prs_finished in S as (R & _ & L & _).
  destruct merged_prs as [|pr l].
  - cbn [force_merged_prs flat_map app] in R. rewrite R.
    now destruct (pr_merged_at_var st) as [[?|]|].
  - rewrite L by discriminate.
    assert (Hin : In (last (pr :: l) pr_unmerged) (pr :: l))
      by (apply last_in_list; discriminate).
    destruct (get_merged_prs_kept _ _ _ _ _ _ _ _ G Hin)
      as (_ & s & m & -> & _).
    now rewrite text_loop_one_date.
Qed.

(** X8.  [main] finishes exactly when the end date resolves, the fetch
    returns and every comment request succeeds; the text report itself
    never raises.  A run that does not finish has printed nothing. *)
Theorem main_finishes_iff fuel repo start_date end_date output_json :
  let r := main fuel repo start_date end_date output_json in
  (run_status r = Finished
   <-> exists e merged_prs pages st,
         calculate_enddate_if_needed start_date end_date = Ok e
         /\ get_merged_prs strptime api start_date e fuel
            = (Returned merged_prs, pages)
         /\ scan repo comments_api merged_prs = (st, None))
  /\ (run_status r <> Finished -> stdout r = EmptyString).
Proof.
  intros r. subst r. unfold main.
  destruct (calculate_enddate_if_needed start_date end_date) as [e|x].
  2:{ split; [split; [discriminate|]|reflexivity].
      intros (? & ? & ? & ? & ? & _). discriminate. }
  assert (No : forall o pages,
            get_merged_prs strptime api start_date e fuel = (o, pages) ->
            (forall l, o <> Returned l) ->
            ~ exists e0 merged_prs pages0 st,
                Ok e = Ok e0
                /\ get_merged_prs strptime api start_date e0 fuel
                   = (Returned merged_prs, pages0)
                /\ scan repo comments_api merged_prs = (st, None)).
  { intros o pages G Ho (e0 & m0 & p0 & st0 & He & Hg & _).
    injection He as <-. rewrite G in Hg. injection Hg as -> _.
    now apply (Ho m0). }
  destruct (get_merged_prs strptime api start_date e fuel)
    as [[merged_prs|x|] pages] eqn:G.
  - destruct (scan repo comments_api merged_prs) as [st [x|]] eqn:S.
    + split; [split; [discriminate|]|reflexivity].
      intros (e0 & m0 & p0 & st0 & He & Hg & Hs).
      injection He as <-. rewrite G in Hg. injection Hg as <- _. congruence.
    + assert (Fin : exists e0 merged_prs0 pages0 st0,
                Ok e = Ok e0
                /\ get_merged_prs strptime api start_date e0 fuel
                   = (Returned merged_prs0, pages0)
                /\ scan repo comments_api merged_prs0 = (st0, None))
        by (exists e, merged_prs, pages, st; auto).
      destruct output_json.
      * split; [split; [intros _; exact Fin|reflexivity]
               |intros H; now destruct H].
      * pose proof (report_text_runs _ _ _ _ _ _ _ G S) as T.
        destruct (report_text st) as [out err]. cbn [snd] in T. subst err.
        split; [split; [intros _; exact Fin|reflexivity]
               |intros H; now destruct H].
  - split; [split; [discriminate|]|reflexivity].
    intros H. apply (No _ _ eq_refl) in H; [contradiction|discriminate].
  - split; [split; [discriminate|]|reflexivity].
    intros H. apply (No _ _ eq_refl) in H; [contradiction|discriminate].
Qed.

(** X9.  In a run that finishes, there is one comment request for each
    pull request the fetcher kept, in fetch order, and the records are the
    marked comments of those pull requests, in fetch order and then in
    comment order, nothing dropped and nothing merged. *)
Theorem finished_run_contents fuel repo start_date end_date output_json :
  let r := main fuel repo start_date end_date output_json in
  run_status r = Finished ->
  exists e,
    calculate_enddate_if_needed start_date end_date = Ok e
    /\ let kept :=
         flat_map (fun p => filter (in_window strptime start_date e)
                              (data_of api p)) (pages_requested r) in
       comments_requested (run_scan r) = map pr_number kept
       /\ force_merged_prs (run_scan r)
          = flat_map (fun pr => map (record_of repo pr)
                                  (filter marked (comments_of comments_api pr)))
              kept.
Proof.
  intros r. subst r. unfold main.
  destruct (calculate_enddate_if_needed start_date end_date) as [e|x];
    [|discriminate].
  destruct (get_merged_prs strptime api start_date e fuel)
    as [[merged_prs|x|] pages] eqn:G; try discriminate.
  destruct (scan repo comments_api merged_prs) as [st [x|]] eqn:S;
    [discriminate|].
  intros _. exists e. split; [reflexivity|].
  apply while_loop_returned in G. cbn [prs app] in G.
  apply scan_prs_finished in S as (R & Q & _).
  cbn [force_merged_prs comments_requested app] in R, Q.
  destruct output_json; [|destruct (report_text st)];
    cbn [pages_requested run_scan]; rewrite <- G; auto.
Qed.

(** With [verbose] off, a run that finishes with no record prints an empty
    array in JSON mode and the heading alone in text mode. *)
Lemma main_empty_report fuel repo start_date end_date output_json :
  let r := main fuel repo start_date end_date output_json in
  run_status r = Finished -> force_merged_prs (run_scan r) = [] ->
  stdout r = if output_json then ("[]" ++ nl)%string
             else (nl ++ "Force-Merged PRs:" ++ nl)%string.
Proof.
  intros r. subst r. unfold main.
  destruct (calculate_enddate_if_needed start_date end_date) as [e|x];
    [|discriminate].
  destruct (get_merged_prs strptime api start_date e fuel)
    as [[merged_prs|x|] pages]; try discriminate.
  destruct (scan repo comments_api merged_prs) as [st [x|]];
    [discriminate|].
  destruct output_json.
  - cbn [run_scan stdout]. intros _ E. unfold report_json. now rewrite E.
  - unfold report_text. destruct st as [records var req].
    cbn [force_merged_prs pr_merged_at_var].
    destruct records as [|rec records].
    + cbn [text_loop run_scan stdout]. reflexivity.
    + destruct (text_loop var (rec :: records)). cbn [run_scan force_merged_prs].
      discriminate.
Qed.

End MainMore.

(** X10.  A run that finishes with no record writes, after its progress
    lines, an empty array in JSON mode and the heading alone in text mode;
    with [verbose] off that is all it writes. *)
Theorem empty_report strptime api comments_api verbose fuel repo start_date
  end_date output_json :
  let r := Verbose.main strptime api comments_api verbose fuel repo
             start_date end_date output_json in
  let report := if output_json then ("[]" ++ nl)%string
                else (nl ++ "Force-Merged PRs:" ++ nl)%string in
  run_status r = Finished -> force_merged_prs (run_scan r) = [] ->
  stdout r
  = (Verbose.progress strptime api verbose fuel repo start_date end_date
     ++ report)%string
  /\ (verbose = false -> stdout r = report).
Proof.
  cbv zeta.
  destruct (verbose_main strptime api comments_api verbose fuel repo
              start_date end_date output_json) as (A & _ & C & D).
  rewrite A, C, D. intros F E.
  rewrite (main_empty_report strptime api comments_api fuel repo start_date
             end_date output_json F E).
  split; [reflexivity|]. intros ->. now rewrite quiet_progress.
Qed.

(** X17.  The [verbose] flag changes what a run writes and nothing else:
    the run ends the same way, requests the same pages and comments and
    collects the same records as with the flag off, and what it writes is
    its progress lines followed by what it writes with the flag off, which
    has no progress lines. *)
Theorem verbose_changes_output_only strptime api comments_api verbose fuel
  repo start_date end_date output_json :
  let r := Verbose.main strptime api comments_api verbose fuel repo
             start_date end_date output_json in
  let quiet := Verbose.main strptime api comments_api false fuel repo
                 start_date end_date output_json in
  run_status r = run_status quiet
  /\ pages_requested r = pages_requested quiet
  /\ run_scan r = run_scan quiet
  /\ stdout r
     = (Verbose.progress strptime api verbose fuel repo start_date end_date
        ++ stdout quiet)%string
  /\ Verbose.progress strptime api false fuel repo start_date end_date
     = EmptyString.
Proof.
  cbv zeta. rewrite quiet_main.
  destruct (verbose_main strptime api comments_api verbose fuel repo
              start_date end_date output_json) as (A & B & C & D).
  repeat split; try assumption. apply quiet_progress.
Qed.

(** ** The date window, continued *)

Lemma replace_day_end_calendar dt d :
  calendar_date (year dt, month dt, d) -> year dt <= MAXYEAR ->
  replace_day_end dt d = Ok (mkdatetime (year dt) (month dt) d 23 59 59 999999).
Proof.
  intros C Hmax. unfold replace_day_end.
  now rewrite calendar_valid_datetime.
Qed.

Lemma replace_midnight_calendar dt :
  calendar_date (date_of dt) -> year dt <= MAXYEAR ->
  replace_midnight dt = Ok (mkdatetime (year dt) (month dt) (day dt) 0 0 0 0).
Proof.
  intros (Hy & Hm & Hd) Hmax. unfold replace_midnight.
  replace (valid_datetime (mkdatetime (year dt) (month dt) (day dt) 0 0 0 0))
    with true; [reflexivity|].
  symmetry. unfold valid_datetime, check_date_fields, MINYEAR, MAXYEAR in *.
  cbn [year month day hour minute second microsecond].
  rewrite (proj1 (proj2 (month_agree (year dt) (month dt) Hm))).
  rewrite !andb_true_iff, !Z.leb_le. repeat split; try lia; reflexivity.
Qed.

(** [_ymd2ord] undoes [_ord2ymd] on the ordinals from 1 on, and the date
    found is a date of the calendar. *)
Lemma ymd2ord_ord2ymd n :
  1 <= n ->
  calendar_date (ord2ymd n)
  /\ (let '(y, m, d) := ord2ymd n in ymd2ord y m d) = n.
Proof.
  intros Hn.
  assert (C : calendar_date (1, 1, 1))
    by (unfold calendar_date; change (month_length 1 1) with 31; lia).
  pose proof (ord2ymd_days_later (Z.to_nat (n - 1)) 1 1 1 C) as E.
  destruct (days_later_ordinal (Z.to_nat (n - 1)) 1 1 1 C) as [V O].
  change (ymd2ord 1 1 1) with 1 in E, O.
  replace (1 + Z.of_nat (Z.to_nat (n - 1))) with n in E, O by lia.
  rewrite E. split; [exact V|exact O].
Qed.

(** Adding a number of days that stays within the ordinals of the type. *)
Lemma add_days_in_range dt n :
  valid_datetime dt = true ->
  1 <= toordinal dt + n <= MAXORDINAL ->
  exists r, add_days dt n = Ok r
            /\ calendar_date (date_of r) /\ year r <= MAXYEAR
            /\ toordinal r = toordinal dt + n
            /\ date_of r = ord2ymd (toordinal dt + n)
            /\ hour r = hour dt /\ minute r = minute dt
            /\ second r = second dt /\ microsecond r = microsecond dt.
Proof.
  intros V Hr. unfold add_days.
  replace (0 <? toordinal dt + n) with true by (symmetry; apply Z.ltb_lt; lia).
  replace (toordinal dt + n <=? MAXORDINAL) with true
    by (symmetry; apply Z.leb_le; lia).
  cbn [andb].
  destruct (ymd2ord_ord2ymd (toordinal dt + n) ltac:(lia)) as [C O].
  destruct (ord2ymd (toordinal dt + n)) as [[y m] d].
  eexists. split; [reflexivity|]. unfold toordinal at 1, date_of.
  cbn [year month day hour minute second microsecond].
  repeat split; auto; try apply C.
  apply (ordinal_year_bound y m d C). lia.
Qed.

Lemma date_before_next_day ymd : date_before ymd (next_day ymd).
Proof.
  destruct ymd as [[y m] d]. unfold next_day, date_before.
  destruct (d <? month_length y m); [lia|].
  destruct (m <? 12) eqn:M; [apply Z.ltb_lt in M|]; lia.
Qed.

Lemma date_before_trans a b c :
  date_before a b -> date_before b c -> date_before a c.
Proof.
  destruct a as [[? ?] ?], b as [[? ?] ?], c as [[? ?] ?].
  unfold date_before. lia.
Qed.

Lemma date_before_days_later n ymd : date_before ymd (days_later (S n) ymd).
Proof.
  induction n as [|n IH]; cbn [days_later] in *.
  - apply date_before_next_day.
  - eapply date_before_trans; [exact IH|apply date_before_next_day].
Qed.

Lemma date_before_ltb a b :
  date_before (date_of a) (date_of b) -> datetime_ltb a b = true.
Proof.
  unfold date_before, date_of, datetime_ltb, datetime_cmp. intros H.
  destruct (Z.compare_spec (year a) (year b)); cbn [lex];
    [|reflexivity|lia].
  destruct (Z.compare_spec (month a) (month b)); cbn [lex];
    [|reflexivity|lia].
  destruct (Z.compare_spec (day a) (day b)); cbn [lex];
    [lia|reflexivity|lia].
Qed.

(** X11.  Whenever the resolver computes an end date, that end is a valid
    datetime strictly after the start, so the window is never empty; and
    the only exception it can raise for a valid start is
    [OverflowError]. *)
Theorem resolved_end_after_start start :
  valid_datetime start = true ->
  (forall e, calculate_enddate_if_needed start None = Ok e ->
             valid_datetime e = true /\ datetime_ltb start e = true)
  /\ (forall x, calculate_enddate_if_needed start None = Raise x ->
                x = OverflowError).
Proof.
  intros V. destruct (valid_datetime_calendar start V) as (C & Hmax & Ht).
  pose proof C as (Hy & Hm & Hd).
  unfold calculate_enddate_if_needed.
  destruct (Z.eqb_spec (day start) 1) as [D1|D1].
  - pose proof (month_agree (year start) (month start) Hm)
      as (L & _ & Hlen & _).
    rewrite replace_day_end_calendar; [|rewrite L; repeat split; lia|exact Hmax].
    split; [|discriminate]. intros e [= <-]. split.
    + apply calendar_valid_datetime; [rewrite L; repeat split; lia|exact Hmax].
    + apply date_before_ltb. unfold date_of, date_before.
      cbn [year month day]. lia.
  - unfold add_days.
    destruct ((0 <? toordinal start + 30)
              && (toordinal start + 30 <=? MAXORDINAL)) eqn:R.
    + apply andb_true_iff in R as [R1 R2].
      apply Z.ltb_lt in R1. apply Z.leb_le in R2.
      pose proof (ord2ymd_days_later 30 _ _ _ C) as E.
      destruct (days_later_ordinal 30 _ _ _ C) as [C' O].
      pose proof (date_before_days_later 29 (date_of start)) as B.
      change (Z.of_nat 30) with 30 in E, O. unfold toordinal.
      rewrite E. unfold date_of in B.
      destruct (days_later 30 (year start, month start, day start))
        as [[y m] d].
      assert (Hy' : y <= MAXYEAR)
        by (apply (ordinal_year_bound y m d C'); unfold toordinal in R2; lia).
      cbn [bind]. unfold replace_end. cbn [day].
      rewrite replace_day_end_calendar; [|exact C'|exact Hy'].
      cbn [year month]. split; [|discriminate]. intros e [= <-]. split.
      * now apply calendar_valid_datetime.
      * now apply date_before_ltb.
    + cbn [bind]. split; [discriminate|]. now intros x [= <-].
Qed.

Section CommandLineFacts.

Variable strptime_date : string -> option datetime.

(** X12.  [--startdate D --enddate D]: the start is [D] at midnight, the
    end is [D] at 23:59:59.999999, and the window holds every moment of
    day [D]. *)
Theorem same_day_window d dt :
  strptime_date d = Some dt -> valid_datetime dt = true ->
  let s := mkdatetime (year dt) (month dt) (day dt) 0 0 0 0 in
  let e := mkdatetime (year dt) (month dt) (day dt) 23 59 59 999999 in
  startdate_type strptime_date d = Ok s
  /\ enddate_type strptime_date d = Ok e
  /\ forall t, valid_datetime t = true -> date_of t = date_of dt ->
               within s e t = true.
Proof.
  intros P V. destruct (valid_datetime_calendar dt V) as (C & Hmax & _).
  cbv zeta. unfold startdate_type, enddate_type, replace_end. rewrite P.
  rewrite (replace_midnight_calendar dt C Hmax).
  rewrite (replace_day_end_calendar dt (day dt) C Hmax).
  split; [reflexivity|]. split; [reflexivity|].
  intros t Vt Ed. unfold date_of in Ed. injection Ed as Ey Em Edd.
  unfold valid_datetime in Vt. apply andb_true_iff in Vt as [_ Vt].
  unfold check_time_fields in Vt.
  rewrite !andb_true_iff, !Z.leb_le in Vt.
  destruct Vt as (((((((H1 & H2) & H3) & H4) & H5) & H6) & H7) & H8).
  unfold within, datetime_leb, datetime_cmp.
  cbn [year month day hour minute second microsecond].
  rewrite Ey, Em, Edd, !Z.compare_refl. cbn [lex].
  apply andb_true_iff. split.
  - destruct (Z.compare_spec 0 (hour t)); cbn [lex]; [|reflexivity|lia].
    destruct (Z.compare_spec 0 (minute t)); cbn [lex]; [|reflexivity|lia].
    destruct (Z.compare_spec 0 (second t)); cbn [lex]; [|reflexivity|lia].
    destruct (Z.compare_spec 0 (microsecond t)); [reflexivity|reflexivity|lia].
  - destruct (Z.compare_spec (hour t) 23); cbn [lex]; [|reflexivity|lia].
    destruct (Z.compare_spec (minute t) 59); cbn [lex]; [|reflexivity|lia].
    destruct (Z.compare_spec (second t) 59); cbn [lex]; [|reflexivity|lia].
    destruct (Z.compare_spec (microsecond t) 999999);
      [reflexivity|reflexivity|lia].
Qed.

End CommandLineFacts.

(** X13.  With neither date on the command line, the start is midnight 30
    days before today, and, unless that day is the first of a month, the
    window ends today at 23:59:59.999999. *)
Theorem default_window now :
  valid_datetime now = true -> 30 < toordinal now ->
  exists start,
    startdate_default now = Ok start
    /\ toordinal start = toordinal now - 30
    /\ (hour start, minute start, second start, microsecond start)
       = (0, 0, 0, 0)
    /\ (day start <> 1 ->
        calculate_enddate_if_needed start None
        = Ok (mkdatetime (year now) (month now) (day now) 23 59 59 999999)).
Proof.
  intros V H30. destruct (valid_datetime_calendar now V) as (C & Hmax & _).
  assert (Hmaxo : toordinal now <= MAXORDINAL)
    by (apply (ordinal_in_range_iff _ _ _ C); exact Hmax).
  destruct (add_days_in_range now (-30) V ltac:(lia))
    as (r & A & Cr & Hr & Or & _).
  unfold startdate_default. rewrite A. cbn [bind].
  rewrite (replace_midnight_calendar r Cr Hr).
  eexists. split; [reflexivity|].
  set (start := mkdatetime (year r) (month r) (day r) 0 0 0 0).
  assert (Os : toordinal start = toordinal now - 30)
    by (change (toordinal start) with (toordinal r); lia).
  split; [lia|]. split; [reflexivity|].
  intros D1. unfold calculate_enddate_if_needed.
  replace (day start =? 1) with false by (symmetry; apply Z.eqb_neq; exact D1).
  assert (Vs : valid_datetime start = true).
  { unfold start, valid_datetime, check_date_fields, MINYEAR, MAXYEAR in *.
    cbn [year month day hour minute second microsecond].
    destruct Cr as (Hy & Hm & Hd).
    rewrite (proj1 (proj2 (month_agree (year r) (month r) Hm))).
    rewrite !andb_true_iff, !Z.leb_le. repeat split; try lia; reflexivity. }
  destruct (add_days_in_range start 30 Vs ltac:(lia))
    as (r2 & A2 & Cr2 & Hr2 & Or2 & Dr2 & _).
  rewrite A2. cbn [bind]. unfold replace_end.
  rewrite (replace_day_end_calendar r2 (day r2) Cr2 Hr2).
  replace (toordinal start + 30) with (toordinal now) in Dr2 by lia.
  unfold toordinal in Dr2 at 1. rewrite (ord2ymd_ymd2ord _ _ _ C) in Dr2.
  unfold date_of in Dr2. now injection Dr2 as -> -> ->.
Qed.

(** ** The report text, continued *)

Local Open Scope string_scope.

(** X14.  Line 120 keeps what stands before the first [T]: of a timestamp
    [<date>T<time>] the date, and of a text without [T] all of it. *)
Theorem split_T_head_cuts d t :
  contains "T" d = false ->
  split_T_head (d ++ String "T" t) = d /\ split_T_head d = d.
Proof.
  induction d as [|c d IH]; intros H; [split; reflexivity|].
  cbn [contains] in H. apply orb_false_iff in H as [H1 H2].
  destruct (IH H2) as [I1 I2].
  assert (N : Ascii.eqb c "T" = false).
  { apply Ascii.eqb_neq. intros ->. now destruct d. }
  cbn [append split_T_head]. now rewrite N, I1, I2.
Qed.

Lemma split_T_head_cuts_witness :
  split_T_head ("2024-03-15" ++ String "T" "12:00:00Z") = "2024-03-15"
  /\ split_T_head "2024-03-15" = "2024-03-15".
Proof. apply split_T_head_cuts. reflexivity. Defined.

(** X15.  The text report of a scan that ran to its end: the heading,
    then one block per record in order, every block dated with the merge
    date of the pull request scanned last. *)
Theorem text_report_blocks repo comments_api front pr st s :
  scan repo comments_api (front ++ [pr]) = (st, None) ->
  pr_merged_at pr = Some s ->
  report_text st
  = (nl ++ "Force-Merged PRs:" ++ nl
     ++ fold_right append EmptyString
          (map (text_block (split_T_head s)) (force_merged_prs st)),
     None).
Proof.
  intros S P. apply scan_prs_finished in S as (_ & _ & L & _).
  unfold report_text. rewrite L by (now destruct front).
  rewrite last_last, P, text_loop_one_date. reflexivity.
Qed.

Local Open Scope Z_scope.
Local Open Scope list_scope.


(** ** Worked runs for the further properties *)

Lemma result_is_filter_of_pages_witness :
  [pr_march 1; pr_march 2]
  = flat_map (fun p => filter (in_window strptime_fixed march_1 march_31)
                         (data_of (api_of [[pr_march 1; pr_april];
                                           [pr_march 2]]) p))
      [1; 2; 3]%nat.
Proof.
  apply (result_is_filter_of_pages strptime_fixed
           (api_of [[pr_march 1; pr_april]; [pr_march 2]]) march_1 march_31 5).
  reflexivity.
Defined.

Lemma http_error_ends_fetch_witness :
  fst (get_merged_prs strptime_fixed api_failing march_1 march_31 5)
  = Raised HTTPError
  /\ forall q,
       In q (snd (get_merged_prs strptime_fixed api_failing march_1 march_31 5))
       -> (q <= 2)%nat.
Proof.
  apply (http_error_ends_fetch strptime_fixed api_failing march_1 march_31
           5 2%nat).
  - right. left. reflexivity.
  - reflexivity.
Defined.

Lemma inverted_window_keeps_nothing_witness :
  datetime_ltb march_1 march_31 = true
  /\ get_merged_prs strptime_fixed (api_of [[pr_march 1]]) march_31 march_1 5
     = (Returned [], [1]%nat)
  /\ @nil PullRequest = [].
Proof.
  split; [reflexivity|]. split; [reflexivity|].
  apply (inverted_window_keeps_nothing strptime_fixed
           (api_of [[pr_march 1]]) march_31 march_1 5 [] [1]%nat);
    reflexivity.
Defined.

Lemma no_stop_without_empty_or_old_page_witness :
  get_merged_prs strptime_fixed (fun _ => Status_ok [pr_march 1])
    march_1 march_31 3
  = (OutOfFuel, [1; 2; 3]%nat).
Proof.
  apply (no_stop_without_empty_or_old_page strptime_fixed
           (fun _ => Status_ok [pr_march 1]) march_1 march_31 3).
  intros p _. exists [pr_march 1]. split; [reflexivity|].
  split; [discriminate|]. repeat constructor.
Defined.

Lemma comment_failure_stops_scan_witness :
  scan "acme/widgets" comments_failing [pr_march 42; pr_march_20; pr_march 44]
  = (mkscan_state
       [record_of "acme/widgets" (pr_march 42)
          (mkComment "bob" "FORCE_MERGE: ci flaky")]
       (Some (Some "2024-03-20T09:00:00Z")) [42; 43],
     Some HTTPError).
Proof.
  apply (comment_failure_stops_scan "acme/widgets" comments_failing
           [pr_march 42] pr_march_20 [pr_march 44]).
  - repeat constructor. discriminate.
  - reflexivity.
Defined.

Lemma main_finishes_iff_witness :
  stdout (main strptime_fixed (api_of [[pr_march 42; pr_march_20]])
            comments_failing 3 "acme/widgets" march_1 None false)
  = EmptyString.
Proof.
  apply (proj2 (main_finishes_iff strptime_fixed
                  (api_of [[pr_march 42; pr_march_20]]) comments_failing
                  3 "acme/widgets" march_1 None false)).
  discriminate.
Defined.

Lemma finished_run_contents_witness :
  let r := main strptime_fixed (api_of [[pr_march 42; pr_february]])
             widgets_comments 3 "acme/widgets" march_1 None false in
  exists e,
    calculate_enddate_if_needed march_1 None = Ok e
    /\ let kept :=
         flat_map (fun p => filter (in_window strptime_fixed march_1 e)
                              (data_of (api_of [[pr_march 42; pr_february]]) p))
           (pages_requested r) in
       comments_requested (run_scan r) = map pr_number kept
       /\ force_merged_prs (run_scan r)
          = flat_map (fun pr => map (record_of "acme/widgets" pr)
                                  (filter marked
                                     (comments_of widgets_comments pr)))
              kept.
Proof.
  apply (finished_run_contents strptime_fixed
           (api_of [[pr_march 42; pr_february]]) widgets_comments
           3 "acme/widgets" march_1 None false).
  reflexivity.
Defined.

Lemma empty_report_witness :
  stdout (Verbose.main strptime_fixed (api_of [[pr_march_20]])
            widgets_comments false 3 "acme/widgets" march_1 None true)
  = ("[]" ++ nl)%string
  /\ stdout (Verbose.main strptime_fixed (api_of [[pr_march_20]])
               widgets_comments true 3 "acme/widgets" march_1 None false)
     = (Verbose.progress strptime_fixed (api_of [[pr_march_20]]) true 3
          "acme/widgets" march_1 None
        ++ nl ++ "Force-Merged PRs:" ++ nl)%string.
Proof.
  split.
  - apply (empty_report strptime_fixed (api_of [[pr_march_20]])
             widgets_comments false 3 "acme/widgets" march_1 None true);
      reflexivity.
  - apply (empty_report strptime_fixed (api_of [[pr_march_20]])
             widgets_comments true 3 "acme/widgets" march_1 None false);
      reflexivity.
Defined.

Lemma resolved_end_after_start_witness :
  valid_datetime march_31 = true /\ datetime_ltb march_1 march_31 = true.
Proof.
  apply (proj1 (resolved_end_after_start march_1 eq_refl) march_31).
  reflexivity.
Defined.

Lemma same_day_window_witness :
  startdate_type strptime_date_fixed "2024-03-15"
  = Ok (mkdatetime 2024 3 15 0 0 0 0)
  /\ enddate_type strptime_date_fixed "2024-03-15"
     = Ok (mkdatetime 2024 3 15 23 59 59 999999)
  /\ forall t, valid_datetime t = true ->
               date_of t = date_of (mkdatetime 2024 3 15 0 0 0 0) ->
               within (mkdatetime 2024 3 15 0 0 0 0)
                 (mkdatetime 2024 3 15 23 59 59 999999) t = true.
Proof.
  apply (same_day_window strptime_date_fixed "2024-03-15"
           (mkdatetime 2024 3 15 0 0 0 0)); reflexivity.
Defined.

Lemma default_window_witness :
  exists start,
    startdate_default (mkdatetime 2024 3 20 10 30 15 250) = Ok start
    /\ toordinal start = toordinal (mkdatetime 2024 3 20 10 30 15 250) - 30
    /\ (hour start, minute start, second start, microsecond start)
       = (0, 0, 0, 0)
    /\ (day start <> 1 ->
        calculate_enddate_if_needed start None
        = Ok (mkdatetime 2024 3 20 23 59 59 999999)).
Proof.
  apply (default_window (mkdatetime 2024 3 20 10 30 15 250)); reflexivity.
Defined.

Lemma text_report_blocks_witness :
  report_text
    (mkscan_state
       [record_of "acme/widgets" (pr_march 42)
          (mkComment "bob" "FORCE_MERGE: ci flaky")]
       (Some (Some "2024-03-20T09:00:00Z")) [42; 43])
  = ((nl ++ "Force-Merged PRs:" ++ nl
      ++ fold_right append EmptyString
           (map (text_block (split_T_head "2024-03-20T09:00:00Z"))
              [record_of "acme/widgets" (pr_march 42)
                 (mkComment "bob" "FORCE_MERGE: ci flaky")]))%string,
     None).
Proof.
  apply (text_report_blocks "acme/widgets" widgets_comments
           [pr_march 42] pr_march_20).
  - reflexivity.
  - reflexivity.
Defined.
